(** * Capability catalog and approval-gated action broker

    A shallow embedding of the AI core feature pack:

    - [AiMethods]     : server/lib/ai-methods      (catalog names)
    - [MethodsSearch] : server/api/methods-search  (relevance scorer, both the
                        compiled JavaScript and the TypeScript variant)
    - [AiPolicy]      : server/lib/ai-policy       (auto-approve switches)
    - [Execute]       : server/api/execute         (single and bulk broker)
    - [AiEndpoints]   : server/lib/ai-endpoints    (cached route discovery)

    JavaScript strings are modelled as [string], that is as sequences of
    8-bit code units; [toUpperCase] and [toLowerCase] act on the ASCII
    letters, which is what the JavaScript methods do on ASCII text. *)

From Stdlib Require Import String Ascii List ZArith Bool Lia DecimalString.
From Stdlib Require Import Sorted Permutation.
Import ListNotations.
Local Open Scope string_scope.

(* ------------------------------------------------------------------ *)
(** ** String primitives of the JavaScript runtime *)

Module JsString.

Definition inRange (lo hi : nat) (c : ascii) : bool :=
  let n := nat_of_ascii c in Nat.leb lo n && Nat.leb n hi.

Definition isUpper (c : ascii) : bool := inRange 65 90 c.
Definition isLower (c : ascii) : bool := inRange 97 122 c.
Definition isDigit (c : ascii) : bool := inRange 48 57 c.

(** The character class [[a-zA-Z0-9]]. *)
Definition isAlnum (c : ascii) : bool := isLower c || isUpper c || isDigit c.

(** The character class [[a-z0-9]]. *)
Definition isLowerAlnum (c : ascii) : bool := isLower c || isDigit c.

Definition isUnderscore (c : ascii) : bool := Ascii.eqb c "_".

(** White space removed by [String.prototype.trim] (ASCII part). *)
Definition isSpace (c : ascii) : bool :=
  let n := nat_of_ascii c in
  Nat.eqb n 32 || (Nat.leb 9 n && Nat.leb n 13).

Definition lowerChar (c : ascii) : ascii :=
  if isUpper c then ascii_of_nat (nat_of_ascii c + 32) else c.

Definition upperChar (c : ascii) : ascii :=
  if isLower c then ascii_of_nat (nat_of_ascii c - 32) else c.

Fixpoint mapChars (f : ascii -> ascii) (s : string) : string :=
  match s with
  | EmptyString => EmptyString
  | String c r => String (f c) (mapChars f r)
  end.

Definition toLowerCase : string -> string := mapChars lowerChar.
Definition toUpperCase : string -> string := mapChars upperChar.

(** [s.startsWith(p)] *)
Definition startsWith (s p : string) : bool := String.prefix p s.

(** [s.includes(sub)] : [sub] occurs somewhere in [s]. *)
Fixpoint includes (s sub : string) : bool :=
  String.prefix sub s ||
  match s with
  | EmptyString => false
  | String _ r => includes r sub
  end.

(** [s.split(' ')] : the pieces between single separator characters; an
    empty string gives one empty piece. *)
Fixpoint splitOn (sep : ascii) (s : string) : list string :=
  match s with
  | EmptyString => [EmptyString]
  | String c r =>
      if Ascii.eqb c sep then EmptyString :: splitOn sep r
      else match splitOn sep r with
           | [] => [String c EmptyString]
           | piece :: pieces => String c piece :: pieces
           end
  end.

(** [parts.join(sep)] *)
Definition join (sep : string) (parts : list string) : string :=
  String.concat sep parts.

(** [s.replace(/[class]+/g, rep)] : every maximal run of characters of the
    class becomes one [rep].  [inRun] tells that the previous character
    already belonged to a run. *)
Fixpoint replaceRuns (inClass : ascii -> bool) (rep : ascii)
         (inRun : bool) (s : string) : string :=
  match s with
  | EmptyString => EmptyString
  | String c r =>
      if inClass c then
        if inRun then replaceRuns inClass rep true r
        else String rep (replaceRuns inClass rep true r)
      else String c (replaceRuns inClass rep false r)
  end.

(** Removes the leading run of characters of the class. *)
Fixpoint dropLeading (inClass : ascii -> bool) (s : string) : string :=
  match s with
  | EmptyString => EmptyString
  | String c r => if inClass c then dropLeading inClass r else s
  end.

(** Removes the trailing run of characters of the class. *)
Fixpoint dropTrailing (inClass : ascii -> bool) (s : string) : string :=
  match s with
  | EmptyString => EmptyString
  | String c r =>
      match dropTrailing inClass r with
      | EmptyString => if inClass c then EmptyString else String c EmptyString
      | r' => String c r'
      end
  end.

(** [s.trim()] *)
Definition trim (s : string) : string :=
  dropTrailing isSpace (dropLeading isSpace s).

End JsString.

(* ------------------------------------------------------------------ *)
(** ** server/lib/ai-methods : catalog names *)

Module AiMethods.
Import JsString.

(** [.replace(/^\//, '')] : one leading slash is removed. *)
Definition stripLeadingSlash (s : string) : string :=
  match s with
  | String c r => if Ascii.eqb c "/" then r else s
  | EmptyString => s
  end.

(** [.replace(/\[([^\]]+)\]/g, '$1')] : every bracketed, non-empty group
    without a closing bracket inside loses its brackets.  [pending] holds
    the characters read since an opening bracket that is still waiting for
    its closing bracket.  The group's content may itself contain opening
    brackets; an opening bracket directly followed by a closing one, or
    never closed, is no match and stays. *)
Fixpoint unbracketFrom (pending : option string) (s : string) : string :=
  match s with
  | EmptyString =>
      match pending with
      | None => EmptyString
      | Some buf => String "[" buf
      end
  | String c r =>
      match pending with
      | None =>
          if Ascii.eqb c "[" then unbracketFrom (Some EmptyString) r
          else String c (unbracketFrom None r)
      | Some buf =>
          if Ascii.eqb c "]" then
            match buf with
            | EmptyString => String "[" (String "]" (unbracketFrom None r))
            | _ => buf ++ unbracketFrom None r
            end
          else unbracketFrom (Some (buf ++ String c EmptyString)) r
      end
  end.

Definition unbracket (s : string) : string := unbracketFrom None s.

(** [.replace(/[^a-zA-Z0-9]+/g, '_')] *)
Definition squashNonAlnum (s : string) : string :=
  replaceRuns (fun c => negb (isAlnum c)) "_" false s.

(** [.replace(/_+/g, '_')] *)
Definition collapseUnderscores (s : string) : string :=
  replaceRuns isUnderscore "_" false s.

(** [.replace(/^_+|_+$/g, '')] *)
Definition trimUnderscores (s : string) : string :=
  dropTrailing isUnderscore (dropLeading isUnderscore s).

(** The [cleaned] constant of [methodNameFor]. *)
Definition cleaned (pathTemplate : string) : string :=
  toLowerCase
    (trimUnderscores
       (collapseUnderscores
          (squashNonAlnum
             (unbracket
                (stripLeadingSlash pathTemplate))))).

Definition methodNameFor (pathTemplate method : string) : string :=
  let m := toUpperCase method in
  "route_" ++ cleaned pathTemplate ++ "__" ++ m.

End AiMethods.

(* ------------------------------------------------------------------ *)
(** ** server/api/methods-search : relevance scorer *)

(** What the compiled scorer and its TypeScript variant share. *)
Module SearchCommon.
Import JsString.
Local Open Scope Z_scope.

Record MethodSpec := {
  name : string;
  method : string;
  pathTemplate : string;
  description : string;
  pathParams : list string;
  readOnly : bool
}.

(** [s.toLowerCase().replace(/[^a-z0-9]+/g, ' ').trim()] *)
Definition normalize (s : string) : string :=
  trim (replaceRuns (fun c => negb (isLowerAlnum c)) " " false (toLowerCase s)).

Definition STOPWORDS : list string :=
  [ "a"; "an"; "and"; "are"; "as"; "at"; "be"; "but"; "by"; "can"; "could";
    "did"; "do"; "does"; "for"; "from"; "get"; "give"; "have"; "how"; "i";
    "in"; "is"; "it"; "just"; "list"; "me"; "my"; "of"; "on"; "or"; "please";
    "show"; "tell"; "that"; "the"; "there"; "this"; "to"; "up"; "what";
    "when"; "where"; "who"; "with"; "would"; "you"; "your" ].

(** [set.has(x)] *)
Definition has (set : list string) (x : string) : bool :=
  existsb (String.eqb x) set.

(** The searchable text of a method. *)
Definition hayOf (m : MethodSpec) : string :=
  normalize (join " " [ name m; method m; pathTemplate m; description m;
                        join " " (pathParams m) ]).

(** One turn of the loop over the terms of the query. *)
Definition termStep (hay : string) (score : Z) (term : string) : Z :=
  if String.eqb term "" then score
  else if Nat.ltb (String.length term) 3%nat then score
  else if has STOPWORDS term then score
  else if includes hay term then score + 3
  else score.

(** [for (const term of q.split(' ')) ...], started from [score]. *)
Definition termPoints (hay q : string) (score : Z) : Z :=
  fold_left (termStep hay) (splitOn " " q) score.

(** Whether a query term is one the loop counts. *)
Definition counted (hay term : string) : bool :=
  negb (String.eqb term "") && negb (Nat.ltb (String.length term) 3%nat)
  && negb (has STOPWORDS term) && includes hay term.

(** The number of terms of the query the loop counts. *)
Definition countedTerms (hay q : string) : Z :=
  Z.of_nat (List.length (filter (counted hay) (splitOn " " q))).

(** The guard of the early [return 30]. *)
Definition exactMatch (q : string) (m : MethodSpec) : bool :=
  negb (String.eqb q "") && includes (hayOf m) q.

Definition isCreate (qt : string) : bool :=
  includes qt " add " || includes qt " create " || includes qt " new "
  || includes qt " make " || includes qt " log " || includes qt " record ".

Definition isUpdate (qt : string) : bool :=
  includes qt " update " || includes qt " edit " || includes qt " change "
  || includes qt " correct " || includes qt " fix ".

Definition isDelete (qt : string) : bool :=
  includes qt " delete " || includes qt " remove ".

Definition isList (qt : string) : bool :=
  includes qt " list " || includes qt " show " || includes qt " view "
  || includes qt " current view " || includes qt " on this page "
  || includes qt " on this screen ".

(** The intent and control-plane adjustments that end [score], applied to
    the points gathered so far. *)
Definition intentAdjust (q : string) (m : MethodSpec) (score : Z) : Z :=
  let qt := " " ++ q ++ " " in
  let mm := toUpperCase (method m) in
  let score :=
    if isDelete qt && String.eqb mm "DELETE" then score + 10 else score in
  let score :=
    if (isUpdate qt || isCreate qt)
       && (String.eqb mm "PUT" || String.eqb mm "PATCH")
    then score + 6 else score in
  let score :=
    if isCreate qt && String.eqb mm "POST" then score + 8 else score in
  let score :=
    if (isCreate qt || isUpdate qt || isDelete qt) && String.eqb mm "GET"
    then Z.max 0 (score - 2) else score in
  let score :=
    if isList qt && String.eqb mm "GET" then score + 3 else score in
  let score :=
    if startsWith (pathTemplate m) "/api/ai/"
    then Z.max 0 (score - 3) else score in
  score.

(** [.sort((a, b) => b.score - a.score)] : the sort is stable, so that a
    candidate goes in front of the first one whose score is not greater. *)
Fixpoint insertByScore (x : MethodSpec * Z) (sorted : list (MethodSpec * Z))
  : list (MethodSpec * Z) :=
  match sorted with
  | [] => [x]
  | y :: rest =>
      if snd y <=? snd x then x :: sorted else y :: insertByScore x rest
  end.

Definition sortByScore (scored : list (MethodSpec * Z)) : list (MethodSpec * Z) :=
  fold_right insertByScore [] scored.

(** The [candidates] of the compiled handler for a scoring function: the
    methods with a positive score, best first, at most [limit] of them.
    The TypeScript handler ranks in this way the methods that its pack
    filter leaves. *)
Definition candidates (score : string -> MethodSpec -> Z) (q : string)
           (methods : list MethodSpec) (limit : nat) : list MethodSpec :=
  map fst
    (firstn limit
       (sortByScore
          (filter (fun x => 0 <? snd x)
                  (map (fun m => (m, score q m)) methods)))).

End SearchCommon.

(** The compiled scorer (dist/server/api/methods-search.js). *)
Module MethodsSearch.
Import JsString.
Export SearchCommon.
Local Open Scope Z_scope.

Definition entityBoost (q : string) (m : MethodSpec) : Z :=
  let qt := " " ++ q ++ " " in
  let p := toLowerCase (pathTemplate m) in
  let b := 0 in
  let b :=
    if includes qt " contact " || includes qt " contacts " then
      if includes p "/contacts" then b + 8 else b
    else b in
  let b :=
    if includes qt " company " || includes qt " companies "
       || includes qt " customer " || includes qt " customers " then
      if includes p "/companies" then b + 8 else b
    else b in
  let b :=
    if includes qt " activity " || includes qt " activities "
       || includes qt " call " || includes qt " meeting " then
      if includes p "/activities" then b + 8 else b
    else b in
  let b :=
    if includes qt " task " || includes qt " tasks " then
      if includes p "/tasks" then b + 8 else b
    else b in
  let b :=
    if includes qt " location " || includes qt " locations " then
      if includes p "/locations" then b + 8 else b
    else b in
  b.

(** The statements of [score] after the early returns. *)
Definition partialScore (q : string) (m : MethodSpec) : Z :=
  let score := termPoints (hayOf m) q 0 in
  let score := score + entityBoost q m in
  intentAdjust q m score.

Definition score (q : string) (m : MethodSpec) : Z :=
  let hay := hayOf m in
  if String.eqb hay "" then 0
  else if negb (String.eqb q "") && includes hay q then 30
  else partialScore q m.

End MethodsSearch.

(** The TypeScript scorer (src/server/api/methods-search.ts), which adds
    penalties for a method of another entity. *)
Module MethodsSearchTs.
Import JsString.
Export SearchCommon.
Local Open Scope Z_scope.

Definition entityBoost (q : string) (m : MethodSpec) : Z :=
  let qt := " " ++ q ++ " " in
  let p := toLowerCase (pathTemplate m) in
  let b := 0 in
  let b :=
    if includes qt " contact " || includes qt " contacts " then
      let b := if includes p "/contacts" then b + 12 else b in
      if includes p "/companies" then b - 6 else b
    else b in
  let b :=
    if includes qt " company " || includes qt " companies "
       || includes qt " customer " || includes qt " customers " then
      let b := if includes p "/companies" then b + 12 else b in
      if includes p "/contacts" then b - 6 else b
    else b in
  let b :=
    if includes qt " deal " || includes qt " deals "
       || includes qt " opportunity " || includes qt " opportunities " then
      let b := if includes p "/deals" then b + 12 else b in
      if includes p "/companies" then b - 6 else b
    else b in
  let b :=
    if includes qt " activity " || includes qt " activities "
       || includes qt " call " || includes qt " meeting " then
      if includes p "/activities" then b + 8 else b
    else b in
  let b :=
    if includes qt " task " || includes qt " tasks " then
      if includes p "/tasks" then b + 8 else b
    else b in
  let b :=
    if includes qt " location " || includes qt " locations " then
      if includes p "/locations" then b + 8 else b
    else b in
  let b :=
    if includes qt " metric " || includes qt " metrics "
       || includes qt " catalog " then
      if includes p "/metrics" then b + 8 else b
    else b in
  let b :=
    if includes qt " query " || includes qt " aggregate "
       || includes qt " sum " || includes qt " total "
       || includes qt " average " then
      if includes p "/metrics/query" then b + 10 else b
    else b in
  let b :=
    if includes qt " compare " || includes qt " comparison "
       || includes qt " trend " || includes qt " change " then
      if includes p "/metrics/query" then b + 8 else b
    else b in
  let b :=
    if includes qt " catalog " then
      let b := if includes p "/catalog" then b + 12 else b in
      if includes p "/definitions" then Z.max 0 (b - 6) else b
    else b in
  b.

Definition mismatchPenalty (q : string) (m : MethodSpec) : Z :=
  let qt := " " ++ q ++ " " in
  let p := toLowerCase (pathTemplate m) in
  let pen := 0 in
  let pen :=
    if (includes qt " contact " || includes qt " contacts ")
       && negb (includes p "/contacts") then pen + 15 else pen in
  let pen :=
    if (includes qt " company " || includes qt " companies "
        || includes qt " customer " || includes qt " customers ")
       && negb (includes p "/companies") then pen + 15 else pen in
  let pen :=
    if (includes qt " deal " || includes qt " deals "
        || includes qt " opportunity " || includes qt " opportunities ")
       && negb (includes p "/deals") then pen + 15 else pen in
  let pen :=
    if (includes qt " activity " || includes qt " activities ")
       && negb (includes p "/activities") then pen + 8 else pen in
  let pen :=
    if includes qt " pipeline " && negb (includes p "/pipeline")
    then pen + 6 else pen in
  let pen :=
    if includes qt " catalog " && negb (includes p "/catalog")
    then pen + 10 else pen in
  pen.

Definition partialScore (q : string) (m : MethodSpec) : Z :=
  let score := termPoints (hayOf m) q 0 in
  let score := score + entityBoost q m in
  let score := score - mismatchPenalty q m in
  intentAdjust q m score.

Definition score (q : string) (m : MethodSpec) : Z :=
  let hay := hayOf m in
  if String.eqb hay "" then 0
  else if negb (String.eqb q "") && includes hay q then 30
  else partialScore q m.

End MethodsSearchTs.

(* ------------------------------------------------------------------ *)
(** ** JSON values handed to the broker *)

Module Js.
Local Open Scope Z_scope.

(** Numbers are the integers among the JavaScript numbers. *)
#[local] Unset Elimination Schemes.
Inductive value :=
| Undefined
| Null
| Bool (b : bool)
| Number (n : Z)
| Str (s : string)
| Arr (items : list value)
| Obj (fields : list (string * value)).
#[local] Set Elimination Schemes.

(** [Boolean(v)] *)
Definition truthy (v : value) : bool :=
  match v with
  | Undefined | Null => false
  | Bool b => b
  | Number n => negb (n =? 0)
  | Str s => negb (String.eqb s "")
  | Arr _ | Obj _ => true
  end.

(** [v == null] *)
Definition nullish (v : value) : bool :=
  match v with
  | Undefined | Null => true
  | _ => false
  end.

(** [a ?? b] *)
Definition coalesce (a b : value) : value := if nullish a then b else a.

(** [a || b] *)
Definition or_ (a b : value) : value := if truthy a then a else b.

Fixpoint lookup (k : string) (fields : list (string * value)) : option value :=
  match fields with
  | [] => None
  | (k', v) :: rest => if String.eqb k k' then Some v else lookup k rest
  end.

(** [v.k] for one of the keys the broker reads ([method], [path], [query],
    [body], [approved], [requests]); [None] is the [TypeError] of a
    property read on [null] or [undefined]. *)
Definition getProp (v : value) (k : string) : option value :=
  match v with
  | Undefined | Null => None
  | Obj fields =>
      match lookup k fields with
      | Some x => Some x
      | None => Some Undefined
      end
  | _ => Some Undefined
  end.

(** [v?.k] *)
Definition optProp (v : value) (k : string) : value :=
  match getProp v k with
  | Some x => x
  | None => Undefined
  end.

Definition hasKey (k : string) (fields : list (string * value)) : bool :=
  match lookup k fields with
  | Some _ => true
  | None => false
  end.

Fixpoint joinOpt (sep : string) (parts : list (option string)) : option string :=
  match parts with
  | [] => Some EmptyString
  | [p] => p
  | p :: rest =>
      match p, joinOpt sep rest with
      | Some a, Some b => Some (a ++ sep ++ b)%string
      | _, _ => None
      end
  end.

(** [String(v)]; [None] is the [TypeError] raised for an object whose own
    [toString] property hides the inherited method (a parsed JSON value is
    never callable). *)
Fixpoint toStr (v : value) : option string :=
  match v with
  | Undefined => Some "undefined"%string
  | Null => Some "null"%string
  | Bool true => Some "true"%string
  | Bool false => Some "false"%string
  | Number n => Some (DecimalString.NilZero.string_of_int (Z.to_int n))
  | Str s => Some s
  | Arr items =>
      joinOpt ","
        (map (fun x => if nullish x then Some EmptyString else toStr x) items)
  | Obj fields =>
      if hasKey "toString" fields then None else Some "[object Object]"%string
  end.

End Js.

(* ------------------------------------------------------------------ *)
(** ** server/lib/ai-policy : the operator's switches *)

Module AiPolicy.

(** The variables of [process.env] the policy reads. *)
Record ProcessEnv := {
  NODE_ENV : option string;
  HIT_AI_AUTO_APPROVE_WRITES : option string;
  HIT_AI_AUTO_APPROVE_DELETE : option string
}.

(** [v === s] for an environment variable, which is a string or absent. *)
Definition envIs (v : option string) (s : string) : bool :=
  match v with
  | Some x => String.eqb x s
  | None => false
  end.

Definition autoApproveWritesEnabled (env : ProcessEnv) : bool :=
  envIs (NODE_ENV env) "development"
  || envIs (HIT_AI_AUTO_APPROVE_WRITES env) "1".

Definition autoApproveDeleteEnabled (env : ProcessEnv) : bool :=
  envIs (HIT_AI_AUTO_APPROVE_DELETE env) "1".

End AiPolicy.

(* ------------------------------------------------------------------ *)
(** ** server/api/execute : the action broker *)

Module Execute.
Import JsString Js AiPolicy.
Local Open Scope Z_scope.

(** What the broker reads of the incoming request. *)
Record Request := {
  req_url : string;
  req_authorization : option string;
  req_cookie : option string
}.

(** The [input] object of a single call: the five properties the broker
    reads, [Undefined] when absent. *)
Record RequestInput := {
  in_method : value;
  in_path : value;
  in_query : value;
  in_body : value;
  in_approved : value
}.

(** The [input] object of a batch. *)
Record BulkInput := {
  in_requests : value;
  bulk_approved : value
}.

(** The second argument of [fetch]. *)
Record FetchInit := {
  init_method : string;
  init_headers : list (string * string);
  init_body : option string
}.

Record FetchCall := {
  call_url : string;
  call_init : FetchInit
}.

(** What the broker reads of the upstream response. *)
Record Response := {
  resp_status : Z;
  resp_text : string
}.

(** The [body] of what the two tools return. *)
#[local] Unset Elimination Schemes.
Inductive Body :=
| ErrorBody (error : string)
| DraftBody (toolName : string) (input : value)
| ExecBody (status : Z) (url : string) (method : string) (response : value)
| BulkBody (status : Z) (ok failed : Z) (results : list Body).
#[local] Set Elimination Schemes.

Record HttpResult := {
  status : Z;
  body : Body
}.

(** [res.body?.status] with [typeof st === 'number']: the error and draft
    bodies carry no [status]. *)
Definition bodyStatus (b : Body) : option Z :=
  match b with
  | ExecBody st _ _ _ => Some st
  | BulkBody st _ _ _ => Some st
  | ErrorBody _ | DraftBody _ _ => None
  end.

(** [typeof st === 'number' && st >= 200 && st < 300] *)
Definition isOk (b : Body) : bool :=
  match bodyStatus b with
  | Some st => (200 <=? st) && (st <? 300)
  | None => false
  end.

(** [typeof v === 'string' ? f(v) : d] *)
Definition ifString (v : value) (f : string -> string) (d : string) : string :=
  match v with
  | Str s => f s
  | _ => d
  end.

Definition VERBS : list string := ["GET"; "POST"; "PUT"; "PATCH"; "DELETE"].

(** The constant [method] of [httpRequest]. *)
Definition methodOf (input : RequestInput) : string :=
  let methodRaw := ifString (in_method input) toUpperCase "GET" in
  if existsb (String.eqb methodRaw) VERBS then methodRaw else "GET".

(** The constant [pathRaw] of [httpRequest]. *)
Definition pathOf (input : RequestInput) : string :=
  ifString (in_path input) (fun s => s) "".

(** The draft a held single call returns. *)
Definition requestDraft (method pathRaw : string) (input : RequestInput) : HttpResult :=
  {| status := 200;
     body := DraftBody "http.request"
               (Obj [ ("method", Str method);
                      ("path", Str pathRaw);
                      ("query", coalesce (in_query input) Null);
                      ("body", coalesce (in_body input) Null);
                      ("approved", Bool false) ]) |}.

(** [Object.entries(query)] of an object or an array. *)
Definition entriesOf (query : value) : list (string * value) :=
  match query with
  | Obj fields => fields
  | Arr items =>
      combine
        (map (fun i => DecimalString.NilZero.string_of_uint (Nat.to_uint i))
             (seq 0 (List.length items)))
        items
  | _ => []
  end.

(** The headers of the forwarded call. *)
Definition headersOf (request : Request) : list (string * string) :=
  let headers := [] in
  let headers :=
    match req_authorization request with
    | Some auth =>
        if String.eqb auth "" then headers
        else (headers ++ [("authorization", auth)])%list
    | None => headers
    end in
  let headers :=
    match req_cookie request with
    | Some cookie =>
        if String.eqb cookie "" then headers
        else (headers ++ [("cookie", cookie)])%list
    | None => headers
    end in
  (headers ++ [("content-type", "application/json")])%list.

(** The constant [query] of [httpRequest], as its entries: those of
    [input.query] when it is an object, none otherwise. *)
Definition queryOf (input : RequestInput) : list (string * value) :=
  if truthy (in_query input) then entriesOf (in_query input) else [].

(** The pairs the loop over [Object.entries(query)] sets on the URL;
    [None] when [String(v)] throws. *)
Fixpoint searchParamsOf (entries : list (string * value)) : option (list (string * string)) :=
  match entries with
  | [] => Some []
  | (k, v) :: rest =>
      if nullish v then searchParamsOf rest
      else
        match toStr v, searchParamsOf rest with
        | Some s, Some params => Some ((k, s) :: params)
        | _, _ => None
        end
  end.

(** [parsed]: the response text, parsed when it is JSON. *)
Definition parsedOf (parseJson : string -> option value) (resp : Response) : value :=
  match parseJson (resp_text resp) with
  | Some v => v
  | None => Str (resp_text resp)
  end.

(** The [init] of the forwarded call. *)
Definition initOf (stringify : value -> string) (request : Request)
           (method : string) (input : RequestInput) : FetchInit :=
  {| init_method := method;
     init_headers := headersOf request;
     init_body :=
       if negb (String.eqb method "GET")
       then Some (stringify (coalesce (in_body input) (Obj [])))
       else None |}.

Section Broker.

(** The host application and the network behind [fetch]. *)
Variable World : Type.

(** [await fetch(url, init)] followed by [await resp.text()]; [None] is a
    rejected promise. *)
Variable fetch : World -> FetchCall -> World * option Response.

(** [new URL(pathRaw, new URL(request.url).origin)], each pair of the
    second argument passed to [searchParams.set], then [url.toString()]. *)
Variable buildUrl : string -> string -> list (string * string) -> string.

(** [JSON.stringify] *)
Variable stringify : value -> string.

(** [JSON.parse]; [None] is its [SyntaxError]. *)
Variable parseJson : string -> option value.

(** A computation of the broker: it changes the world, appends to the log
    of the network calls it made, and returns or throws ([None]). *)
Definition M (A : Type) : Type :=
  World -> list FetchCall -> World * list FetchCall * option A.

Definition ret {A} (a : A) : M A := fun w log => (w, log, Some a).

Definition throw {A} : M A := fun w log => (w, log, None).

Definition bind {A B} (m : M A) (k : A -> M B) : M B :=
  fun w log =>
    match m w log with
    | (w', log', Some a) => k a w' log'
    | (w', log', None) => (w', log', None)
    end.

Definition lift {A} (o : option A) : M A :=
  match o with
  | Some a => ret a
  | None => throw
  end.

Definition doFetch (call : FetchCall) : M Response :=
  fun w log =>
    let (w', resp) := fetch w call in (w', (log ++ [call])%list, resp).

Notation "x <- m ;; k" := (bind m (fun x => k))
  (at level 61, m at next level, right associativity).

(** The first steps of a computation's result. *)
Definition outcomeOf {A} (r : World * list FetchCall * option A) : option A :=
  snd r.

Definition callsOf {A} (r : World * list FetchCall * option A) : list FetchCall :=
  snd (fst r).

(** [httpRequest] after the approval test: the call is forwarded to the
    host application. *)
Definition forward (request : Request) (method pathRaw : string)
           (input : RequestInput) : M HttpResult :=
  params <- lift (searchParamsOf (queryOf input)) ;;
  let url := buildUrl (req_url request) pathRaw params in
  let init := initOf stringify request method input in
  resp <- doFetch {| call_url := url; call_init := init |} ;;
  let parsed := parsedOf parseJson resp in
  ret {| status := 200;
         body := ExecBody (resp_status resp) url method parsed |}.

Definition httpRequest (env : ProcessEnv) (request : Request)
           (input : RequestInput) : M HttpResult :=
  let method := methodOf input in
  let pathRaw := pathOf input in
  let approved := truthy (in_approved input) in
  if negb (startsWith pathRaw "/api/") then
    ret {| status := 400;
           body := ErrorBody "path must start with '/api/'" |}
  else if startsWith pathRaw "/api/ai/" then
    ret {| status := 400;
           body := ErrorBody "Refusing to call /api/ai/* endpoints" |}
  else
    let requiresApproval := negb (String.eqb method "GET") in
    let autoApprove := autoApproveWritesEnabled env in
    let forceApprove :=
      String.eqb method "DELETE" && negb (autoApproveDeleteEnabled env) in
    if requiresApproval && negb approved && (forceApprove || negb autoApprove)
    then ret (requestDraft method pathRaw input)
    else forward request method pathRaw input.

(** [String(r?.method || '').toUpperCase()] *)
Definition entryVerb (r : value) : option string :=
  option_map toUpperCase (toStr (or_ (optProp r "method") (Str ""))).

(** [reqs.some(pred)]; the predicate may throw. *)
Fixpoint some (pred : value -> option bool) (reqs : list value) : option bool :=
  match reqs with
  | [] => Some false
  | r :: rest =>
      match pred r with
      | Some true => Some true
      | Some false => some pred rest
      | None => None
      end
  end.

(** The input [httpBulk] hands to [httpRequest] for one entry. *)
Definition entryInput (r : value) : option RequestInput :=
  match getProp r "method", getProp r "path", getProp r "query", getProp r "body" with
  | Some m, Some p, Some q, Some b =>
      Some {| in_method := m;
              in_path := p;
              in_query := coalesce q Null;
              in_body := coalesce b Null;
              in_approved := Bool true |}
  | _, _, _, _ => None
  end.

(** The [for (const r of reqs)] loop of [httpBulk], entered with the
    current [results], [ok] and [failed]. *)
Fixpoint bulkLoop (env : ProcessEnv) (request : Request) (reqs : list value)
         (results : list Body) (ok failed : Z) : M (list Body * Z * Z) :=
  match reqs with
  | [] => ret (results, ok, failed)
  | r :: rest =>
      input <- lift (entryInput r) ;;
      res <- httpRequest env request input ;;
      let results := (results ++ [body res])%list in
      if isOk (body res)
      then bulkLoop env request rest results (ok + 1) failed
      else bulkLoop env request rest results ok (failed + 1)
  end.

(** [httpBulk] from the policy lookup on, for an array [reqs] that passed
    the two size checks. *)
Definition bulkProceed (env : ProcessEnv) (request : Request)
           (reqs : list value) (approved : bool) : M HttpResult :=
  let autoApprove := autoApproveWritesEnabled env in
  anyWrite <-
    lift (some (fun r => option_map (fun v => negb (String.eqb v "GET"))
                                    (entryVerb r)) reqs) ;;
  anyDelete <-
    lift (some (fun r => option_map (fun v => String.eqb v "DELETE")
                                    (entryVerb r)) reqs) ;;
  let forceApprove := anyDelete && negb (autoApproveDeleteEnabled env) in
  if anyWrite && negb approved && (forceApprove || negb autoApprove) then
    ret {| status := 200;
           body := DraftBody "http.bulk"
                     (Obj [ ("requests", Arr reqs);
                            ("approved", Bool false) ]) |}
  else
    out <- bulkLoop env request reqs [] 0 0 ;;
    let '(results, ok, failed) := out in
    ret {| status := 200;
           body := BulkBody (if failed =? 0 then 200 else 207)
                            ok failed results |}.

Definition httpBulk (env : ProcessEnv) (request : Request)
           (input : BulkInput) : M HttpResult :=
  let approved := truthy (bulk_approved input) in
  match in_requests input with
  | Arr reqs =>
      if Nat.eqb (List.length reqs) 0 then
        ret {| status := 400; body := ErrorBody "requests[] is required" |}
      else if Nat.ltb 50 (List.length reqs) then
        ret {| status := 400; body := ErrorBody "Too many requests (max 50)" |}
      else bulkProceed env request reqs approved
  | _ =>
      ret {| status := 400; body := ErrorBody "requests[] is required" |}
  end.

End Broker.

Arguments ret {World A} a.
Arguments throw {World A}.
Arguments bind {World A B} m k.
Arguments lift {World A} o.
Arguments outcomeOf {World A} r.
Arguments callsOf {World A} r.
Arguments doFetch {World} fetch call.
Arguments forward {World} fetch buildUrl stringify parseJson request method pathRaw input.
Arguments httpRequest {World} fetch buildUrl stringify parseJson env request input.
Arguments bulkLoop {World} fetch buildUrl stringify parseJson env request reqs results ok failed.
Arguments bulkProceed {World} fetch buildUrl stringify parseJson env request reqs approved.
Arguments httpBulk {World} fetch buildUrl stringify parseJson env request input.

End Execute.

(* ------------------------------------------------------------------ *)
(** ** server/lib/ai-endpoints : cached discovery of the routes *)

Module AiEndpoints.
Import JsString.
Local Open Scope Z_scope.

Record DiscoveredEndpoint := {
  pathTemplate : string;
  methods : list string;
  summary : option string;
  methodDocs : option (list (string * string))
}.

(** The module variable [cached]. *)
Record Cache := {
  at_ : Z;
  endpoints : list DiscoveredEndpoint
}.

(** What lies below a directory of the file system: a file with its text
    ([None] when reading it fails), a directory with its entries in the
    order [readdirSync] lists them, or something that is neither. *)
#[local] Unset Elimination Schemes.
Inductive FsNode :=
| File (text : option string)
| Dir (entries : list (string * FsNode))
| Other.
#[local] Set Elimination Schemes.

(** A [route.ts] the walk found: the directory it lies in, as the names
    from the API root down, and its text. *)
Definition RouteFile : Type := list string * option string.

(** [walk(dir)] for the directory [node], [dir] being the names from the
    API root down to it; the inner loop runs over what [readdirSync]
    lists. *)
Fixpoint walk (dir : list string) (node : FsNode) : list RouteFile :=
  match node with
  | Dir entries =>
      (fix loop (entries : list (string * FsNode)) : list RouteFile :=
         match entries with
         | [] => []
         | (entryName, entry) :: rest =>
             (match entry with
              | Dir _ => walk (dir ++ [entryName])%list entry
              | File text =>
                  if String.eqb entryName "route.ts" then [(dir, text)] else []
              | Other => []
              end ++ loop rest)%list
         end) entries
  | File _ | Other => []
  end.

(** ['/api/' + (rel === '' ? '' : rel.split(path.sep).join('/'))] *)
Definition routePathOf (dir : list string) : string :=
  "/api/" ++ join "/" dir.

(** The module state, with a counter of the scans made so far. *)
Record State := {
  cached : option Cache;
  scans : nat
}.

Section Discovery.

(** The host's file system. *)
Variable FileSystem : Type.

(** What lies at [path.join(projectRoot, 'app', 'api')]; [None] when
    [fs.existsSync] says that nothing does. *)
Variable apiRootOf : FileSystem -> string -> option FsNode.

(** [extractMethods] and [extractDocs], functions of a file's text. *)
Variable extractMethods : string -> list string.
Variable extractDocs : string -> option string * option (list (string * string)).

(** [endpoints.sort((a, b) => a.pathTemplate.localeCompare(b.pathTemplate))] *)
Variable sortByPath : list DiscoveredEndpoint -> list DiscoveredEndpoint.

(** The loop over the files found. *)
Fixpoint collect (files : list RouteFile) : list DiscoveredEndpoint :=
  match files with
  | [] => []
  | (dir, content) :: rest =>
      match content with
      | None => collect rest
      | Some text =>
          let methods := extractMethods text in
          if Nat.eqb (List.length methods) 0 then collect rest
          else
            let docs := extractDocs text in
            {| pathTemplate := routePathOf dir;
               methods := methods;
               summary := fst docs;
               methodDocs := snd docs |} :: collect rest
      end
  end.

(** [discoverAppApiEndpoints] past the freshness test.  The result is
    [None] when [readdirSync] throws because the API root is no
    directory; the cache then stays as it was. *)
Definition rescan (fs : FileSystem) (projectRoot : string) (now : Z)
           (st : State) : State * option (list DiscoveredEndpoint) :=
  match apiRootOf fs projectRoot with
  | None =>
      ({| cached := Some {| at_ := now; endpoints := [] |};
          scans := S (scans st) |}, Some [])
  | Some (Dir entries) =>
      let files := walk [] (Dir entries) in
      let endpoints := sortByPath (collect files) in
      ({| cached := Some {| at_ := now; endpoints := endpoints |};
          scans := S (scans st) |}, Some endpoints)
  | Some _ =>
      ({| cached := cached st; scans := S (scans st) |}, None)
  end.

(** [now] is the reading of [Date.now()]. *)
Definition discoverAppApiEndpoints (fs : FileSystem) (projectRoot : string)
           (now : Z) (st : State) : State * option (list DiscoveredEndpoint) :=
  match cached st with
  | Some c =>
      if now - at_ c <? 30000 then (st, Some (endpoints c))
      else rescan fs projectRoot now st
  | None => rescan fs projectRoot now st
  end.

End Discovery.

End AiEndpoints.

(* ------------------------------------------------------------------ *)
(** ** Notions used to state the properties *)

Module NameShape.
Import JsString.

Definition headUnderscore (s : string) : bool :=
  match s with
  | String d _ => isUnderscore d
  | EmptyString => false
  end.

(** No two underscores in a row. *)
Fixpoint noDouble (s : string) : bool :=
  match s with
  | EmptyString => true
  | String c r => negb (isUnderscore c && headUnderscore r) && noDouble r
  end.

(** Every underscore is followed by a character that is none: no two
    underscores in a row and none at the end. *)
Fixpoint spaced (s : string) : bool :=
  match s with
  | EmptyString => true
  | String c r =>
      (negb (isUnderscore c)
       || match r with
          | EmptyString => false
          | String d _ => negb (isUnderscore d)
          end)
      && spaced r
  end.

End NameShape.

Module SearchNotions.
Import JsString SearchCommon AiMethods.

(** The query names the contact entity, the company entity, the deal
    entity: the conditions the scorers test. *)
Definition namesContact (q : string) : bool :=
  let qt := " " ++ q ++ " " in
  includes qt " contact " || includes qt " contacts ".

Definition namesCompany (q : string) : bool :=
  let qt := " " ++ q ++ " " in
  includes qt " company " || includes qt " companies "
  || includes qt " customer " || includes qt " customers ".

Definition namesDeal (q : string) : bool :=
  let qt := " " ++ q ++ " " in
  includes qt " deal " || includes qt " deals "
  || includes qt " opportunity " || includes qt " opportunities ".

(** The catalog entry of a verb on a path, with a documentation line. *)
Definition entryFor (path verb doc : string) : MethodSpec :=
  {| name := methodNameFor path verb;
     method := verb;
     pathTemplate := path;
     description := verb ++ " " ++ path ++ doc;
     pathParams := [];
     readOnly := String.eqb verb "GET" |}.

Definition postCompanies : MethodSpec :=
  entryFor "/api/crm/companies" "POST"
    " - Create a company with name, email, phone, address, website, industry and notes".

Definition getContacts : MethodSpec :=
  entryFor "/api/crm/contacts" "GET"
    " - List contacts with email, phone, address and notes".

Definition getCompanies : MethodSpec :=
  entryFor "/api/crm/companies" "GET" "".

Definition getTasks : MethodSpec :=
  entryFor "/api/tasks" "GET" "".

Definition longQuery : string :=
  normalize "Please create new company with name, email, phone, address, website, industry, notes".

Definition taskQuery : string :=
  normalize "task email phone address notes".

Definition getCompaniesDocumented : MethodSpec :=
  entryFor "/api/crm/companies" "GET"
    " - List companies with email, phone, address and notes".

Definition getContactsPlain : MethodSpec :=
  entryFor "/api/crm/contacts" "GET" "".

Definition contactQuery : string :=
  normalize "contact email phone address notes".

End SearchNotions.

Module BrokerNotions.
Import JsString Js AiPolicy Execute.
Local Open Scope Z_scope.

Definition isDraft (r : HttpResult) : bool :=
  match body r with
  | DraftBody _ _ => true
  | _ => false
  end.

(** A rejection of the input: status 400 with an error message. *)
Definition isValidationError (r : HttpResult) : bool :=
  (status r =? 400)
  && match body r with
     | ErrorBody _ => true
     | _ => false
     end.

(** The path starts with the public prefix and lies outside the control
    plane. *)
Definition validPath (input : RequestInput) : bool :=
  startsWith (pathOf input) "/api/"
  && negb (startsWith (pathOf input) "/api/ai/").

(** The method field is absent, is no string, or names no verb the
    broker knows. *)
Definition coerced (v : value) : bool :=
  match v with
  | Str s => negb (existsb (String.eqb (toUpperCase s)) VERBS)
  | _ => true
  end.

(** What lets a mutating call through: an approved input, or the
    operator's switches. *)
Definition exempt (env : ProcessEnv) (method : string) (approved : value) : bool :=
  truthy approved
  || (autoApproveWritesEnabled env
      && (negb (String.eqb method "DELETE") || autoApproveDeleteEnabled env)).

(** The rule as the specification words it: approval is required unless
    the input is approved and the switches allow the verb as well. *)
Definition specRequiresApproval (env : ProcessEnv) (method : string)
           (approved : value) : bool :=
  negb (match approved with Bool true => true | _ => false end
        && autoApproveWritesEnabled env
        && (negb (String.eqb method "DELETE") || autoApproveDeleteEnabled env)).

(** A host application for the examples: it answers 404 below
    [/api/missing], cannot be reached below [/api/down], and answers 200
    elsewhere; the world counts the calls it received. *)
Definition hostFetch (w : nat) (call : FetchCall) : nat * option Response :=
  (S w,
   if includes (call_url call) "/api/down" then None
   else if includes (call_url call) "/api/missing"
        then Some {| resp_status := 404; resp_text := "Not found" |}
        else Some {| resp_status := 200; resp_text := "{}" |}).

Definition hostUrl (requestUrl pathRaw : string) (params : list (string * string)) : string :=
  "http://localhost:3000" ++ pathRaw.

Definition hostStringify (v : value) : string := "{}".

Definition hostParse (text : string) : option value :=
  if String.eqb text "{}" then Some (Obj []) else None.

Definition production : ProcessEnv :=
  {| NODE_ENV := Some "production";
     HIT_AI_AUTO_APPROVE_WRITES := None;
     HIT_AI_AUTO_APPROVE_DELETE := None |}.

Definition development : ProcessEnv :=
  {| NODE_ENV := Some "development";
     HIT_AI_AUTO_APPROVE_WRITES := None;
     HIT_AI_AUTO_APPROVE_DELETE := None |}.

Definition overlayRequest : Request :=
  {| req_url := "http://localhost:3000/api/ai/execute";
     req_authorization := Some "Bearer token";
     req_cookie := None |}.

Definition call (method : value) (path : string) (approved : value) : RequestInput :=
  {| in_method := method;
     in_path := Str path;
     in_query := Undefined;
     in_body := Undefined;
     in_approved := approved |}.

End BrokerNotions.

Module BulkNotions.
Import JsString Js AiPolicy Execute BrokerNotions.
Local Open Scope Z_scope.

(** Nothing the broker does with the entry itself throws: its verb and
    its query values have a string form, and it is neither [null] nor
    [undefined]. *)
Definition ready (r : value) : bool :=
  match entryVerb r, entryInput r with
  | Some _, Some input =>
      match searchParamsOf (queryOf input) with
      | Some _ => true
      | None => false
      end
  | _, _ => false
  end.

Definition countOk (results : list Body) : Z :=
  Z.of_nat (List.length (filter isOk results)).

Definition countFailed (results : list Body) : Z :=
  Z.of_nat (List.length (filter (fun b => negb (isOk b)) results)).

Definition isBulkResult (r : HttpResult) : bool :=
  match body r with
  | BulkBody _ _ _ _ => true
  | _ => false
  end.

Section Sequence.

Variable World : Type.
Variable fetch : World -> FetchCall -> World * option Response.
Variable buildUrl : string -> string -> list (string * string) -> string.
Variable stringify : value -> string.
Variable parseJson : string -> option value.

(** The network always answers. *)
Definition responsive : Prop := forall w c, snd (fetch w c) <> None.

(** The entries run one after the other as approved single calls, each
    in the world the calls before it left: the bodies of their results,
    in the order of the entries, up to the first call that throws. *)
Fixpoint entryBodies (env : ProcessEnv) (request : Request) (reqs : list value)
         (w : World) (log : list FetchCall) : list Body :=
  match reqs with
  | [] => []
  | r :: rest =>
      match entryInput r with
      | Some input =>
          match httpRequest fetch buildUrl stringify parseJson env request input w log with
          | (w', log', Some res) => body res :: entryBodies env request rest w' log'
          | (_, _, None) => []
          end
      | None => []
      end
  end.

End Sequence.

Arguments responsive {World} fetch.
Arguments entryBodies {World} fetch buildUrl stringify parseJson env request reqs w log.

Definition entry (method path : string) : value :=
  Obj [ ("method", Str method); ("path", Str path) ].

Definition batch (reqs : list value) (approved : value) : BulkInput :=
  {| in_requests := Arr reqs; bulk_approved := approved |}.

Definition threeCalls : list value :=
  [ entry "GET" "/api/crm/companies";
    entry "GET" "/api/missing/1";
    entry "GET" "/api/crm/contacts" ].

Definition threeCallsOneDown : list value :=
  [ entry "GET" "/api/crm/companies";
    entry "GET" "/api/down/1";
    entry "GET" "/api/crm/contacts" ].

Definition fiftyCalls : list value :=
  repeat (entry "GET" "/api/crm/companies") 50.

(** A host that always answers. *)
Definition steadyFetch (w : nat) (call : FetchCall) : nat * option Response :=
  (S w,
   if includes (call_url call) "/api/missing"
   then Some {| resp_status := 404; resp_text := "Not found" |}
   else Some {| resp_status := 200; resp_text := "{}" |}).

End BulkNotions.

Module DiscoveryNotions.
Import JsString AiEndpoints.
Local Open Scope Z_scope.

(** The cache is empty or older than the freshness window. *)
Definition expired (st : State) (now : Z) : bool :=
  match cached st with
  | Some c => negb (now - at_ c <? 30000)
  | None => true
  end.

Section Scan.

Variable FileSystem : Type.
Variable apiRootOf : FileSystem -> string -> option FsNode.
Variable extractMethods : string -> list string.
Variable extractDocs : string -> option string * option (list (string * string)).
Variable sortByPath : list DiscoveredEndpoint -> list DiscoveredEndpoint.

(** What a full scan of the file system finds, whatever the cache holds;
    [None] when the API root is no directory. *)
Definition scanOf (fs : FileSystem) (projectRoot : string) : option (list DiscoveredEndpoint) :=
  match apiRootOf fs projectRoot with
  | None => Some []
  | Some (Dir entries) =>
      Some (sortByPath (collect extractMethods extractDocs (walk [] (Dir entries))))
  | Some _ => None
  end.

End Scan.

Arguments scanOf {FileSystem} apiRootOf extractMethods extractDocs sortByPath fs projectRoot.

(** A small application for the examples: the file system is the node at
    the API root. *)
Definition appRoot (fs : option FsNode) (projectRoot : string) : option FsNode := fs.

Definition verbsIn (text : string) : list string :=
  filter (fun m => includes text ("export async function " ++ m))
         ["GET"; "POST"; "PUT"; "PATCH"; "DELETE"].

Definition noDocs (text : string) : option string * option (list (string * string)) :=
  (None, None).

Definition keepOrder (eps : list DiscoveredEndpoint) : list DiscoveredEndpoint := eps.

Definition crmApp : option FsNode :=
  Some (Dir [ ("crm",
               Dir [ ("companies",
                      Dir [ ("route.ts",
                             File (Some "export async function GET() {} export async function POST() {}"));
                            ("README.md", File (Some "notes")) ]) ]);
              ("health",
               Dir [ ("route.ts", File (Some "export async function GET() {}")) ]) ]).

Definition crmEndpoints : list DiscoveredEndpoint :=
  [ {| pathTemplate := "/api/crm/companies"; methods := ["GET"; "POST"];
       summary := None; methodDocs := None |};
    {| pathTemplate := "/api/health"; methods := ["GET"];
       summary := None; methodDocs := None |} ].

Definition coldStart : State := {| cached := None; scans := 0 |}.

End DiscoveryNotions.

Module TextShape.
Import JsString.

Fixpoint allChars (ok : ascii -> bool) (s : string) : bool :=
  match s with
  | EmptyString => true
  | String c r => ok c && allChars ok r
  end.

Definition headIs (x : ascii) (s : string) : bool :=
  match s with
  | String d _ => Ascii.eqb d x
  | EmptyString => false
  end.

(** No two [x] in a row. *)
Fixpoint noRepeat (x : ascii) (s : string) : bool :=
  match s with
  | EmptyString => true
  | String c r => negb (Ascii.eqb c x && headIs x r) && noRepeat x r
  end.

(** Every [x] is followed by a character other than [x]: no two in a row
    and none at the end. *)
Fixpoint fenced (x : ascii) (s : string) : bool :=
  match s with
  | EmptyString => true
  | String c r =>
      (negb (Ascii.eqb c x)
       || match r with
          | EmptyString => false
          | String d _ => negb (Ascii.eqb d x)
          end)
      && fenced x r
  end.

(** Only characters of [ok], with single separators [x] strictly inside. *)
Definition tidy (ok : ascii -> bool) (x : ascii) (s : string) : bool :=
  allChars ok s && negb (headIs x s) && fenced x s.

(** The characters of a cleaned path: [a-z0-9_]. *)
Definition isNameChar (c : ascii) : bool := isLowerAlnum c || isUnderscore c.

(** The characters of a normalized text: [a-z0-9] and the space. *)
Definition isWordChar (c : ascii) : bool := isLowerAlnum c || Ascii.eqb c " ".

End TextShape.

(* ------------------------------------------------------------------ *)
(** ** server/lib/ai-methods : path parameters and the method catalog *)

Module Capability.

(** [CapabilityEndpoint], with the fields as the type declares them. *)
Record CapabilityEndpoint := {
  pathTemplate : string;
  methods : list string;
  summary : option string;
  methodDocs : option (list (string * string));
  requiredBodyFields : option (list (string * list string))
}.

Record CapabilitiesFile := {
  generated : option bool;
  kind : option string;
  endpoints : option (list CapabilityEndpoint)
}.

End Capability.

Module AiCatalog.
Import JsString AiMethods.

Record MethodSpec := {
  name : string;
  method : string;
  pathTemplate : string;
  description : string;
  pathParams : list string;
  requiredBodyFields : option (list string);
  readOnly : bool
}.

(** The loop over [re.exec] of [extractPathParams]: the contents of the
    bracketed groups, found as [unbracketFrom] finds them. *)
Fixpoint pathParamsFrom (pending : option string) (s : string) : list string :=
  match s with
  | EmptyString => []
  | String c r =>
      match pending with
      | None =>
          if Ascii.eqb c "[" then pathParamsFrom (Some EmptyString) r
          else pathParamsFrom None r
      | Some buf =>
          if Ascii.eqb c "]" then
            match buf with
            | EmptyString => pathParamsFrom None r
            | _ => buf :: pathParamsFrom None r
            end
          else pathParamsFrom (Some (buf ++ String c EmptyString)) r
      end
  end.

Definition extractPathParams (pathTemplate : string) : list string :=
  pathParamsFrom None pathTemplate.

(** [record?.[key]] for a record of the file, [None] when the record or
    the key is missing. *)
Fixpoint lookupKey {A : Type} (key : string) (record : list (string * A)) : option A :=
  match record with
  | [] => None
  | (k, v) :: rest => if String.eqb k key then Some v else lookupKey key rest
  end.

Definition field {A : Type} (record : option (list (string * A))) (key : string) : option A :=
  match record with
  | Some r => lookupKey key r
  | None => None
  end.

(** [a || b] on optional strings: the first that is present and not
    empty. *)
Definition orElse (a : option string) (b : string) : string :=
  match a with
  | Some s => if String.eqb s "" then b else s
  | None => b
  end.

(** The separator between the route and its documentation, as the source
    file holds it. *)
Definition docSeparator : string := " â€” ".

(** One turn of the inner loop of [buildMethodCatalog]: what it pushes
    for a verb of an endpoint. *)
Definition specFor (ep : Capability.CapabilityEndpoint) (method : string) : list MethodSpec :=
  let m := toUpperCase method in
  if String.eqb m "" then []
  else
    let doc :=
      orElse (field (Capability.methodDocs ep) m)
             (orElse (Capability.summary ep) "") in
    let desc :=
      trim (m ++ " " ++ Capability.pathTemplate ep
              ++ (if String.eqb doc "" then "" else docSeparator ++ doc)) in
    [ {| name := methodNameFor (Capability.pathTemplate ep) m;
         method := m;
         pathTemplate := Capability.pathTemplate ep;
         description := desc;
         pathParams := extractPathParams (Capability.pathTemplate ep);
         requiredBodyFields := field (Capability.requiredBodyFields ep) m;
         readOnly := String.eqb m "GET" |} ].

(** The list [out] before it is sorted. *)
Definition specsOf (endpoints : list Capability.CapabilityEndpoint) : list MethodSpec :=
  flat_map (fun ep => flat_map (specFor ep) (Capability.methods ep)) endpoints.

(** [out.sort((a, b) => (a.name < b.name ? -1 : a.name > b.name ? 1 : 0))]:
    the sort is stable, so that an entry goes in front of the first one
    whose name is not smaller. *)
Fixpoint insertByName (x : MethodSpec) (sorted : list MethodSpec) : list MethodSpec :=
  match sorted with
  | [] => [x]
  | y :: rest =>
      if String.ltb (name y) (name x) then y :: insertByName x rest
      else x :: sorted
  end.

Definition sortByName (out : list MethodSpec) : list MethodSpec :=
  fold_right insertByName [] out.

Definition buildMethodCatalog (caps : Capability.CapabilitiesFile) : list MethodSpec :=
  let endpoints :=
    match Capability.endpoints caps with
    | Some eps => eps
    | None => []
    end in
  sortByName (specsOf endpoints).

(** What an opening bracket still waiting for its closing one holds back:
    the bracket and the characters read since. *)
Definition pendingLength (pending : option string) : nat :=
  match pending with
  | None => 0
  | Some buf => 1 + String.length buf
  end.

(** A character other than the closing bracket. *)
Definition notClosing (c : ascii) : bool := negb (Ascii.eqb c "]").

(** The names go up from one entry to the next. *)
Definition nameLe (a b : MethodSpec) : Prop :=
  String.leb (name a) (name b) = true.

End AiCatalog.

Module CatalogExamples.
Import Capability AiCatalog.

Definition companies : CapabilityEndpoint :=
  {| Capability.pathTemplate := "/api/crm/companies";
     methods := ["GET"; "post"];
     summary := Some "Companies";
     methodDocs := Some [("GET", "List companies")];
     Capability.requiredBodyFields := Some [("POST", ["name"])] |}.

Definition companyById : CapabilityEndpoint :=
  {| Capability.pathTemplate := "/api/crm/companies/[id]";
     methods := ["GET"; "DELETE"; ""];
     summary := None;
     methodDocs := None;
     Capability.requiredBodyFields := None |}.

Definition crmCaps : CapabilitiesFile :=
  {| generated := Some true; kind := None;
     endpoints := Some [companies; companyById] |}.

Definition crmCapsSwapped : CapabilitiesFile :=
  {| generated := Some true; kind := None;
     endpoints := Some [companyById; companies] |}.

Definition deleteCompany : MethodSpec :=
  {| name := "route_api_crm_companies_id__DELETE";
     method := "DELETE";
     pathTemplate := "/api/crm/companies/[id]";
     description := "DELETE /api/crm/companies/[id]";
     pathParams := ["id"];
     requiredBodyFields := None;
     readOnly := false |}.

End CatalogExamples.

(* ------------------------------------------------------------------ *)
(** ** server/api/endpoints-search : scoring of endpoints *)

(** The pipeline [.map(score).filter(score > 0).sort(descending)
    .slice(0, limit)] both search handlers end with, for any kind of
    candidate. *)
Module Ranking.
Local Open Scope Z_scope.

Section Ranked.

Variable A : Type.

Fixpoint insertScored (x : A * Z) (sorted : list (A * Z)) : list (A * Z) :=
  match sorted with
  | [] => [x]
  | y :: rest =>
      if snd y <=? snd x then x :: sorted else y :: insertScored x rest
  end.

Definition sortScored (scored : list (A * Z)) : list (A * Z) :=
  fold_right insertScored [] scored.

Definition rankBy (score : A -> Z) (items : list A) (limit : nat) : list A :=
  map fst
    (firstn limit
       (sortScored
          (filter (fun x => 0 <? snd x)
                  (map (fun a => (a, score a)) items)))).

(** The scores go down from one candidate to the next. *)
Definition scoreGe (score : A -> Z) (a b : A) : Prop := score b <= score a.

(** Scored candidates in descending order. *)
Definition byScore (x y : A * Z) : Prop := snd y <= snd x.

(** The scored candidates the handler sorts. *)
Definition scored (score : A -> Z) (items : list A) : list (A * Z) :=
  filter (fun x => 0 <? snd x) (map (fun a => (a, score a)) items).

End Ranked.

Arguments insertScored {A} x sorted.
Arguments sortScored {A} scored.
Arguments rankBy {A} score items limit.
Arguments scoreGe {A} score a b.
Arguments byScore {A} x y.
Arguments scored {A} score items.

End Ranking.

Module EndpointsSearch.
Import JsString AiEndpoints.
Local Open Scope Z_scope.

(** [Object.values(ep.methodDocs).join(' ')], or [''] without the record. *)
Definition docsText (ep : DiscoveredEndpoint) : string :=
  match methodDocs ep with
  | Some docs => join " " (map snd docs)
  | None => ""
  end.

(** [ep.summary ?? ''] *)
Definition summaryText (ep : DiscoveredEndpoint) : string :=
  match summary ep with
  | Some s => s
  | None => ""
  end.

(** The searchable text of an endpoint. *)
Definition hayOf (ep : DiscoveredEndpoint) : string :=
  SearchCommon.normalize
    (join " " [ pathTemplate ep; join " " (methods ep);
                summaryText ep; docsText ep ]).

(** One turn of the loop over the terms of the query. *)
Definition termStep (hay : string) (score : Z) (term : string) : Z :=
  if String.eqb term "" then score
  else if includes hay term then score + 2
  else score.

Definition scoreEndpoint (q : string) (ep : DiscoveredEndpoint) : Z :=
  let hay := hayOf ep in
  if String.eqb hay "" then 0
  else if includes hay q then 10
  else fold_left (termStep hay) (splitOn " " q) 0.

(** The [candidates] of the handler, [limit] being the limit it took
    from the request. *)
Definition candidates (q : string) (endpoints : list DiscoveredEndpoint)
           (limit : nat) : list DiscoveredEndpoint :=
  Ranking.rankBy (scoreEndpoint q) endpoints limit.

(** The terms of the query found in the text. *)
Definition matched (hay q : string) : list string :=
  filter (fun term => negb (String.eqb term "") && includes hay term)
         (splitOn " " q).

End EndpointsSearch.

(* ------------------------------------------------------------------ *)
(** ** server/api/execute : the route handler, and further notions *)

Module ExecuteRoute.
Import JsString Js AiPolicy Execute.
Local Open Scope Z_scope.

(** The [input] of [http.request], read off the value [body.input ?? {}],
    which is neither [null] nor [undefined]. *)
Definition singleInput (input : value) : RequestInput :=
  {| in_method := optProp input "method";
     in_path := optProp input "path";
     in_query := optProp input "query";
     in_body := optProp input "body";
     in_approved := optProp input "approved" |}.

(** The [input] of [http.bulk]. *)
Definition bulkInput (input : value) : BulkInput :=
  {| in_requests := optProp input "requests";
     bulk_approved := optProp input "approved" |}.

(** [toolName === name] *)
Definition isTool (toolName : value) (name : string) : bool :=
  match toolName with
  | Str s => String.eqb s name
  | _ => false
  end.

Section Route.

Variable World : Type.
Variable fetch : World -> FetchCall -> World * option Response.
Variable buildUrl : string -> string -> list (string * string) -> string.
Variable stringify : value -> string.
Variable parseJson : string -> option value.

(** The user [extractUserFromRequest] found, if any. *)
Variable User : Type.

(** [POST]: [user] is what [extractUserFromRequest(request)] gives and
    [json] what [await request.json()] gives, [None] when it throws. *)
Definition POST (user : option User) (json : option value)
           (env : ProcessEnv) (request : Request) : M World HttpResult :=
  match user with
  | None => ret {| status := 401; body := ErrorBody "Unauthorized" |}
  | Some _ =>
      match json with
      | None => ret {| status := 400; body := ErrorBody "Invalid JSON body" |}
      | Some body =>
          bind (lift (getProp body "toolName")) (fun toolName =>
          bind (lift (getProp body "input")) (fun rawInput =>
          let input := coalesce rawInput (Obj []) in
          if isTool toolName "http.request" then
            httpRequest fetch buildUrl stringify parseJson env request
                        (singleInput input)
          else if isTool toolName "http.bulk" then
            httpBulk fetch buildUrl stringify parseJson env request
                     (bulkInput input)
          else
            bind (lift (toStr toolName)) (fun shown =>
            ret {| status := 404;
                   body := ErrorBody
                             ("Unknown or not executable tool: " ++ shown) |})))
      end
  end.

End Route.

Arguments POST {World} fetch buildUrl stringify parseJson {User} user json env request.

End ExecuteRoute.

Module BatchGate.
Import JsString Js AiPolicy Execute.
Local Open Scope Z_scope.

(** The verb of a batch entry satisfies [f]. *)
Definition verbIs (f : string -> bool) (r : value) : bool :=
  match entryVerb r with
  | Some v => f v
  | None => false
  end.

(** The constants [anyWrite] and [anyDelete] of [httpBulk]. *)
Definition anyWrite (reqs : list value) : bool :=
  existsb (verbIs (fun v => negb (String.eqb v "GET"))) reqs.

Definition anyDelete (reqs : list value) : bool :=
  existsb (verbIs (fun v => String.eqb v "DELETE")) reqs.

(** The verb of every entry has a string form. *)
Definition verbsReadable (reqs : list value) : bool :=
  forallb (fun r => match entryVerb r with Some _ => true | None => false end) reqs.

(** The test that holds a batch back. *)
Definition bulkHeld (env : ProcessEnv) (reqs : list value) (approved : value) : bool :=
  anyWrite reqs && negb (truthy approved)
  && ((anyDelete reqs && negb (autoApproveDeleteEnabled env))
      || negb (autoApproveWritesEnabled env)).

(** The draft a held batch is answered with. *)
Definition bulkDraft (reqs : list value) : HttpResult :=
  {| status := 200;
     body := DraftBody "http.bulk"
               (Obj [ ("requests", Arr reqs); ("approved", Bool false) ]) |}.

(** The body of a call that was forwarded or rejected, not of one that was
    held. *)
Definition settled (b : Body) : bool :=
  match b with
  | ErrorBody _ | ExecBody _ _ _ _ => true
  | DraftBody _ _ | BulkBody _ _ _ _ => false
  end.

(** The same input with another approval flag. *)
Definition withApproved (input : RequestInput) (approved : value) : RequestInput :=
  {| in_method := in_method input;
     in_path := in_path input;
     in_query := in_query input;
     in_body := in_body input;
     in_approved := approved |}.

End BatchGate.

Module BrokerExamples.
Import Js Execute BrokerNotions BulkNotions.
Local Open Scope Z_scope.

Definition threeResults : list Body :=
  [ ExecBody 200 "http://localhost:3000/api/crm/companies" "GET" (Obj []);
    ExecBody 404 "http://localhost:3000/api/missing/1" "GET" (Str "Not found");
    ExecBody 200 "http://localhost:3000/api/crm/contacts" "GET" (Obj []) ].

(** A batch entry that names no method. *)
Definition bareEntry : value := Obj [ ("path", Str "/api/crm/companies") ].

Definition anyone : option unit := Some tt.

Definition nobody : option unit := None.

End BrokerExamples.

(* ------------------------------------------------------------------ *)
(** ** server/lib/ai-endpoints : where the route files lie *)

Module RouteFiles.
Import JsString AiEndpoints.

(** A file with the given text lies at the given names below a node. *)
Inductive FileAt : FsNode -> list string -> option string -> Prop :=
| FileHere entries entryName text :
    In (entryName, File text) entries ->
    FileAt (Dir entries) [entryName] text
| FileBelow entries entryName sub path text :
    In (entryName, Dir sub) entries ->
    FileAt (Dir sub) path text ->
    FileAt (Dir entries) (entryName :: path) text.

(** What [walk] makes of one entry of a directory. *)
Definition walkEntry (dir : list string) (e : string * FsNode) : list RouteFile :=
  match snd e with
  | Dir _ => walk (dir ++ [fst e])%list (snd e)
  | File text => if String.eqb (fst e) "route.ts" then [(dir, text)] else []
  | Other => []
  end.

(** Induction over the nodes of a file system. *)
Fixpoint FsNode_induction (P : FsNode -> Prop)
         (onFile : forall text, P (File text))
         (onOther : P Other)
         (onDir : forall entries,
                    Forall (fun e => P (snd e)) entries -> P (Dir entries))
         (node : FsNode) : P node :=
  match node with
  | File text => onFile text
  | Other => onOther
  | Dir entries =>
      onDir entries
        ((fix all (l : list (string * FsNode)) : Forall (fun e => P (snd e)) l :=
            match l with
            | [] => Forall_nil _
            | e :: rest =>
                Forall_cons e
                  (FsNode_induction P onFile onOther onDir (snd e))
                  (all rest)
            end) entries)
  end.

End RouteFiles.

(* ------------------------------------------------------------------ *)
(** ** server/auth : the caller's identity *)

Module Auth.
Import JsString Js.
Local Open Scope Z_scope.

(** What the extraction reads of the incoming request: the
    [authorization] header, the value of the [hit_token] cookie as
    [request.cookies] gives it, and the [cookie] header. *)
Record AuthRequest := {
  authorization : option string;
  hitTokenCookie : option string;
  cookie : option string
}.

Record UserContext := {
  userId : string;
  email : string;
  roles : list string
}.

(** [s.replace(/from/g, to)] for single characters. *)
Definition swapChar (from to c : ascii) : ascii :=
  if Ascii.eqb c from then to else c.

(** [c.repeat(n)] *)
Fixpoint repeatChar (c : ascii) (n : nat) : string :=
  match n with
  | O => EmptyString
  | S n' => String c (repeatChar c n')
  end.

(** The constant [padded] of [base64UrlDecode]. *)
Definition padBase64 (input : string) : string :=
  let b64 := mapChars (swapChar "_" "/") (mapChars (swapChar "-" "+") input) in
  let pad := (String.length b64 mod 4)%nat in
  if Nat.eqb pad 0 then b64 else b64 ++ repeatChar "=" (4 - pad).

(** [s.slice(n)] *)
Fixpoint drop (n : nat) (s : string) : string :=
  match n, s with
  | O, _ => s
  | S _, EmptyString => EmptyString
  | S n', String _ r => drop n' r
  end.

(** [s.slice(0, idx)] and [s.slice(idx + 1)] for [idx = s.indexOf(c)],
    [None] when [c] does not occur. *)
Fixpoint cutAt (c : ascii) (s : string) : option (string * string) :=
  match s with
  | EmptyString => None
  | String d r =>
      if Ascii.eqb d c then Some (EmptyString, r)
      else match cutAt c r with
           | Some (before, after) => Some (String d before, after)
           | None => None
           end
  end.

(** The loop over the cookies of the header. *)
Fixpoint tokenOfCookies (cookies : list string) : option string :=
  match cookies with
  | [] => None
  | one :: rest =>
      match cutAt "=" one with
      | None => tokenOfCookies rest
      | Some (cookieName, cookieValue) =>
          if String.eqb cookieName "" then tokenOfCookies rest
          else if String.eqb cookieName "hit_token"
                  && negb (String.eqb cookieValue "")
               then Some cookieValue
               else tokenOfCookies rest
      end
  end.

(** A string that is present and not empty. *)
Definition present (s : option string) : option string :=
  match s with
  | Some x => if String.eqb x "" then None else Some x
  | None => None
  end.

(** [getTokenFromRequest] past the test of the authorization header. *)
Definition tokenFromCookies (request : AuthRequest) : option string :=
  match present (hitTokenCookie request) with
  | Some cookieToken => Some cookieToken
  | None =>
      match present (cookie request) with
      | Some cookieHeader =>
          tokenOfCookies (map trim (splitOn ";" cookieHeader))
      | None => None
      end
  end.

Definition getTokenFromRequest (request : AuthRequest) : option string :=
  match authorization request with
  | Some authHeader =>
      if startsWith authHeader "Bearer " then Some (trim (drop 7 authHeader))
      else tokenFromCookies request
  | None => tokenFromCookies request
  end.

(** What [payload?.key] gives.  A payload that is a JSON string inherits
    the method [sub] of strings, which is no JSON value. *)
Inductive claim :=
| Claim (v : value)
| BuiltinSub.

Definition claimOf (payload : value) (key : string) : claim :=
  match payload with
  | Str _ => if String.eqb key "sub" then BuiltinSub else Claim Undefined
  | _ => Claim (optProp payload key)
  end.

(** [Boolean(c)] *)
Definition truthyClaim (c : claim) : bool :=
  match c with
  | Claim v => truthy v
  | BuiltinSub => true
  end.

(** [a || b] *)
Definition orClaim (a b : claim) : claim := if truthyClaim a then a else b.

(** The JSON value of a claim read under a key other than [sub]. *)
Definition valueOfClaim (c : claim) : value :=
  match c with
  | Claim v => v
  | BuiltinSub => Undefined
  end.

(** [a === b] or both [NaN], for values of parsed JSON: two objects or
    arrays of a parsed text are never the same object. *)
Definition sameValueZero (a b : value) : bool :=
  match a, b with
  | Undefined, Undefined => true
  | Null, Null => true
  | Bool x, Bool y => Bool.eqb x y
  | Number x, Number y => x =? y
  | Str x, Str y => String.eqb x y
  | _, _ => false
  end.

(** [items.map(String)]; [None] when a [String(item)] throws. *)
Fixpoint mapToStr (items : list value) : option (list string) :=
  match items with
  | [] => Some []
  | v :: rest =>
      match toStr v, mapToStr rest with
      | Some s, Some ss => Some (s :: ss)
      | _, _ => None
      end
  end.

(** The constant [normalizedRoles]. *)
Definition normalizeRoles (role : value) (roleList : list value) : list value :=
  if truthy role && negb (existsb (sameValueZero role) roleList)
  then role :: roleList
  else match roleList with
       | _ :: _ => roleList
       | [] => if truthy role then [role] else []
       end.

Section Identity.

(** [Buffer.from(padded, 'base64').toString('utf8')] *)
Variable decodeBase64 : string -> string.

(** [JSON.parse]; [None] is its [SyntaxError]. *)
Variable parseJson : string -> option value.

(** [String(String.prototype.sub)] *)
Variable builtinSubText : string.

(** [String(c)] *)
Definition claimText (c : claim) : option string :=
  match c with
  | Claim v => toStr v
  | BuiltinSub => Some builtinSubText
  end.

(** [extractUserFromRequest] once the payload is parsed; [now] is the
    reading of [Date.now()], [None] stands for [null], returned or after a
    caught exception. *)
Definition userOfPayload (now : Z) (payload : value) : option UserContext :=
  let exp := valueOfClaim (claimOf payload "exp") in
  let expired :=
    truthy exp
    && match exp with
       | Number n => n * 1000 <? now
       | _ => false
       end in
  if expired then None
  else
    let role := valueOfClaim (claimOf payload "role") in
    let roleList :=
      match valueOfClaim (claimOf payload "roles") with
      | Arr items => items
      | _ => []
      end in
    let normalizedRoles := normalizeRoles role roleList in
    let userId :=
      orClaim (orClaim (claimOf payload "sub") (claimOf payload "user_id"))
              (claimOf payload "email") in
    let email := orClaim (claimOf payload "email") (claimOf payload "sub") in
    if negb (truthyClaim userId) || negb (truthyClaim email) then None
    else
      match claimText userId, claimText email, mapToStr normalizedRoles with
      | Some u, Some e, Some rs =>
          Some {| userId := u; email := e; roles := rs |}
      | _, _, _ => None
      end.

(** [extractUserFromRequest] from the token on. *)
Definition userOfToken (now : Z) (token : string) : option UserContext :=
  if String.eqb token "" then None
  else
    match splitOn "." token with
    | [_; payloadPart; _] =>
        match parseJson (decodeBase64 (padBase64 payloadPart)) with
        | Some payload => userOfPayload now payload
        | None => None
        end
    | _ => None
    end.

Definition extractUserFromRequest (now : Z) (request : AuthRequest) : option UserContext :=
  match getTokenFromRequest request with
  | Some token => userOfToken now token
  | None => None
  end.

End Identity.

(** A text without the given character. *)
Definition free (c : ascii) (s : string) : bool :=
  TextShape.allChars (fun d => negb (Ascii.eqb d c)) s.

End Auth.

Module AuthExamples.
Import Js Auth.
Local Open Scope Z_scope.

(** A decoder and a parser that know one payload. *)
Definition demoDecode (padded : string) : string := padded.

Definition demoPayload : value :=
  Obj [ ("sub", Str "u1"); ("email", Str "ann@example.com");
        ("role", Str "admin"); ("roles", Arr [Str "sales"]);
        ("exp", Number 3000) ].

Definition demoParse (text : string) : option value :=
  if String.eqb text "eyJzdWIiOiJ1MSJ9" then Some demoPayload else None.

Definition demoSubText : string := "function sub() { [native code] }".

Definition ann : UserContext :=
  {| userId := "u1"; email := "ann@example.com"; roles := ["admin"; "sales"] |}.

Definition bearerRequest : AuthRequest :=
  {| authorization := Some "Bearer aaa.eyJzdWIiOiJ1MSJ9.sig";
     hitTokenCookie := None;
     cookie := None |}.

Definition bearerAndCookieRequest : AuthRequest :=
  {| authorization := Some "Bearer aaa.eyJzdWIiOiJ1MSJ9.sig";
     hitTokenCookie := Some "other";
     cookie := Some "hit_token=other" |}.

End AuthExamples.

(* ------------------------------------------------------------------ *)
(** ** components/AiOverlay : how a draft is approved *)

Module Approval.
Import Js Execute.

(** The fields of an object with [key] set to [v], in place when the
    object has the key. *)
Fixpoint setKey (key : string) (v : value) (fields : list (string * value))
  : list (string * value) :=
  match fields with
  | [] => [(key, v)]
  | (k, x) :: rest =>
      if String.eqb key k then (k, v) :: rest
      else (k, x) :: setKey key v rest
  end.

(** [{ ...pendingApproval.input, approved: true }] *)
Definition approveFields (fields : list (string * value)) : list (string * value) :=
  setKey "approved" (Bool true) fields.

(** The body the overlay posts to run a pending approval:
    [JSON.stringify({ toolName, input })]. *)
Definition resubmission (toolName : string) (fields : list (string * value)) : value :=
  Obj [ ("toolName", Str toolName); ("input", Obj (approveFields fields)) ].

(** The fields of the input a held single call is drafted with. *)
Definition draftFields (input : RequestInput) : list (string * value) :=
  [ ("method", Str (methodOf input));
    ("path", Str (pathOf input));
    ("query", coalesce (in_query input) Null);
    ("body", coalesce (in_body input) Null);
    ("approved", Bool false) ].

End Approval.

(* ------------------------------------------------------------------ *)
(** ** The cookie header a browser sends *)

Module CookieHeader.
Import JsString TextShape Auth.

(** One [name=value] pair. *)
Definition renderCookie (c : string * string) : string :=
  fst c ++ "=" ++ snd c.

(** The pairs of a [Cookie] header, separated by a semicolon and a
    space. *)
Definition cookieHeaderOf (cookies : list (string * string)) : string :=
  join "; " (map renderCookie cookies).

(** A visible ASCII character other than the semicolon. *)
Definition isCookieChar (c : ascii) : bool :=
  inRange 33 126 c && negb (Ascii.eqb c ";").

(** A cookie whose name is not empty and has no [=], and whose name and
    value are made of visible ASCII characters other than the
    semicolon. *)
Definition plainCookie (c : string * string) : bool :=
  negb (String.eqb (fst c) "")
  && allChars isCookieChar (fst c) && free "=" (fst c)
  && allChars isCookieChar (snd c).

(** The value of the first cookie named [hit_token] that has one. *)
Definition hitToken (cookies : list (string * string)) : option string :=
  match find (fun c => String.eqb (fst c) "hit_token"
                       && negb (String.eqb (snd c) "")) cookies with
  | Some c => Some (snd c)
  | None => None
  end.

End CookieHeader.

(* ------------------------------------------------------------------ *)
(** ** server/lib/ai-endpoints : the handlers a route file declares *)

Module RouteText.
Import JsString TextShape.

(** The class [\s] on the code units below 256. *)
Definition isBlank (c : ascii) : bool :=
  isSpace c || Nat.eqb (nat_of_ascii c) 160.

(** The class [\w]. *)
Definition isWord (c : ascii) : bool := isAlnum c || isUnderscore c.

Definition andThen {A B : Type} (o : option A) (f : A -> option B) : option B :=
  match o with
  | Some a => f a
  | None => None
  end.

(** What follows the literal [lit] at the start of [s]. *)
Fixpoint after (lit s : string) : option string :=
  match lit, s with
  | EmptyString, _ => Some s
  | String a lit', String b s' => if Ascii.eqb a b then after lit' s' else None
  | String _ _, EmptyString => None
  end.

(** What follows [\s+] at the start of [s]: the pattern goes on with a
    character that is not white space, so that the run is taken whole. *)
Definition afterBlanks (s : string) : option string :=
  match s with
  | String c r => if isBlank c then Some (dropLeading isBlank r) else None
  | EmptyString => None
  end.

(** [\b] behind a word character. *)
Definition atBoundary (s : string) : bool :=
  match s with
  | EmptyString => true
  | String c _ => negb (isWord c)
  end.

(** What follows [export\s+async\s+function\s+m] at the start of [s]. *)
Definition matchAt (m s : string) : option string :=
  andThen (after "export" s) (fun s =>
  andThen (afterBlanks s) (fun s =>
  andThen (after "async" s) (fun s =>
  andThen (afterBlanks s) (fun s =>
  andThen (after "function" s) (fun s =>
  andThen (afterBlanks s) (fun s =>
  after m s)))))).

(** The pattern of [extractMethods] for the verb [m] at the start of [s]. *)
Definition declaresAt (m s : string) : bool :=
  match matchAt m s with
  | Some rest => atBoundary rest
  | None => false
  end.

(** [re.test(fileText)] : the pattern matches somewhere. *)
Fixpoint declares (m s : string) : bool :=
  declaresAt m s
  || match s with
     | String _ r => declares m r
     | EmptyString => false
     end.

Definition HANDLERS : list string := [ "GET"; "POST"; "PUT"; "PATCH"; "DELETE" ].

Definition extractMethods (fileText : string) : list string :=
  filter (fun m => declares m fileText) HANDLERS.

(** The first character belongs to the class. *)
Definition headIn (cls : ascii -> bool) (s : string) : bool :=
  match s with
  | String c _ => cls c
  | EmptyString => false
  end.

(** A run of white space that is not empty. *)
Definition blanks (g : string) : bool :=
  negb (String.eqb g "") && allChars isBlank g.

(** The text holds, somewhere, an exported asynchronous function of the
    name [m]: the three words and the name, separated by white space, the
    name not going on with a word character. *)
Definition Declared (m text : string) : Prop :=
  exists pre g1 g2 g3 rest,
    text = pre ++ "export" ++ g1 ++ "async" ++ g2 ++ "function" ++ g3 ++ m ++ rest
    /\ blanks g1 = true /\ blanks g2 = true /\ blanks g3 = true
    /\ atBoundary rest = true.

End RouteText.

(* ------------------------------------------------------------------ *)
(** ** What the entity signals of the two scorers add up to *)

Module EntityNotions.
Import JsString SearchCommon SearchNotions.
Local Open Scope Z_scope.

(** The further conditions on the query that the scorers test. *)
Definition namesActivity (q : string) : bool :=
  let qt := " " ++ q ++ " " in
  includes qt " activity " || includes qt " activities "
  || includes qt " call " || includes qt " meeting ".

(** The words of the activity entity that the penalty tests. *)
Definition namesActivityWord (q : string) : bool :=
  let qt := " " ++ q ++ " " in
  includes qt " activity " || includes qt " activities ".

Definition namesTask (q : string) : bool :=
  let qt := " " ++ q ++ " " in
  includes qt " task " || includes qt " tasks ".

Definition namesLocation (q : string) : bool :=
  let qt := " " ++ q ++ " " in
  includes qt " location " || includes qt " locations ".

Definition namesMetric (q : string) : bool :=
  let qt := " " ++ q ++ " " in
  includes qt " metric " || includes qt " metrics "
  || includes qt " catalog ".

Definition namesQuery (q : string) : bool :=
  let qt := " " ++ q ++ " " in
  includes qt " query " || includes qt " aggregate "
  || includes qt " sum " || includes qt " total "
  || includes qt " average ".

Definition namesCompare (q : string) : bool :=
  let qt := " " ++ q ++ " " in
  includes qt " compare " || includes qt " comparison "
  || includes qt " trend " || includes qt " change ".

Definition namesCatalog (q : string) : bool :=
  let qt := " " ++ q ++ " " in
  includes qt " catalog ".

Definition namesPipeline (q : string) : bool :=
  let qt := " " ++ q ++ " " in
  includes qt " pipeline ".

(** The segment occurs in the path of the method. *)
Definition onPath (segment : string) (m : MethodSpec) : bool :=
  includes (toLowerCase (pathTemplate m)) segment.

(** [k] points for an entity that the query names and whose segment the
    path has. *)
Definition boostFor (named present : bool) (k : Z) : Z :=
  if named then if present then k else 0 else 0.

(** [k] points for an entity that the query names and whose segment the
    path lacks. *)
Definition penaltyFor (named present : bool) (k : Z) : Z :=
  if named && negb present then k else 0.

(** The boost of the compiled scorer: 8 for each of its five entities
    that the query names and the path has. *)
Definition compiledBoostOf (q : string) (m : MethodSpec) : Z :=
  boostFor (namesContact q) (onPath "/contacts" m) 8
  + boostFor (namesCompany q) (onPath "/companies" m) 8
  + boostFor (namesActivity q) (onPath "/activities" m) 8
  + boostFor (namesTask q) (onPath "/tasks" m) 8
  + boostFor (namesLocation q) (onPath "/locations" m) 8.

(** The boost of the TypeScript scorer: 12 for contact, company and
    deal, with 6 taken off on a path of the companies, contacts and
    companies entity; 8 for activity, task and location; the boosts of
    the metrics and the catalog; and 6 taken off, not below zero, for a
    catalog query on a definitions path. *)
Definition tsBoostOf (q : string) (m : MethodSpec) : Z :=
  let b :=
    boostFor (namesContact q) (onPath "/contacts" m) 12
    - boostFor (namesContact q) (onPath "/companies" m) 6
    + boostFor (namesCompany q) (onPath "/companies" m) 12
    - boostFor (namesCompany q) (onPath "/contacts" m) 6
    + boostFor (namesDeal q) (onPath "/deals" m) 12
    - boostFor (namesDeal q) (onPath "/companies" m) 6
    + boostFor (namesActivity q) (onPath "/activities" m) 8
    + boostFor (namesTask q) (onPath "/tasks" m) 8
    + boostFor (namesLocation q) (onPath "/locations" m) 8
    + boostFor (namesMetric q) (onPath "/metrics" m) 8
    + boostFor (namesQuery q) (onPath "/metrics/query" m) 10
    + boostFor (namesCompare q) (onPath "/metrics/query" m) 8
    + boostFor (namesCatalog q) (onPath "/catalog" m) 12 in
  if namesCatalog q then
    if onPath "/definitions" m then Z.max 0 (b - 6) else b
  else b.

(** The penalty of the TypeScript scorer: 15 for contact, company and
    deal, 8 for activity, 6 for pipeline and 10 for catalog; task and
    location are not among its entities. *)
Definition tsPenaltyOf (q : string) (m : MethodSpec) : Z :=
  penaltyFor (namesContact q) (onPath "/contacts" m) 15
  + penaltyFor (namesCompany q) (onPath "/companies" m) 15
  + penaltyFor (namesDeal q) (onPath "/deals" m) 15
  + penaltyFor (namesActivityWord q) (onPath "/activities" m) 8
  + penaltyFor (namesPipeline q) (onPath "/pipeline" m) 6
  + penaltyFor (namesCatalog q) (onPath "/catalog" m) 10.

(** The query names none of the entities that the penalty tests. *)
Definition unpenalised (q : string) : bool :=
  negb (namesContact q) && negb (namesCompany q) && negb (namesDeal q)
  && negb (namesActivityWord q) && negb (namesPipeline q)
  && negb (namesCatalog q).

Definition locationQuery : string :=
  normalize "location email phone address notes".

End EntityNotions.

(* ------------------------------------------------------------------ *)
(** ** The URL a forwarded call is sent to *)

Module UrlResolution.
Import JsString.

(** The text before the slash that follows [n] earlier ones, or the
    whole text. *)
Fixpoint beforeSlash (n : nat) (s : string) : string :=
  match s with
  | EmptyString => EmptyString
  | String c r =>
      if Ascii.eqb c "/" then
        match n with
        | O => EmptyString
        | S n' => String c (beforeSlash n' r)
        end
      else String c (beforeSlash n r)
  end.

(** [new URL(url).origin] for an absolute http or https URL written with
    its scheme, two slashes and a host. *)
Definition originOf (url : string) : string := beforeSlash 2 url.

(** The path state of the URL parser over the segments of a path: a
    segment [.] is dropped, a segment [..] takes the last segment kept
    away, and after a dot segment at the end the path ends in a slash. *)
Fixpoint resolveSegments (kept segments : list string) : list string :=
  match segments with
  | [] => kept
  | segment :: rest =>
      if String.eqb segment ".." then
        match rest with
        | [] => (removelast kept ++ [""])%list
        | _ => resolveSegments (removelast kept) rest
        end
      else if String.eqb segment "." then
        match rest with
        | [] => (kept ++ [""])%list
        | _ => resolveSegments kept rest
        end
      else resolveSegments (kept ++ [segment])%list rest
  end.

(** [new URL(pathRaw, origin).pathname] for a path that starts with one
    slash and is made of segments separated by slashes, without
    backslash, [?], [#], [%] or a character that the parser encodes. *)
Definition pathnameOf (pathRaw : string) : string :=
  match pathRaw with
  | String "/" r => "/" ++ join "/" (resolveSegments [] (splitOn "/" r))
  | _ => "/" ++ join "/" (resolveSegments [] (splitOn "/" pathRaw))
  end.

(** [url.toString()] after the loop over the query, for keys and values
    that need no encoding. *)
Definition resolvedUrl (requestUrl pathRaw : string)
           (params : list (string * string)) : string :=
  originOf requestUrl ++ pathnameOf pathRaw
  ++ match params with
     | [] => ""
     | _ => "?" ++ join "&" (map (fun kv => fst kv ++ "=" ++ snd kv) params)
     end.

End UrlResolution.

(* ------------------------------------------------------------------ *)
(** ** server/api/methods-search.ts : the handler and its pack filter *)

Module SearchHandlerTs.
Import JsString SearchCommon.

Section Pack.

(** The optional field [featurePack] of the TypeScript [MethodSpec],
    which the record of the methods leaves out. *)
Variable featurePack : MethodSpec -> option string.

(** [String(m.featurePack || '').toLowerCase() === packRaw.toLowerCase()] *)
Definition inPack (packRaw : string) (m : MethodSpec) : bool :=
  String.eqb
    (toLowerCase match featurePack m with
                 | Some pack => pack
                 | None => ""
                 end)
    (toLowerCase packRaw).

(** [packRaw && packRaw.toLowerCase() !== 'all'] *)
Definition packGiven (packRaw : string) : bool :=
  negb (String.eqb packRaw "")
  && negb (String.eqb (toLowerCase packRaw) "all").

(** The constant [filtered]. *)
Definition filtered (packRaw : string) (methods : list MethodSpec)
  : list MethodSpec :=
  if packGiven packRaw then filter (inPack packRaw) methods else methods.

(** The [candidates] of the TypeScript handler: the compiled handler's
    ranking, by the TypeScript scorer, of the methods the filter
    leaves. *)
Definition packCandidates (packRaw q : string) (methods : list MethodSpec)
           (limit : nat) : list MethodSpec :=
  candidates MethodsSearchTs.score q (filtered packRaw methods) limit.

(** The method passes the filter. *)
Definition passes (packRaw : string) (m : MethodSpec) : bool :=
  negb (packGiven packRaw) || inPack packRaw m.

End Pack.

(** An assignment of packs for the examples. *)
Definition crmPack (m : MethodSpec) : option string :=
  if includes (pathTemplate m) "/crm/" then Some "CRM" else None.

End SearchHandlerTs.

(* ================================================================== *)
(** * Properties *)

(* ------------------------------------------------------------------ *)
(** ** Catalog names *)

Module AiMethodsFacts.
Import JsString AiMethods NameShape.

Lemma append_assoc (a b c : string) : (a ++ b) ++ c = a ++ (b ++ c).
Proof.
  induction a as [|x a IH]; simpl; [reflexivity | now rewrite IH].
Qed.

Lemma replaceRuns_noDouble (s : string) :
  forall b,
    noDouble (replaceRuns isUnderscore "_" b s) = true
    /\ (b = true -> headUnderscore (replaceRuns isUnderscore "_" b s) = false).
Proof.
  induction s as [|c r IH]; intros b; simpl.
  - split; reflexivity.
  - destruct (isUnderscore c) eqn:Hc.
    + destruct b.
      * apply IH.
      * destruct (IH true) as [Hn Hh]. simpl.
        rewrite (Hh eq_refl), Hn. split; [reflexivity | discriminate].
    + simpl. rewrite Hc. simpl. split; [apply IH | reflexivity].
Qed.

Lemma noDouble_tail (c : ascii) (r : string) :
  noDouble (String c r) = true -> noDouble r = true.
Proof.
  simpl. intros H. apply andb_true_iff in H. apply H.
Qed.

Lemma dropLeading_noDouble (s : string) :
  noDouble s = true -> noDouble (dropLeading isUnderscore s) = true.
Proof.
  induction s as [|c r IH]; intros H.
  - reflexivity.
  - simpl. destruct (isUnderscore c).
    + apply IH. exact (noDouble_tail _ _ H).
    + exact H.
Qed.

Lemma dropTrailing_head (p : ascii -> bool) (s : string) (d : ascii) (r' : string) :
  dropTrailing p s = String d r' -> exists r0, s = String d r0.
Proof.
  destruct s as [|c r]; simpl.
  - discriminate.
  - destruct (dropTrailing p r).
    + destruct (p c); [discriminate |].
      intros H. injection H as <- _. now exists r.
    + intros H. injection H as <- _. now exists r.
Qed.

Lemma dropTrailing_spaced (s : string) :
  noDouble s = true -> spaced (dropTrailing isUnderscore s) = true.
Proof.
  induction s as [|c r IH]; intros H.
  - reflexivity.
  - simpl. pose proof (noDouble_tail _ _ H) as Hr.
    specialize (IH Hr).
    destruct (dropTrailing isUnderscore r) as [|d r'] eqn:E.
    + destruct (isUnderscore c) eqn:Hc; simpl; [reflexivity |].
      now rewrite Hc.
    + destruct (dropTrailing_head _ _ _ _ E) as [r0 ->].
      simpl in H. apply andb_true_iff in H. destruct H as [H _].
      change (spaced (String c (String d r')))
        with ((negb (isUnderscore c) || negb (isUnderscore d))
              && spaced (String d r')).
      rewrite IH, andb_true_r.
      destruct (isUnderscore c), (isUnderscore d); simpl in *; congruence.
Qed.

Lemma lowerChar_underscore (c : ascii) :
  isUnderscore (lowerChar c) = isUnderscore c.
Proof.
  destruct c as [[] [] [] [] [] [] [] []]; reflexivity.
Qed.

Lemma toLowerCase_spaced (s : string) :
  spaced (toLowerCase s) = spaced s.
Proof.
  induction s as [|c r IH]; simpl.
  - reflexivity.
  - fold (toLowerCase r). rewrite IH, lowerChar_underscore.
    destruct r as [|d r']; simpl; [reflexivity |].
    now rewrite lowerChar_underscore.
Qed.

Lemma cleaned_spaced (pathTemplate : string) :
  spaced (cleaned pathTemplate) = true.
Proof.
  unfold cleaned, trimUnderscores, collapseUnderscores.
  rewrite toLowerCase_spaced.
  apply dropTrailing_spaced, dropLeading_noDouble.
  apply (replaceRuns_noDouble _ false).
Qed.

Lemma spaced_tail (c : ascii) (r : string) :
  spaced (String c r) = true -> spaced r = true.
Proof.
  simpl. intros H. apply andb_true_iff in H. apply H.
Qed.

(** A cleaned path is found again in front of the first double underscore. *)
Lemma split_unique (c1 : string) :
  forall c2 v1 v2,
    spaced c1 = true -> spaced c2 = true ->
    c1 ++ "__" ++ v1 = c2 ++ "__" ++ v2 ->
    c1 = c2 /\ v1 = v2.
Proof.
  induction c1 as [|x c1 IH]; intros c2 v1 v2 H1 H2 E.
  - destruct c2 as [|y c2].
    + simpl in E. injection E as ->. split; reflexivity.
    + exfalso. simpl in E. injection E as <- E.
      destruct c2 as [|z c2]; simpl in *.
      * discriminate.
      * injection E as <- _. discriminate.
  - destruct c2 as [|y c2].
    + exfalso. simpl in E. injection E as -> E.
      destruct c1 as [|z c1]; simpl in *.
      * discriminate.
      * injection E as -> _. discriminate.
    + simpl in E. injection E as <- E.
      destruct (IH c2 v1 v2 (spaced_tail _ _ H1) (spaced_tail _ _ H2) E)
        as [-> ->].
      split; reflexivity.
Qed.

(** C4 (as amended).  [methodNameFor] is a function of the path template
    and the verb alone: the name is ["route_"], the cleaned path, a double
    underscore and the verb in upper case, so that the names of two verbs
    on one path differ in the verb suffix only; two pairs get the same
    name exactly when their cleaned paths and their upper-case verbs are
    the same. *)
Theorem methodNameFor_same_name_iff :
  forall p1 v1 p2 v2,
    methodNameFor p1 v1 = ("route_" ++ cleaned p1 ++ "__") ++ toUpperCase v1
    /\ (methodNameFor p1 v1 = methodNameFor p2 v2
        <-> cleaned p1 = cleaned p2 /\ toUpperCase v1 = toUpperCase v2).
Proof.
  intros p1 v1 p2 v2. split.
  - unfold methodNameFor. simpl. now rewrite append_assoc.
  - split.
    + unfold methodNameFor. intros E. simpl in E.
      injection E as E.
      apply split_unique in E; auto using cleaned_spaced.
    + intros [Hp Hv]. unfold methodNameFor. now rewrite Hp, Hv.
Qed.

Lemma methodNameFor_same_name_iff_witness :
  methodNameFor "/api/crm/companies" "get"
  = ("route_" ++ cleaned "/api/crm/companies" ++ "__") ++ "GET"
  /\ methodNameFor "/api/a-b" "get" = methodNameFor "/api/a/b" "GET".
Proof.
  destruct (methodNameFor_same_name_iff "/api/crm/companies" "get"
              "/api/crm/companies" "get") as [E _].
  destruct (methodNameFor_same_name_iff "/api/a-b" "get" "/api/a/b" "GET")
    as [_ [_ H]].
  split; [exact E | apply H; split; reflexivity].
Defined.

(** C4 (as stated) fails: a dynamic segment and a literal segment of the
    same name give one name to two different path templates. *)
Lemma methodNameFor_collision :
  ("/api/users/[id]", "GET") <> ("/api/users/id", "GET")
  /\ methodNameFor "/api/users/[id]" "GET" = methodNameFor "/api/users/id" "GET".
Proof.
  split; [discriminate | reflexivity].
Qed.

End AiMethodsFacts.

(* ------------------------------------------------------------------ *)
(** ** Relevance scorer *)

Module MethodsSearchFacts.
Import JsString SearchCommon SearchNotions EntityNotions.
Local Open Scope Z_scope.

Lemma termStep_counted (hay : string) (score : Z) (term : string) :
  termStep hay score term = score + (if counted hay term then 3 else 0).
Proof.
  unfold termStep, counted.
  destruct (String.eqb term ""); cbn [negb andb]; [lia |].
  destruct (Nat.ltb (String.length term) 3); cbn [negb andb]; [lia |].
  destruct (has STOPWORDS term); cbn [negb andb]; [lia |].
  destruct (includes hay term); lia.
Qed.

Lemma fold_termStep (hay : string) (terms : list string) :
  forall score,
    fold_left (termStep hay) terms score
    = score + 3 * Z.of_nat (List.length (filter (counted hay) terms)).
Proof.
  induction terms as [|t terms IH]; intros score; cbn [fold_left filter].
  - cbn [List.length]. lia.
  - rewrite IH, termStep_counted.
    destruct (counted hay t); cbn [List.length]; lia.
Qed.

Lemma termPoints_counted (hay q : string) :
  termPoints hay q 0 = 3 * countedTerms hay q.
Proof.
  unfold termPoints, countedTerms. now rewrite fold_termStep.
Qed.

Lemma countedTerms_nonneg (hay q : string) : 0 <= countedTerms hay q.
Proof.
  unfold countedTerms. lia.
Qed.

Ltac split_ifs :=
  repeat match goal with
         | |- context [if ?b then _ else _] => destruct b
         end.

(** The intent bonuses add at most 10 to a score that is not negative. *)
Lemma intentAdjust_bounds (q : string) (m : MethodSpec) (score : Z) :
  0 <= score -> 0 <= intentAdjust q m score <= score + 10.
Proof.
  intros Hs. unfold intentAdjust. cbv zeta.
  set (mm := toUpperCase (method m)).
  destruct (String.eqb_spec mm "DELETE") as [-> | _];
    [simpl String.eqb; rewrite ?andb_false_r; simpl; split_ifs; lia |].
  destruct (String.eqb_spec mm "PUT") as [-> | _];
    [simpl String.eqb; rewrite ?andb_false_r; simpl; split_ifs; lia |].
  destruct (String.eqb_spec mm "PATCH") as [-> | _];
    [simpl String.eqb; rewrite ?andb_false_r; simpl; split_ifs; lia |].
  destruct (String.eqb_spec mm "POST") as [-> | _];
    [simpl String.eqb; rewrite ?andb_false_r; simpl; split_ifs; lia |].
  rewrite ?andb_false_r. simpl. split_ifs; lia.
Qed.

Lemma entityBoost_bounds (q : string) (m : MethodSpec) :
  0 <= MethodsSearch.entityBoost q m <= 40.
Proof.
  unfold MethodsSearch.entityBoost. cbv zeta. split_ifs; lia.
Qed.

Lemma exactMatch_hay (q : string) (m : MethodSpec) :
  exactMatch q m = true -> String.eqb (hayOf m) "" = false.
Proof.
  unfold exactMatch. intros H. apply andb_true_iff in H. destruct H as [Hq Hi].
  destruct (hayOf m); [| reflexivity].
  destruct q; simpl in *; discriminate.
Qed.

(** C3 (as amended).  A non-empty query that occurs in a method's
    searchable text scores the fixed 30 and nothing else.  A query that
    does not occur in it scores at most 3 for each counted term, plus the
    entity boosts, plus 10 of intent bonus; so the 30 of the exact match
    is the greater score whenever three times the counted terms plus the
    entity boosts stay below 20. *)
Theorem exact_match_score :
  forall q q' m,
    exactMatch q m = true ->
    MethodsSearch.score q m = 30
    /\ (exactMatch q' m = false ->
        MethodsSearch.score q' m
        <= 3 * countedTerms (hayOf m) q' + MethodsSearch.entityBoost q' m + 10
        /\ (3 * countedTerms (hayOf m) q' + MethodsSearch.entityBoost q' m < 20 ->
            MethodsSearch.score q' m < MethodsSearch.score q m)).
Proof.
  intros q q' m Hq.
  pose proof (exactMatch_hay _ _ Hq) as Hhay.
  assert (E : MethodsSearch.score q m = 30).
  { unfold MethodsSearch.score. cbv zeta. rewrite Hhay.
    unfold exactMatch in Hq. now rewrite Hq. }
  split; [exact E |].
  intros Hq'.
  assert (B : MethodsSearch.score q' m
              <= 3 * countedTerms (hayOf m) q' + MethodsSearch.entityBoost q' m + 10).
  { unfold MethodsSearch.score. cbv zeta. rewrite Hhay.
    unfold exactMatch in Hq'. rewrite Hq'.
    unfold MethodsSearch.partialScore. cbv zeta.
    rewrite termPoints_counted.
    pose proof (countedTerms_nonneg (hayOf m) q').
    pose proof (entityBoost_bounds q' m).
    apply intentAdjust_bounds. lia. }
  split; [exact B | lia].
Qed.

Lemma exact_match_score_witness :
  MethodsSearch.score "create a company" postCompanies = 30
  /\ MethodsSearch.score "update company" postCompanies
     < MethodsSearch.score "create a company" postCompanies.
Proof.
  destruct (exact_match_score "create a company" "update company" postCompanies)
    as [E H]; [vm_compute; reflexivity |].
  split; [exact E |].
  destruct H as [_ H]; [vm_compute; reflexivity |].
  apply H. vm_compute. reflexivity.
Defined.

(** C3 (as stated) fails: a query that is no substring of the searchable
    text but shares many terms with it scores more than the 30 of an
    exact match on the same method. *)
Lemma exact_match_not_dominant :
  exactMatch "create a company" postCompanies = true
  /\ MethodsSearch.score "create a company" postCompanies = 30
  /\ exactMatch longQuery postCompanies = false
  /\ MethodsSearch.score longQuery postCompanies = 43
  /\ MethodsSearchTs.score longQuery postCompanies = 47.
Proof.
  vm_compute. repeat split; reflexivity.
Qed.

Lemma mismatchPenalty_nonneg (q : string) (m : MethodSpec) :
  0 <= MethodsSearchTs.mismatchPenalty q m.
Proof.
  unfold MethodsSearchTs.mismatchPenalty. cbv zeta. split_ifs; lia.
Qed.

Lemma compiledBoost_sum (q : string) (m : MethodSpec) :
  MethodsSearch.entityBoost q m = compiledBoostOf q m.
Proof.
  unfold MethodsSearch.entityBoost, compiledBoostOf, boostFor, onPath,
    namesContact, namesCompany, namesActivity, namesTask, namesLocation.
  cbv zeta. split_ifs; lia.
Qed.

Lemma tsPenalty_sum (q : string) (m : MethodSpec) :
  MethodsSearchTs.mismatchPenalty q m = tsPenaltyOf q m.
Proof.
  unfold MethodsSearchTs.mismatchPenalty, tsPenaltyOf, penaltyFor, onPath,
    namesContact, namesCompany, namesDeal, namesActivityWord, namesPipeline,
    namesCatalog.
  cbv zeta. split_ifs; lia.
Qed.

(** Gives the value of the first binding of a chain a name and keeps its
    equation. *)
Ltac name_binding H :=
  match goal with
  | |- (let x := ?v in @?body x) = ?rhs =>
      let y := fresh "b" in
      pose (y := v); assert (H : y = v) by reflexivity;
      change (body y = rhs); cbv beta; clearbody y
  end.

Ltac entity_block H :=
  rewrite H;
  unfold boostFor, onPath, namesContact, namesCompany, namesDeal,
    namesActivity, namesTask, namesLocation, namesMetric, namesQuery,
    namesCompare, namesCatalog;
  cbv zeta; split_ifs; lia.

Lemma tsBoost_sum (q : string) (m : MethodSpec) :
  MethodsSearchTs.entityBoost q m = tsBoostOf q m.
Proof.
  cbv beta delta [MethodsSearchTs.entityBoost].
  name_binding Hqt. name_binding Hp. subst.
  name_binding H0. name_binding H1. name_binding H2. name_binding H3.
  name_binding H4. name_binding H5. name_binding H6. name_binding H7.
  name_binding H8. name_binding H9. name_binding H10.
  assert (E1 : b1 = boostFor (namesContact q) (onPath "/contacts" m) 12
                    - boostFor (namesContact q) (onPath "/companies" m) 6)
    by (rewrite H0 in H1; entity_block H1).
  assert (E2 : b2 = b1 + boostFor (namesCompany q) (onPath "/companies" m) 12
                    - boostFor (namesCompany q) (onPath "/contacts" m) 6)
    by entity_block H2.
  assert (E3 : b3 = b2 + boostFor (namesDeal q) (onPath "/deals" m) 12
                    - boostFor (namesDeal q) (onPath "/companies" m) 6)
    by entity_block H3.
  assert (E4 : b4 = b3 + boostFor (namesActivity q) (onPath "/activities" m) 8)
    by entity_block H4.
  assert (E5 : b5 = b4 + boostFor (namesTask q) (onPath "/tasks" m) 8)
    by entity_block H5.
  assert (E6 : b6 = b5 + boostFor (namesLocation q) (onPath "/locations" m) 8)
    by entity_block H6.
  assert (E7 : b7 = b6 + boostFor (namesMetric q) (onPath "/metrics" m) 8)
    by entity_block H7.
  assert (E8 : b8 = b7 + boostFor (namesQuery q) (onPath "/metrics/query" m) 10)
    by entity_block H8.
  assert (E9 : b9 = b8 + boostFor (namesCompare q) (onPath "/metrics/query" m) 8)
    by entity_block H9.
  assert (E10 : b10
                = let b := b9 + boostFor (namesCatalog q) (onPath "/catalog" m) 12 in
                  if namesCatalog q then
                    if onPath "/definitions" m then Z.max 0 (b - 6) else b
                  else b).
  { rewrite H10.
    unfold boostFor, onPath, namesCatalog. cbv zeta. split_ifs; lia. }
  rewrite E10. unfold tsBoostOf. cbv zeta.
  rewrite E9, E8, E7, E6, E5, E4, E3, E2, E1.
  reflexivity.
Qed.

(** C5 (as amended).  The compiled scorer knows entity boosts only: its
    [entityBoost] is 8 for each of contact, company, activity, task and
    location that the query names and the path of the method has; it is
    never negative, and the points before the intent bonuses are three
    per counted term plus that boost, whatever entity the method belongs
    to.  The TypeScript scorer boosts contact, company and deal by 12 and
    activity, task and location by 8, and takes a mismatch penalty off:
    15 for each of contact, company and deal that the query names and
    the path lacks, 8 for activity, 6 for pipeline and 10 for catalog.
    The penalty is never negative; task and location are boosted but not
    among the entities of the penalty, so that a query that names none of
    those six is not penalised on any path. *)
Theorem entity_signals :
  forall q m,
    0 <= MethodsSearch.entityBoost q m
    /\ MethodsSearch.entityBoost q m = compiledBoostOf q m
    /\ MethodsSearch.partialScore q m
       = intentAdjust q m
           (3 * countedTerms (hayOf m) q + MethodsSearch.entityBoost q m)
    /\ MethodsSearchTs.partialScore q m
       = intentAdjust q m
           (3 * countedTerms (hayOf m) q + MethodsSearchTs.entityBoost q m
            - MethodsSearchTs.mismatchPenalty q m)
    /\ (namesContact q = true ->
        includes (toLowerCase (pathTemplate m)) "/contacts" = true ->
        8 <= MethodsSearch.entityBoost q m)
    /\ MethodsSearchTs.entityBoost q m = tsBoostOf q m
    /\ MethodsSearchTs.mismatchPenalty q m = tsPenaltyOf q m
    /\ 0 <= MethodsSearchTs.mismatchPenalty q m
    /\ (namesContact q = true ->
        includes (toLowerCase (pathTemplate m)) "/contacts" = false ->
        15 <= MethodsSearchTs.mismatchPenalty q m)
    /\ (namesCompany q = true ->
        includes (toLowerCase (pathTemplate m)) "/companies" = false ->
        15 <= MethodsSearchTs.mismatchPenalty q m)
    /\ (namesDeal q = true ->
        includes (toLowerCase (pathTemplate m)) "/deals" = false ->
        15 <= MethodsSearchTs.mismatchPenalty q m)
    /\ (unpenalised q = true -> MethodsSearchTs.mismatchPenalty q m = 0).
Proof.
  intros q m.
  split; [apply entityBoost_bounds |].
  split; [apply compiledBoost_sum |].
  split; [unfold MethodsSearch.partialScore; cbv zeta;
          now rewrite termPoints_counted |].
  split; [unfold MethodsSearchTs.partialScore; cbv zeta;
          now rewrite termPoints_counted |].
  split.
  { unfold namesContact. cbv zeta. intros Hq Hp.
    unfold MethodsSearch.entityBoost. cbv zeta. rewrite Hq, Hp.
    split_ifs; lia. }
  split; [apply tsBoost_sum |].
  split; [apply tsPenalty_sum |].
  split; [apply mismatchPenalty_nonneg |].
  split; [| split; [| split]].
  - unfold namesContact. cbv zeta. intros Hq Hp.
    unfold MethodsSearchTs.mismatchPenalty; cbv zeta;
      rewrite Hq, Hp; cbn [andb negb]; split_ifs; lia.
  - unfold namesCompany. cbv zeta. intros Hq Hp.
    unfold MethodsSearchTs.mismatchPenalty; cbv zeta;
      rewrite Hq, Hp; cbn [andb negb]; split_ifs; lia.
  - unfold namesDeal. cbv zeta. intros Hq Hp.
    unfold MethodsSearchTs.mismatchPenalty; cbv zeta;
      rewrite Hq, Hp; cbn [andb negb]; split_ifs; lia.
  - unfold unpenalised. intros H.
    repeat (apply andb_true_iff in H; destruct H as [H ?]).
    repeat match goal with
           | E : negb _ = true |- _ => apply negb_true_iff in E
           end.
    rewrite tsPenalty_sum. unfold tsPenaltyOf, penaltyFor.
    repeat match goal with
           | E : _ = false |- _ => rewrite E; clear E
           end.
    reflexivity.
Qed.

Lemma entity_signals_witness :
  15 <= MethodsSearchTs.mismatchPenalty contactQuery getCompaniesDocumented
  /\ 0 <= MethodsSearch.entityBoost contactQuery getCompaniesDocumented
  /\ MethodsSearchTs.mismatchPenalty locationQuery getContacts = 0.
Proof.
  destruct (entity_signals contactQuery getCompaniesDocumented)
    as (Hb & _ & _ & _ & _ & _ & _ & _ & Hc & _).
  destruct (entity_signals locationQuery getContacts)
    as (_ & _ & _ & _ & _ & _ & _ & _ & _ & _ & _ & Hu).
  split; [apply Hc; vm_compute; reflexivity |].
  split; [exact Hb |].
  apply Hu. vm_compute. reflexivity.
Defined.

(** C5 (as stated) fails.  In the compiled scorer a query that names the
    contact entity takes nothing off a method on the companies path, which
    then outscores a contacts method on shared generic terms; in the
    TypeScript scorer the same happens to a query that names the task
    entity, for which no penalty exists. *)
Lemma wrong_entity_not_suppressed :
  namesContact contactQuery = true
  /\ MethodsSearch.entityBoost contactQuery getCompaniesDocumented = 0
  /\ MethodsSearch.score contactQuery getCompaniesDocumented = 12
  /\ MethodsSearch.score contactQuery getContactsPlain = 11
  /\ MethodsSearchTs.mismatchPenalty taskQuery getContacts = 0
  /\ MethodsSearchTs.entityBoost taskQuery getContacts = 0
  /\ MethodsSearchTs.score taskQuery getContacts = 12
  /\ MethodsSearchTs.score taskQuery getTasks = 11
  /\ candidates MethodsSearch.score contactQuery
       [getContactsPlain; getCompaniesDocumented] 12
     = [getCompaniesDocumented; getContactsPlain]
  /\ candidates MethodsSearchTs.score taskQuery [getTasks; getContacts] 12
     = [getContacts; getTasks].
Proof.
  vm_compute. repeat split; reflexivity.
Qed.

End MethodsSearchFacts.

(* ------------------------------------------------------------------ *)
(** ** The action broker: single calls *)

Module ExecuteFacts.
Import JsString Js AiPolicy Execute BrokerNotions.
Local Open Scope Z_scope.

Section SingleCall.

Variable World : Type.
Variable fetch : World -> FetchCall -> World * option Response.
Variable buildUrl : string -> string -> list (string * string) -> string.
Variable stringify : value -> string.
Variable parseJson : string -> option value.

Local Abbreviation httpRequest := (httpRequest fetch buildUrl stringify parseJson).
Local Abbreviation forward := (forward fetch buildUrl stringify parseJson).

Lemma methodOf_verb (input : RequestInput) :
  In (methodOf input) VERBS.
Proof.
  unfold methodOf.
  destruct (existsb _ VERBS) eqn:E.
  - apply existsb_exists in E. destruct E as (v & Hin & Hv).
    apply String.eqb_eq in Hv. now rewrite Hv.
  - simpl. auto.
Qed.

(** A forwarded call makes at most one network call and never ends in a
    draft or a rejection. *)
Lemma forward_outcome request method pathRaw input w log :
  forall r, outcomeOf (forward request method pathRaw input w log) = Some r ->
    isDraft r = false /\ isValidationError r = false.
Proof.
  intros r. unfold Execute.forward, bind, lift, doFetch, outcomeOf.
  destruct (searchParamsOf (queryOf input)); simpl.
  - destruct (fetch w _) as [w' [resp|]]; simpl.
    + intros H. injection H as <-. split; reflexivity.
    + discriminate.
  - discriminate.
Qed.

Lemma validPath_tests (input : RequestInput) :
  validPath input = true ->
  startsWith (pathOf input) "/api/" = true
  /\ startsWith (pathOf input) "/api/ai/" = false.
Proof.
  unfold validPath. intros H. apply andb_true_iff in H. destruct H as [H1 H2].
  split; [exact H1 | now apply negb_true_iff in H2].
Qed.

(** C1 (as amended).  A call with a mutating verb and a valid path is
    held, that is answered by the draft of the normalized input with
    [approved: false] and without touching the network or the host, unless
    the input is approved or the auto-approve-writes switch is on and the
    verb is not DELETE or auto-approve-delete is on as well; then the
    call is forwarded, which never ends in a draft. *)
Theorem mutating_call_gate :
  forall env request input w log,
    validPath input = true ->
    String.eqb (methodOf input) "GET" = false ->
    httpRequest env request input w log
    = (if exempt env (methodOf input) (in_approved input)
       then forward request (methodOf input) (pathOf input) input w log
       else (w, log, Some (requestDraft (methodOf input) (pathOf input) input)))
    /\ (exempt env (methodOf input) (in_approved input) = true ->
        forall r, outcomeOf (httpRequest env request input w log) = Some r ->
                  isDraft r = false).
Proof.
  intros env request input w log Hp Hm.
  destruct (validPath_tests _ Hp) as [H1 H2].
  assert (E : httpRequest env request input w log
              = if exempt env (methodOf input) (in_approved input)
                then forward request (methodOf input) (pathOf input) input w log
                else (w, log, Some (requestDraft (methodOf input) (pathOf input) input))).
  { unfold Execute.httpRequest. cbv zeta. rewrite H1, H2, Hm. cbn [negb andb].
    unfold exempt.
    destruct (truthy (in_approved input)); cbn [negb andb orb]; [reflexivity |].
    destruct (autoApproveWritesEnabled env); cbn [negb andb orb].
    - destruct (String.eqb (methodOf input) "DELETE"); cbn [negb andb orb].
      + destruct (autoApproveDeleteEnabled env); reflexivity.
      + reflexivity.
    - rewrite orb_true_r. reflexivity. }
  split; [exact E |].
  intros Hx r. rewrite E, Hx. intros H.
  now apply forward_outcome in H.
Qed.

(** C6.  A DELETE on a valid path that is not approved is answered by a
    draft, without any network call, when auto-approve-writes is on and
    auto-approve-delete is off. *)
Theorem delete_needs_approval :
  forall env request input w log,
    methodOf input = "DELETE" ->
    validPath input = true ->
    truthy (in_approved input) = false ->
    autoApproveWritesEnabled env = true ->
    autoApproveDeleteEnabled env = false ->
    httpRequest env request input w log
    = (w, log, Some (requestDraft "DELETE" (pathOf input) input))
    /\ isDraft (requestDraft "DELETE" (pathOf input) input) = true.
Proof.
  intros env request input w log Hm Hp Ha Hw Hd.
  destruct (validPath_tests _ Hp) as [H1 H2].
  split; [| reflexivity].
  unfold Execute.httpRequest. cbv zeta.
  rewrite H1, H2, Hm, Ha, Hw, Hd. reflexivity.
Qed.

(** The two tests on the text of the path: a path whose text does not
    start with ['/api/'], or starts with ['/api/ai/'], is rejected with
    status 400 and an error message, whatever the method, the approval and
    the switches; the host and the log of network calls stay as they
    were. *)
Theorem invalid_path_rejected :
  forall env request input w log,
    validPath input = false ->
    exists msg,
      httpRequest env request input w log
      = (w, log, Some {| status := 400; body := ErrorBody msg |}).
Proof.
  intros env request input w log Hp.
  unfold validPath in Hp. unfold Execute.httpRequest. cbv zeta.
  destruct (startsWith (pathOf input) "/api/"); cbn [negb andb] in *.
  - apply negb_false_iff in Hp. rewrite Hp. eexists. reflexivity.
  - eexists. reflexivity.
Qed.

Lemma coerced_methodOf (input : RequestInput) :
  coerced (in_method input) = true -> methodOf input = "GET".
Proof.
  unfold coerced, methodOf, ifString.
  destruct (in_method input); try reflexivity.
  intros H. apply negb_true_iff in H. now rewrite H.
Qed.

(** C10 (as amended).  When the method field is absent, is no string, or
    is in upper case none of GET, POST, PUT, PATCH and DELETE, the broker
    takes the call for a GET: it answers as it does with the field set to
    ['GET'] and never by a draft.  The tests of the path come first: a
    call whose path fails them is rejected with status 400 and not run;
    a call whose path passes them and whose query values have a string
    form is forwarded at once with method GET and without a body, and the
    result, returned when the host answers, reports method ['GET']. *)
Theorem unknown_method_is_get :
  forall env request input w log,
    coerced (in_method input) = true ->
    methodOf input = "GET"
    /\ httpRequest env request input w log
       = httpRequest env request
           {| in_method := Str "GET"; in_path := in_path input;
              in_query := in_query input; in_body := in_body input;
              in_approved := in_approved input |} w log
    /\ (forall r, outcomeOf (httpRequest env request input w log) = Some r ->
                  isDraft r = false)
    /\ (validPath input = true ->
        forall params, searchParamsOf (queryOf input) = Some params ->
          let url := buildUrl (req_url request) (pathOf input) params in
          let sent :=
            {| call_url := url;
               call_init := {| init_method := "GET";
                               init_headers := headersOf request;
                               init_body := None |} |} in
          httpRequest env request input w log
          = (fst (fetch w sent), (log ++ [sent])%list,
             option_map
               (fun resp =>
                  {| status := 200;
                     body := ExecBody (resp_status resp) url "GET"
                                      (parsedOf parseJson resp) |})
               (snd (fetch w sent))))
    /\ (validPath input = false ->
        exists msg,
          httpRequest env request input w log
          = (w, log, Some {| status := 400; body := ErrorBody msg |})).
Proof.
  intros env request input w log Hc.
  pose proof (coerced_methodOf _ Hc) as Hm.
  assert (Hg : forall w log,
             httpRequest env request input w log
             = if negb (startsWith (pathOf input) "/api/")
               then (w, log, Some {| status := 400;
                                     body := ErrorBody "path must start with '/api/'" |})
               else if startsWith (pathOf input) "/api/ai/"
               then (w, log, Some {| status := 400;
                                     body := ErrorBody "Refusing to call /api/ai/* endpoints" |})
               else forward request "GET" (pathOf input) input w log).
  { intros w0 log0. unfold Execute.httpRequest. cbv zeta. rewrite Hm.
    cbn [String.eqb Ascii.eqb Bool.eqb negb andb].
    destruct (negb (startsWith (pathOf input) "/api/")); [reflexivity |].
    destruct (startsWith (pathOf input) "/api/ai/"); reflexivity. }
  split; [exact Hm |].
  split.
  { rewrite Hg. unfold Execute.httpRequest. cbv zeta.
    unfold methodOf, pathOf. cbn [in_method in_path in_approved ifString].
    change (toUpperCase "GET") with "GET".
    cbn [existsb VERBS String.eqb Ascii.eqb Bool.eqb negb andb orb].
    fold (pathOf input).
    destruct (negb (startsWith (pathOf input) "/api/")); [reflexivity |].
    destruct (startsWith (pathOf input) "/api/ai/"); reflexivity. }
  split.
  { intros r. rewrite Hg.
    destruct (negb (startsWith (pathOf input) "/api/")).
    - intros H. injection H as <-. reflexivity.
    - destruct (startsWith (pathOf input) "/api/ai/").
      + intros H. injection H as <-. reflexivity.
      + intros H. now apply forward_outcome in H. }
  split.
  { intros Hp params Hq url sent.
    destruct (validPath_tests _ Hp) as [H1 H2].
    rewrite Hg, H1, H2. cbn [negb].
    unfold Execute.forward, bind, lift, doFetch. rewrite Hq.
    unfold ret. fold url.
    change (initOf stringify request "GET" input) with (call_init sent).
    change {| call_url := url; call_init := call_init sent |} with sent.
    destruct (fetch w sent) as [w' [resp|]]; reflexivity. }
  intros Hp. rewrite Hg. unfold validPath in Hp.
  destruct (startsWith (pathOf input) "/api/"); cbn [negb andb] in *.
  - apply negb_false_iff in Hp. rewrite Hp. eexists. reflexivity.
  - eexists. reflexivity.
Qed.

End SingleCall.

Lemma mutating_call_gate_witness :
  Execute.httpRequest hostFetch hostUrl hostStringify hostParse production
    overlayRequest (call (Str "post") "/api/crm/companies" (Bool false)) 0%nat []
  = (0%nat, [],
     Some (requestDraft "POST" "/api/crm/companies"
             (call (Str "post") "/api/crm/companies" (Bool false))))
  /\ isDraft
       (requestDraft "POST" "/api/crm/companies"
          (call (Str "post") "/api/crm/companies" (Bool false))) = true.
Proof.
  destruct (mutating_call_gate nat hostFetch hostUrl hostStringify hostParse
              production overlayRequest
              (call (Str "post") "/api/crm/companies" (Bool false)) 0%nat [])
    as [E _]; [reflexivity | reflexivity |].
  split; [rewrite E; reflexivity | reflexivity].
Defined.

(** C1 (as stated) fails: where the specification's rule asks for
    approval, an approved POST is forwarded although auto-approve-writes
    is off, and a POST that is not approved is forwarded when
    auto-approve-writes is on. *)
Lemma approval_alone_suffices :
  specRequiresApproval production "POST" (Bool true) = true
  /\ Execute.httpRequest hostFetch hostUrl hostStringify hostParse production
       overlayRequest (call (Str "POST") "/api/crm/companies" (Bool true)) 0%nat []
     = (1%nat,
        [ {| call_url := "http://localhost:3000/api/crm/companies";
             call_init := {| init_method := "POST";
                             init_headers := [ ("authorization", "Bearer token");
                                               ("content-type", "application/json") ];
                             init_body := Some "{}" |} |} ],
        Some {| status := 200;
                body := ExecBody 200 "http://localhost:3000/api/crm/companies"
                                 "POST" (Obj []) |})
  /\ specRequiresApproval development "POST" (Bool false) = true
  /\ outcomeOf
       (Execute.httpRequest hostFetch hostUrl hostStringify hostParse development
          overlayRequest (call (Str "POST") "/api/crm/companies" (Bool false)) 0%nat [])
     = Some {| status := 200;
               body := ExecBody 200 "http://localhost:3000/api/crm/companies"
                                "POST" (Obj []) |}.
Proof.
  repeat split; reflexivity.
Qed.

Lemma delete_needs_approval_witness :
  Execute.httpRequest hostFetch hostUrl hostStringify hostParse
    {| NODE_ENV := Some "production";
       HIT_AI_AUTO_APPROVE_WRITES := Some "1";
       HIT_AI_AUTO_APPROVE_DELETE := None |}
    overlayRequest (call (Str "delete") "/api/crm/companies/7" (Bool false)) 0%nat []
  = (0%nat, [],
     Some (requestDraft "DELETE" "/api/crm/companies/7"
             (call (Str "delete") "/api/crm/companies/7" (Bool false)))).
Proof.
  apply (delete_needs_approval nat hostFetch hostUrl hostStringify hostParse
           {| NODE_ENV := Some "production";
              HIT_AI_AUTO_APPROVE_WRITES := Some "1";
              HIT_AI_AUTO_APPROVE_DELETE := None |}
           overlayRequest (call (Str "delete") "/api/crm/companies/7" (Bool false)));
    reflexivity.
Defined.

Lemma invalid_path_rejected_witness :
  (exists msg,
     Execute.httpRequest hostFetch hostUrl hostStringify hostParse development
       overlayRequest (call (Str "DELETE") "/api/ai/execute" (Bool true)) 0%nat []
     = (0%nat, [], Some {| status := 400; body := ErrorBody msg |}))
  /\ (exists msg,
     Execute.httpRequest hostFetch hostUrl hostStringify hostParse development
       overlayRequest (call (Str "GET") "/etc/passwd" (Bool true)) 0%nat []
     = (0%nat, [], Some {| status := 400; body := ErrorBody msg |})).
Proof.
  split.
  - apply (invalid_path_rejected nat hostFetch hostUrl hostStringify hostParse
             development overlayRequest
             (call (Str "DELETE") "/api/ai/execute" (Bool true))).
    reflexivity.
  - apply (invalid_path_rejected nat hostFetch hostUrl hostStringify hostParse
             development overlayRequest
             (call (Str "GET") "/etc/passwd" (Bool true))).
    reflexivity.
Defined.

Lemma unknown_method_is_get_witness :
  Execute.httpRequest hostFetch hostUrl hostStringify hostParse production
    overlayRequest (call (Str "purge") "/api/crm/companies" (Bool false)) 0%nat []
  = (1%nat,
     [ {| call_url := "http://localhost:3000/api/crm/companies";
          call_init := {| init_method := "GET";
                          init_headers := [ ("authorization", "Bearer token");
                                            ("content-type", "application/json") ];
                          init_body := None |} |} ],
     Some {| status := 200;
             body := ExecBody 200 "http://localhost:3000/api/crm/companies"
                              "GET" (Obj []) |}).
Proof.
  destruct (unknown_method_is_get nat hostFetch hostUrl hostStringify hostParse
              production overlayRequest
              (call (Str "purge") "/api/crm/companies" (Bool false)) 0%nat []
              eq_refl)
    as (_ & _ & _ & H & _).
  rewrite (H eq_refl [] eq_refl). reflexivity.
Defined.

(** C10 (as stated) fails: a call with an unknown method is not run when
    its path fails the tests; it is answered with status 400 and the
    network is not touched. *)
Lemma unknown_method_not_always_run :
  coerced (in_method (call (Str "purge") "/etc/passwd" (Bool false))) = true
  /\ Execute.httpRequest hostFetch hostUrl hostStringify hostParse production
       overlayRequest (call (Str "purge") "/etc/passwd" (Bool false)) 0%nat []
     = (0%nat, [],
        Some {| status := 400;
                body := ErrorBody "path must start with '/api/'" |}).
Proof.
  split; reflexivity.
Qed.

End ExecuteFacts.

(* ------------------------------------------------------------------ *)
(** ** The action broker: batches *)

Module BulkFacts.
Import JsString Js AiPolicy Execute BrokerNotions BulkNotions.
Local Open Scope Z_scope.

Section Batch.

Variable World : Type.
Variable fetch : World -> FetchCall -> World * option Response.
Variable buildUrl : string -> string -> list (string * string) -> string.
Variable stringify : value -> string.
Variable parseJson : string -> option value.

Local Abbreviation httpRequest := (httpRequest fetch buildUrl stringify parseJson).
Local Abbreviation bulkLoop := (bulkLoop fetch buildUrl stringify parseJson).
Local Abbreviation bulkProceed := (bulkProceed fetch buildUrl stringify parseJson).
Local Abbreviation httpBulk := (httpBulk fetch buildUrl stringify parseJson).
Local Abbreviation entryBodies := (entryBodies fetch buildUrl stringify parseJson).
Local Abbreviation responsive := (responsive fetch).

Lemma bind_lift {A B : Type} (o : option A) (k : A -> M World B) w log :
  bind (lift o) k w log
  = match o with
    | Some a => k a w log
    | None => (w, log, None)
    end.
Proof.
  destruct o; reflexivity.
Qed.

Lemma httpRequest_returns env request input w log :
  responsive ->
  searchParamsOf (queryOf input) <> None ->
  exists w' log' res, httpRequest env request input w log = (w', log', Some res).
Proof.
  intros Hf Hq. unfold Execute.httpRequest. cbv zeta.
  destruct (negb (startsWith (pathOf input) "/api/")); [now eexists _, _, _ |].
  destruct (startsWith (pathOf input) "/api/ai/"); [now eexists _, _, _ |].
  destruct (_ && _ && _); [now eexists _, _, _ |].
  unfold forward, bind, lift, doFetch.
  destruct (searchParamsOf (queryOf input)) as [params|]; [| congruence].
  unfold ret.
  match goal with |- context [fetch w ?c] =>
    pose proof (Hf w c) as Hc; destruct (fetch w c) as [w' [resp|]] end.
  - now eexists _, _, _.
  - simpl in Hc. congruence.
Qed.

Lemma ready_parts (r : value) :
  ready r = true ->
  entryVerb r <> None
  /\ exists input, entryInput r = Some input
                   /\ searchParamsOf (queryOf input) <> None.
Proof.
  unfold ready.
  destruct (entryVerb r); [| discriminate].
  destruct (entryInput r) as [input|]; [| discriminate].
  destruct (searchParamsOf (queryOf input)) eqn:E; [| discriminate].
  intros _. split; [discriminate |]. exists input. split; [reflexivity |].
  rewrite E. discriminate.
Qed.

Lemma countOk_cons (b : Body) (bs : list Body) :
  countOk (b :: bs) = (if isOk b then 1 else 0) + countOk bs.
Proof.
  unfold countOk. cbn [filter]. destruct (isOk b); cbn [List.length]; lia.
Qed.

Lemma countFailed_cons (b : Body) (bs : list Body) :
  countFailed (b :: bs) = (if isOk b then 0 else 1) + countFailed bs.
Proof.
  unfold countFailed. cbn [filter]. destruct (isOk b); cbn [negb List.length]; lia.
Qed.

Lemma counts_total (bs : list Body) :
  countOk bs + countFailed bs = Z.of_nat (List.length bs).
Proof.
  induction bs as [|b bs IH].
  - reflexivity.
  - rewrite countOk_cons, countFailed_cons. cbn [List.length].
    destruct (isOk b); lia.
Qed.

(** The loop runs every entry, whatever the earlier ones gave. *)
Lemma bulkLoop_runs env request (reqs : list value) :
  responsive ->
  forallb ready reqs = true ->
  forall results ok failed w log,
  exists w' log',
    bulkLoop env request reqs results ok failed w log
    = (w', log',
       Some ((results ++ entryBodies env request reqs w log)%list,
             ok + countOk (entryBodies env request reqs w log),
             failed + countFailed (entryBodies env request reqs w log)))
    /\ List.length (entryBodies env request reqs w log) = List.length reqs.
Proof.
  intros Hf. induction reqs as [|r rest IH]; intros Hr results ok failed w log.
  - exists w, log. cbn [Execute.bulkLoop BulkNotions.entryBodies].
    unfold ret. rewrite app_nil_r.
    change (countOk []) with 0. change (countFailed []) with 0.
    rewrite !Z.add_0_r. split; reflexivity.
  - cbn [forallb] in Hr. apply andb_true_iff in Hr. destruct Hr as [Hr Hrest].
    destruct (ready_parts _ Hr) as (_ & input & Hi & Hq).
    destruct (httpRequest_returns env request input w log Hf Hq)
      as (w1 & log1 & res & Hres).
    cbn [Execute.bulkLoop BulkNotions.entryBodies].
    unfold bind at 1. rewrite Hi. unfold lift at 1, ret at 1.
    unfold bind at 1. rewrite Hres.
    rewrite countOk_cons, countFailed_cons.
    destruct (isOk (body res)).
    + destruct (IH Hrest (results ++ [body res])%list (ok + 1) failed w1 log1)
        as (w' & log' & E & L).
      exists w', log'. rewrite E. cbn [List.length]. rewrite L.
      rewrite <- app_assoc. cbn [app].
      rewrite !Z.add_assoc, !Z.add_0_r.
      split; reflexivity.
    + destruct (IH Hrest (results ++ [body res])%list ok (failed + 1) w1 log1)
        as (w' & log' & E & L).
      exists w', log'. rewrite E. cbn [List.length]. rewrite L.
      rewrite <- app_assoc. cbn [app].
      rewrite !Z.add_assoc, !Z.add_0_r.
      split; reflexivity.
Qed.

Lemma some_defined (pred : value -> option bool) (reqs : list value) :
  (forall r, In r reqs -> pred r <> None) ->
  exists b, some pred reqs = Some b.
Proof.
  induction reqs as [|r rest IH]; intros H.
  - now exists false.
  - cbn [some]. destruct (pred r) as [[|]|] eqn:E.
    + now exists true.
    + apply IH. intros x Hx. apply H. now right.
    + exfalso. apply (H r); [now left | exact E].
Qed.

Lemma ready_verbs (reqs : list value) :
  forallb ready reqs = true ->
  forall (f : string -> bool) r, In r reqs -> option_map f (entryVerb r) <> None.
Proof.
  intros Hr f r Hin. rewrite forallb_forall in Hr.
  destruct (ready_parts _ (Hr r Hin)) as [Hv _].
  destruct (entryVerb r); [discriminate | congruence].
Qed.

(** C2 (as amended).  An approved batch of 1 to 50 entries, none of which
    makes the broker throw and all of whose network calls are answered,
    gives status 200 when no entry failed and 207 otherwise; [ok] and
    [failed] count the entries whose own result has, or has not, a status
    from 200 to 299; [results] holds one body for each entry, in the order
    of the entries, each being the result of that entry run as an approved
    single call after the entries before it, whatever these gave.  With
    three entries of which only the second fails: [ok = 2], [failed = 1],
    status 207 and three results. *)
Theorem approved_batch_result :
  forall env request input reqs w log,
    in_requests input = Arr reqs ->
    (1 <= List.length reqs <= 50)%nat ->
    truthy (bulk_approved input) = true ->
    forallb ready reqs = true ->
    responsive ->
    let results := entryBodies env request reqs w log in
    outcomeOf (httpBulk env request input w log)
    = Some {| status := 200;
              body := BulkBody (if countFailed results =? 0 then 200 else 207)
                               (countOk results) (countFailed results) results |}
    /\ List.length results = List.length reqs
    /\ countOk results + countFailed results = Z.of_nat (List.length reqs)
    /\ (map isOk results = [true; false; true] ->
        countOk results = 2 /\ countFailed results = 1
        /\ (if countFailed results =? 0 then 200 else 207) = 207
        /\ List.length results = 3%nat).
Proof.
  intros env request input reqs w log Hin Hlen Ha Hr Hf results.
  destruct (bulkLoop_runs env request reqs Hf Hr [] 0 0 w log)
    as (w' & log' & E & L).
  fold results in E, L.
  split.
  { unfold Execute.httpBulk. cbv zeta. rewrite Hin.
    destruct (Nat.eqb_spec (List.length reqs) 0) as [H0 | _]; [lia |].
    destruct (Nat.ltb_spec 50 (List.length reqs)) as [H50 | _]; [lia |].
    unfold Execute.bulkProceed. cbv zeta. rewrite Ha.
    destruct (some_defined _ reqs
                (ready_verbs reqs Hr (fun v => negb (String.eqb v "GET"))))
      as [anyWrite Hw].
    destruct (some_defined _ reqs
                (ready_verbs reqs Hr (fun v => String.eqb v "DELETE")))
      as [anyDelete Hd].
    unfold bind at 1. rewrite Hw. unfold lift at 1, ret at 1.
    unfold bind at 1. rewrite Hd. unfold lift at 1, ret at 1.
    cbn [negb]. rewrite andb_false_r. cbn [andb].
    unfold bind. rewrite E. cbn [app]. unfold ret, outcomeOf. cbn [snd].
    rewrite !Z.add_0_l. reflexivity. }
  split; [exact L |].
  split; [rewrite counts_total, L; reflexivity |].
  intros Hm.
  destruct results as [|a [|b [|c [|d rest]]]]; try discriminate Hm.
  cbn [map] in Hm. injection Hm as Hka Hkb Hkc.
  rewrite !countOk_cons, !countFailed_cons, Hka, Hkb, Hkc.
  change (countOk []) with 0. change (countFailed []) with 0.
  repeat split; reflexivity.
Qed.

Lemma bulkProceed_outcome env request reqs approved w log :
  forall r, outcomeOf (bulkProceed env request reqs approved w log) = Some r ->
    status r = 200 /\ isValidationError r = false
    /\ (isDraft r = true \/ isBulkResult r = true).
Proof.
  intros r. unfold Execute.bulkProceed. cbv zeta.
  rewrite bind_lift. destruct (some _ reqs) as [anyWrite|]; [| discriminate].
  rewrite bind_lift. destruct (some _ reqs) as [anyDelete|]; [| discriminate].
  destruct (_ && _ && _).
  - unfold ret, outcomeOf. cbn [snd]. intros H. injection H as <-.
    repeat split; auto.
  - unfold bind.
    destruct (bulkLoop env request reqs [] 0 0 w log)
      as [[w' log'] [[[results ok] failed]|]].
    + unfold ret, outcomeOf. cbn [snd]. intros H. injection H as <-.
      repeat split; auto.
    + discriminate.
Qed.

(** C8.  A batch whose [requests] is an empty list, or a list of more
    than 50 entries, is rejected with status 400 and an error message,
    the host and the log of network calls staying as they were; a list of
    1 to 50 entries passes on to the approval test and the execution,
    which end in no rejection. *)
Theorem batch_size_validation :
  forall env request input reqs w log,
    in_requests input = Arr reqs ->
    ((List.length reqs = 0 \/ 50 < List.length reqs)%nat ->
     exists msg,
       httpBulk env request input w log
       = (w, log, Some {| status := 400; body := ErrorBody msg |}))
    /\ ((1 <= List.length reqs <= 50)%nat ->
        httpBulk env request input w log
        = bulkProceed env request reqs (truthy (bulk_approved input)) w log
        /\ forall r, outcomeOf (httpBulk env request input w log) = Some r ->
             status r = 200 /\ isValidationError r = false
             /\ (isDraft r = true \/ isBulkResult r = true)).
Proof.
  intros env request input reqs w log Hin.
  unfold Execute.httpBulk. cbv zeta. rewrite Hin.
  split.
  - intros Hlen.
    destruct (Nat.eqb_spec (List.length reqs) 0) as [H0 | H0];
      [eexists; reflexivity |].
    destruct (Nat.ltb_spec 50 (List.length reqs)) as [H50 | H50];
      [eexists; reflexivity | lia].
  - intros Hlen.
    destruct (Nat.eqb_spec (List.length reqs) 0) as [H0 | _]; [lia |].
    destruct (Nat.ltb_spec 50 (List.length reqs)) as [H50 | _]; [lia |].
    split; [reflexivity |].
    apply bulkProceed_outcome.
Qed.

End Batch.

Lemma steadyFetch_responsive : responsive steadyFetch.
Proof.
  intros w c. unfold steadyFetch. cbn [snd].
  destruct (includes (call_url c) "/api/missing"); discriminate.
Qed.

Lemma approved_batch_result_witness :
  outcomeOf
    (Execute.httpBulk steadyFetch hostUrl hostStringify hostParse production
       overlayRequest (batch threeCalls (Bool true)) 0%nat [])
  = Some {| status := 200;
            body := BulkBody 207 2 1
                      [ ExecBody 200 "http://localhost:3000/api/crm/companies" "GET" (Obj []);
                        ExecBody 404 "http://localhost:3000/api/missing/1" "GET" (Str "Not found");
                        ExecBody 200 "http://localhost:3000/api/crm/contacts" "GET" (Obj []) ] |}.
Proof.
  assert (Hlen : (1 <= List.length threeCalls <= 50)%nat) by (simpl; lia).
  destruct (approved_batch_result nat steadyFetch hostUrl hostStringify hostParse
              production overlayRequest (batch threeCalls (Bool true)) threeCalls
              0%nat [] eq_refl Hlen eq_refl eq_refl steadyFetch_responsive)
    as [E _].
  refine (eq_trans E _). vm_compute. reflexivity.
Defined.

(** C2 (as stated) fails: when the second of three entries cannot reach
    the host, the rejected [fetch] leaves the loop; the batch gives no
    result at all and the third entry is never called. *)
Lemma unreachable_entry_aborts_batch :
  truthy (bulk_approved (batch threeCallsOneDown (Bool true))) = true
  /\ outcomeOf
       (Execute.httpBulk hostFetch hostUrl hostStringify hostParse production
          overlayRequest (batch threeCallsOneDown (Bool true)) 0%nat [])
     = None
  /\ map call_url
       (callsOf
          (Execute.httpBulk hostFetch hostUrl hostStringify hostParse production
             overlayRequest (batch threeCallsOneDown (Bool true)) 0%nat []))
     = [ "http://localhost:3000/api/crm/companies";
         "http://localhost:3000/api/down/1" ].
Proof.
  vm_compute. repeat split; reflexivity.
Qed.

Lemma batch_size_validation_witness :
  Execute.httpBulk steadyFetch hostUrl hostStringify hostParse production
    overlayRequest (batch fiftyCalls (Bool false)) 0%nat []
  = Execute.bulkProceed steadyFetch hostUrl hostStringify hostParse production
      overlayRequest fiftyCalls false 0%nat []
  /\ (exists msg,
        Execute.httpBulk steadyFetch hostUrl hostStringify hostParse production
          overlayRequest
          (batch (entry "GET" "/api/crm/companies" :: fiftyCalls) (Bool true))
          0%nat []
        = (0%nat, [], Some {| status := 400; body := ErrorBody msg |})).
Proof.
  assert (H50 : (1 <= List.length fiftyCalls <= 50)%nat) by (simpl; lia).
  assert (H51 : (List.length (entry "GET" "/api/crm/companies" :: fiftyCalls) = 0
                 \/ 50 < List.length (entry "GET" "/api/crm/companies" :: fiftyCalls))%nat)
    by (right; simpl; lia).
  split.
  - destruct (batch_size_validation nat steadyFetch hostUrl hostStringify hostParse
                production overlayRequest (batch fiftyCalls (Bool false))
                fiftyCalls 0%nat [] eq_refl) as [_ H].
    exact (proj1 (H H50)).
  - destruct (batch_size_validation nat steadyFetch hostUrl hostStringify hostParse
                production overlayRequest
                (batch (entry "GET" "/api/crm/companies" :: fiftyCalls) (Bool true))
                (entry "GET" "/api/crm/companies" :: fiftyCalls) 0%nat [] eq_refl)
      as [H _].
    exact (H H51).
Defined.

End BulkFacts.

(* ------------------------------------------------------------------ *)
(** ** Cached discovery *)

Module AiEndpointsFacts.
Import JsString AiEndpoints DiscoveryNotions.
Local Open Scope Z_scope.

Section Cache.

Variable FileSystem : Type.
Variable apiRootOf : FileSystem -> string -> option FsNode.
Variable extractMethods : string -> list string.
Variable extractDocs : string -> option string * option (list (string * string)).
Variable sortByPath : list DiscoveredEndpoint -> list DiscoveredEndpoint.

Local Abbreviation discover :=
  (discoverAppApiEndpoints FileSystem apiRootOf extractMethods extractDocs sortByPath).
Local Abbreviation rescan :=
  (rescan FileSystem apiRootOf extractMethods extractDocs sortByPath).
Local Abbreviation scanOf :=
  (scanOf apiRootOf extractMethods extractDocs sortByPath).

Lemma discover_fresh fs projectRoot now st c :
  cached st = Some c -> now - at_ c < 30000 ->
  discover fs projectRoot now st = (st, Some (endpoints c)).
Proof.
  intros Hc Hnow. unfold discoverAppApiEndpoints. rewrite Hc.
  destruct (Z.ltb_spec (now - at_ c) 30000); [reflexivity | lia].
Qed.

Lemma discover_expired fs projectRoot now st :
  expired st now = true ->
  discover fs projectRoot now st = rescan fs projectRoot now st.
Proof.
  unfold expired, discoverAppApiEndpoints.
  destruct (cached st) as [c|]; [| reflexivity].
  intros H. apply negb_true_iff in H. now rewrite H.
Qed.

Lemma rescan_scanOf fs projectRoot now st eps :
  scanOf fs projectRoot = Some eps ->
  rescan fs projectRoot now st
  = ({| cached := Some {| at_ := now; endpoints := eps |};
        scans := S (scans st) |}, Some eps).
Proof.
  unfold DiscoveryNotions.scanOf, AiEndpoints.rescan.
  destruct (apiRootOf fs projectRoot) as [[text | entries |]|].
  - discriminate.
  - intros H. injection H as <-. reflexivity.
  - discriminate.
  - intros H. injection H as <-. reflexivity.
Qed.

(** C9.  A call made while the cache is fresh, that is less than 30000
    milliseconds after the cache was filled, returns the cached list and
    leaves cache and scan counter as they are.  A call made when the cache
    is empty or no longer fresh scans, returns what the scan found and
    puts that list with the time of the call in place of the cache as a
    whole; a second call less than 30000 milliseconds after such a call
    returns the very same list without scanning, whatever the file system
    holds by then. *)
Theorem discovery_cache :
  forall fs projectRoot now st,
    (forall c, cached st = Some c -> now - at_ c < 30000 ->
       discover fs projectRoot now st = (st, Some (endpoints c)))
    /\ (expired st now = true ->
        forall eps, scanOf fs projectRoot = Some eps ->
          discover fs projectRoot now st
          = ({| cached := Some {| at_ := now; endpoints := eps |};
                scans := S (scans st) |}, Some eps)
          /\ forall fs' projectRoot' later,
               later - now < 30000 ->
               discover fs' projectRoot' later
                 (fst (discover fs projectRoot now st))
               = (fst (discover fs projectRoot now st), Some eps)).
Proof.
  intros fs projectRoot now st. split.
  - intros c. apply discover_fresh.
  - intros Hx eps Hs.
    assert (E : discover fs projectRoot now st
                = ({| cached := Some {| at_ := now; endpoints := eps |};
                      scans := S (scans st) |}, Some eps)).
    { rewrite discover_expired by exact Hx. now apply rescan_scanOf. }
    split; [exact E |].
    intros fs' projectRoot' later Hl. rewrite E. cbn [fst].
    apply (discover_fresh fs' projectRoot' later _
             {| at_ := now; endpoints := eps |}); [reflexivity | exact Hl].
Qed.

End Cache.

Lemma discovery_cache_witness :
  discoverAppApiEndpoints (option FsNode) appRoot verbsIn noDocs keepOrder
    crmApp "/srv/app" 1000 coldStart
  = ({| cached := Some {| at_ := 1000; endpoints := crmEndpoints |}; scans := 1 |},
     Some crmEndpoints)
  /\ discoverAppApiEndpoints (option FsNode) appRoot verbsIn noDocs keepOrder
       None "/srv/app" 30999
       {| cached := Some {| at_ := 1000; endpoints := crmEndpoints |}; scans := 1 |}
     = ({| cached := Some {| at_ := 1000; endpoints := crmEndpoints |}; scans := 1 |},
        Some crmEndpoints).
Proof.
  destruct (discovery_cache (option FsNode) appRoot verbsIn noDocs keepOrder
              crmApp "/srv/app" 1000 coldStart) as [_ H].
  destruct (H eq_refl crmEndpoints eq_refl) as [E L].
  split; [exact E |].
  specialize (L None "/srv/app" 30999 eq_refl).
  rewrite E in L. exact L.
Defined.

End AiEndpointsFacts.

(* ------------------------------------------------------------------ *)
(** ** The shape of cleaned paths and of normalized texts *)

Module TextShapeFacts.
Import JsString AiMethods SearchCommon TextShape.

Lemma allChars_weaken (ok1 ok2 : ascii -> bool) (s : string) :
  (forall c, ok1 c = true -> ok2 c = true) ->
  allChars ok1 s = true -> allChars ok2 s = true.
Proof.
  intros Hok. induction s as [|c r IH]; simpl; [reflexivity |].
  intros H. apply andb_true_iff in H. destruct H as [Hc Hr].
  now rewrite (Hok _ Hc), IH.
Qed.

Lemma allChars_mapChars (ok1 ok2 : ascii -> bool) (f : ascii -> ascii) (s : string) :
  (forall c, ok1 c = true -> ok2 (f c) = true) ->
  allChars ok1 s = true -> allChars ok2 (mapChars f s) = true.
Proof.
  intros Hok. induction s as [|c r IH]; simpl; [reflexivity |].
  intros H. apply andb_true_iff in H. destruct H as [Hc Hr].
  now rewrite (Hok _ Hc), IH.
Qed.

Lemma mapChars_fixed (ok : ascii -> bool) (f : ascii -> ascii) (s : string) :
  (forall c, ok c = true -> f c = c) ->
  allChars ok s = true -> mapChars f s = s.
Proof.
  intros Hok. induction s as [|c r IH]; simpl; [reflexivity |].
  intros H. apply andb_true_iff in H. destruct H as [Hc Hr].
  now rewrite (Hok _ Hc), IH.
Qed.

Section Runs.

Variable cls : ascii -> bool.
Variable rep : ascii.
Hypothesis cls_rep : cls rep = true.

Lemma outside_not_rep (c : ascii) : cls c = false -> Ascii.eqb c rep = false.
Proof.
  intros Hc. destruct (Ascii.eqb_spec c rep) as [-> |]; [congruence | reflexivity].
Qed.

(** What [replaceRuns] gives holds characters outside the class and [rep]. *)
Lemma replaceRuns_chars (s : string) :
  forall b,
    allChars (fun c => negb (cls c) || Ascii.eqb c rep)
             (replaceRuns cls rep b s) = true.
Proof.
  induction s as [|c r IH]; intros b; simpl; [reflexivity |].
  destruct (cls c) eqn:Hc.
  - destruct b; [apply IH |].
    simpl. now rewrite Ascii.eqb_refl, orb_true_r, IH.
  - simpl. now rewrite Hc, IH.
Qed.

Lemma replaceRuns_keeps (ok : ascii -> bool) (s : string) :
  ok rep = true -> allChars ok s = true ->
  forall b, allChars ok (replaceRuns cls rep b s) = true.
Proof.
  intros Hrep. induction s as [|c r IH]; intros H b; simpl; [reflexivity |].
  simpl in H. apply andb_true_iff in H. destruct H as [Hc Hr].
  destruct (cls c).
  - destruct b; [now apply IH |]. simpl. now rewrite Hrep, IH.
  - simpl. now rewrite Hc, IH.
Qed.

Lemma replaceRuns_noRepeat (s : string) :
  forall b,
    noRepeat rep (replaceRuns cls rep b s) = true
    /\ (b = true -> headIs rep (replaceRuns cls rep b s) = false).
Proof.
  induction s as [|c r IH]; intros b; simpl.
  - split; reflexivity.
  - destruct (cls c) eqn:Hc.
    + destruct b; [apply IH |].
      destruct (IH true) as [Hn Hh]. simpl.
      rewrite (Hh eq_refl), Hn, andb_false_r.
      split; [reflexivity | discriminate].
    + simpl. rewrite (outside_not_rep _ Hc). simpl.
      split; [apply IH | reflexivity].
Qed.

Lemma dropLeading_chars (ok : ascii -> bool) (s : string) :
  allChars ok s = true -> allChars ok (dropLeading cls s) = true.
Proof.
  induction s as [|c r IH]; intros H; [reflexivity |].
  simpl. destruct (cls c); [| exact H].
  simpl in H. apply andb_true_iff in H. now apply IH.
Qed.

Lemma dropLeading_noRepeat (s : string) :
  noRepeat rep s = true -> noRepeat rep (dropLeading cls s) = true.
Proof.
  induction s as [|c r IH]; intros H; [reflexivity |].
  simpl. destruct (cls c); [| exact H].
  simpl in H. apply andb_true_iff in H. now apply IH.
Qed.

Lemma dropLeading_head (s : string) :
  headIs rep (dropLeading cls s) = false.
Proof.
  induction s as [|c r IH]; [reflexivity |].
  simpl. destruct (cls c) eqn:Hc; [exact IH |].
  simpl. now apply outside_not_rep.
Qed.

Lemma dropTrailing_chars (ok : ascii -> bool) (s : string) :
  allChars ok s = true -> allChars ok (dropTrailing cls s) = true.
Proof.
  induction s as [|c r IH]; intros H; [reflexivity |].
  simpl in H. apply andb_true_iff in H. destruct H as [Hc Hr].
  specialize (IH Hr). simpl.
  destruct (dropTrailing cls r) as [|d r'].
  - destruct (cls c); simpl; [reflexivity | now rewrite Hc].
  - change (allChars ok (String c (String d r')))
      with (ok c && allChars ok (String d r')).
    now rewrite Hc, IH.
Qed.

Lemma dropTrailing_first (s : string) (d : ascii) (r' : string) :
  dropTrailing cls s = String d r' -> exists r0, s = String d r0.
Proof.
  destruct s as [|c r]; simpl; [discriminate |].
  destruct (dropTrailing cls r).
  - destruct (cls c); [discriminate |].
    intros H. injection H as <- _. now exists r.
  - intros H. injection H as <- _. now exists r.
Qed.

Lemma dropTrailing_keeps_head (s : string) :
  headIs rep s = false -> headIs rep (dropTrailing cls s) = false.
Proof.
  intros H. destruct (dropTrailing cls s) as [|d r'] eqn:E; [reflexivity |].
  destruct (dropTrailing_first _ _ _ E) as [r0 ->]. exact H.
Qed.

Lemma dropTrailing_fenced (s : string) :
  noRepeat rep s = true -> fenced rep (dropTrailing cls s) = true.
Proof.
  induction s as [|c r IH]; intros H; [reflexivity |].
  simpl in H. apply andb_true_iff in H. destruct H as [Hc Hr].
  specialize (IH Hr). simpl.
  destruct (dropTrailing cls r) as [|d r'] eqn:E.
  - destruct (cls c) eqn:Hk; simpl; [reflexivity |].
    now rewrite (outside_not_rep _ Hk).
  - destruct (dropTrailing_first _ _ _ E) as [r0 ->].
    change (fenced rep (String c (String d r')))
      with ((negb (Ascii.eqb c rep) || negb (Ascii.eqb d rep))
            && fenced rep (String d r')).
    rewrite IH, andb_true_r. simpl in Hc.
    destruct (Ascii.eqb c rep), (Ascii.eqb d rep); simpl in *; congruence.
Qed.

(** On a text whose characters of the class are single [rep]s, none at the
    end, the three operations change nothing. *)
Lemma replaceRuns_fixed (s : string) :
  allChars (fun c => negb (cls c) || Ascii.eqb c rep) s = true ->
  fenced rep s = true ->
  forall b, (b = true -> headIs rep s = false) ->
            replaceRuns cls rep b s = s.
Proof.
  induction s as [|c r IH]; intros Ha Hf b Hb; [reflexivity |].
  simpl in Ha. apply andb_true_iff in Ha. destruct Ha as [Hc Ha].
  simpl in Hf. apply andb_true_iff in Hf. destruct Hf as [Hn Hf].
  simpl. destruct (cls c) eqn:Hk.
  - simpl in Hc. apply Ascii.eqb_eq in Hc. subst c.
    destruct b.
    + specialize (Hb eq_refl). simpl in Hb.
      rewrite Ascii.eqb_refl in Hb. discriminate.
    + f_equal. apply IH; auto. intros _.
      rewrite Ascii.eqb_refl in Hn. simpl in Hn.
      destruct r as [|d r']; [discriminate |].
      simpl. now apply negb_true_iff in Hn.
  - f_equal. apply IH; auto. discriminate.
Qed.

Lemma dropLeading_fixed (s : string) :
  allChars (fun c => negb (cls c) || Ascii.eqb c rep) s = true ->
  headIs rep s = false ->
  dropLeading cls s = s.
Proof.
  destruct s as [|c r]; intros Ha Hh; [reflexivity |].
  simpl in *. apply andb_true_iff in Ha. destruct Ha as [Hc _].
  destruct (cls c); [| reflexivity].
  simpl in Hc. congruence.
Qed.

Lemma dropTrailing_fixed (s : string) :
  allChars (fun c => negb (cls c) || Ascii.eqb c rep) s = true ->
  fenced rep s = true ->
  dropTrailing cls s = s.
Proof.
  induction s as [|c r IH]; intros Ha Hf; [reflexivity |].
  simpl in Ha. apply andb_true_iff in Ha. destruct Ha as [Hc Ha].
  simpl in Hf. apply andb_true_iff in Hf. destruct Hf as [Hn Hf].
  simpl. rewrite (IH Ha Hf).
  destruct r as [|d r']; [| reflexivity].
  rewrite orb_false_r in Hn. apply negb_true_iff in Hn.
  destruct (cls c); [| reflexivity].
  simpl in Hc. congruence.
Qed.

End Runs.

Lemma lowerChar_eqb_underscore (c : ascii) :
  Ascii.eqb (lowerChar c) "_" = Ascii.eqb c "_".
Proof.
  destruct c as [[] [] [] [] [] [] [] []]; reflexivity.
Qed.

Lemma lowerChar_name (c : ascii) :
  isAlnum c || isUnderscore c = true -> isNameChar (lowerChar c) = true.
Proof.
  destruct c as [[] [] [] [] [] [] [] []]; vm_compute; intros H;
    first [reflexivity | discriminate H].
Qed.

Lemma lowerChar_fixed_name (c : ascii) :
  isNameChar c = true -> lowerChar c = c.
Proof.
  destruct c as [[] [] [] [] [] [] [] []]; vm_compute; intros H;
    first [reflexivity | discriminate H].
Qed.

Lemma lowerChar_fixed_word (c : ascii) :
  isWordChar c = true -> lowerChar c = c.
Proof.
  destruct c as [[] [] [] [] [] [] [] []]; vm_compute; intros H;
    first [reflexivity | discriminate H].
Qed.

Lemma name_not_slash_bracket (c : ascii) :
  isNameChar c = true ->
  Ascii.eqb c "/" = false /\ Ascii.eqb c "[" = false
  /\ (negb (negb (isAlnum c)) || Ascii.eqb c "_" = true).
Proof.
  destruct c as [[] [] [] [] [] [] [] []]; vm_compute; intros H;
    first [discriminate H | repeat split].
Qed.

Lemma word_space (c : ascii) :
  isWordChar c = true ->
  (negb (isSpace c) || Ascii.eqb c " " = true)
  /\ (negb (negb (isLowerAlnum c)) || Ascii.eqb c " " = true).
Proof.
  destruct c as [[] [] [] [] [] [] [] []]; vm_compute; intros H;
    first [discriminate H | repeat split].
Qed.

Lemma headIs_lower (s : string) :
  headIs "_" (toLowerCase s) = headIs "_" s.
Proof.
  destruct s as [|c r]; [reflexivity |].
  simpl. apply lowerChar_eqb_underscore.
Qed.

Lemma fenced_lower (s : string) :
  fenced "_" (toLowerCase s) = fenced "_" s.
Proof.
  induction s as [|c r IH]; [reflexivity |].
  simpl. fold (toLowerCase r). rewrite IH, lowerChar_eqb_underscore.
  destruct r as [|d r']; [reflexivity |].
  simpl. now rewrite lowerChar_eqb_underscore.
Qed.

Lemma unbracket_fixed (s : string) :
  allChars (fun c => negb (Ascii.eqb c "[")) s = true ->
  unbracketFrom None s = s.
Proof.
  induction s as [|c r IH]; intros H; [reflexivity |].
  simpl in H. apply andb_true_iff in H. destruct H as [Hc Hr].
  simpl. apply negb_true_iff in Hc. rewrite Hc. now rewrite IH.
Qed.

Lemma cleaned_tidy (pathTemplate : string) :
  tidy isNameChar "_" (cleaned pathTemplate) = true.
Proof.
  unfold cleaned, trimUnderscores, collapseUnderscores, squashNonAlnum.
  set (s0 := unbracket (stripLeadingSlash pathTemplate)).
  set (s1 := replaceRuns (fun c => negb (isAlnum c)) "_" false s0).
  set (s2 := replaceRuns isUnderscore "_" false s1).
  assert (H1 : allChars (fun c => isAlnum c || isUnderscore c) s1 = true).
  { apply allChars_weaken
      with (ok1 := fun c => negb (negb (isAlnum c)) || Ascii.eqb c "_").
    - intros c. now rewrite negb_involutive.
    - apply replaceRuns_chars. }
  assert (H2 : allChars (fun c => isAlnum c || isUnderscore c) s2 = true)
    by (apply replaceRuns_keeps; [reflexivity | exact H1]).
  destruct (replaceRuns_noRepeat isUnderscore "_" eq_refl s1 false) as [N2 _].
  fold s2 in N2.
  unfold tidy. rewrite headIs_lower, fenced_lower.
  rewrite (allChars_mapChars (fun c => isAlnum c || isUnderscore c)
             isNameChar lowerChar _ lowerChar_name)
    by (apply dropTrailing_chars, dropLeading_chars, H2).
  rewrite (dropTrailing_keeps_head isUnderscore "_")
    by (apply (dropLeading_head isUnderscore "_" eq_refl)).
  rewrite (dropTrailing_fenced isUnderscore "_" eq_refl)
    by (apply dropLeading_noRepeat, N2).
  reflexivity.
Qed.

Lemma tidy_parts (ok : ascii -> bool) (x : ascii) (s : string) :
  tidy ok x s = true ->
  allChars ok s = true /\ headIs x s = false /\ fenced x s = true.
Proof.
  unfold tidy. intros H.
  apply andb_true_iff in H. destruct H as [H Hf].
  apply andb_true_iff in H. destruct H as [Ha Hh].
  apply negb_true_iff in Hh. auto.
Qed.

Lemma cleaned_fixed (s : string) :
  tidy isNameChar "_" s = true -> cleaned s = s.
Proof.
  intros H. destruct (tidy_parts _ _ _ H) as (Ha & Hh & Hf).
  assert (Hu : allChars (fun c => negb (isUnderscore c) || Ascii.eqb c "_") s = true).
  { apply allChars_weaken with (ok1 := isNameChar); [| exact Ha].
    intros c _. unfold isUnderscore. now destruct (Ascii.eqb c "_"). }
  unfold cleaned, trimUnderscores, collapseUnderscores, squashNonAlnum, unbracket.
  assert (E0 : stripLeadingSlash s = s).
  { destruct s as [|c r]; [reflexivity |].
    simpl in Ha. apply andb_true_iff in Ha. destruct Ha as [Hc _].
    simpl. now rewrite (proj1 (name_not_slash_bracket _ Hc)). }
  rewrite E0.
  rewrite unbracket_fixed
    by (apply allChars_weaken with (ok1 := isNameChar); [| exact Ha];
        intros c Hc; now rewrite (proj1 (proj2 (name_not_slash_bracket _ Hc)))).
  rewrite (replaceRuns_fixed (fun c => negb (isAlnum c)) "_");
    [| apply allChars_weaken with (ok1 := isNameChar); [| exact Ha];
       intros c Hc; exact (proj2 (proj2 (name_not_slash_bracket _ Hc)))
     | exact Hf | discriminate].
  rewrite (replaceRuns_fixed isUnderscore "_");
    [| exact Hu | exact Hf | discriminate].
  rewrite (dropLeading_fixed isUnderscore "_") by assumption.
  rewrite (dropTrailing_fixed isUnderscore "_") by assumption.
  apply (mapChars_fixed isNameChar); [exact lowerChar_fixed_name | exact Ha].
Qed.

(** X1.  The cleaned path of any template consists of lower-case letters,
    digits and underscores only; it neither starts nor ends with an
    underscore and has no two underscores in a row. *)
Theorem cleaned_shape :
  forall pathTemplate,
    allChars isNameChar (cleaned pathTemplate) = true
    /\ headIs "_" (cleaned pathTemplate) = false
    /\ fenced "_" (cleaned pathTemplate) = true.
Proof.
  intros pathTemplate. apply tidy_parts, cleaned_tidy.
Qed.

(** X2.  Cleaning is idempotent, and the texts it leaves unchanged are
    exactly those of that shape. *)
Theorem cleaned_idempotent :
  forall s,
    cleaned (cleaned s) = cleaned s
    /\ (cleaned s = s <-> tidy isNameChar "_" s = true).
Proof.
  intros s. split.
  - apply cleaned_fixed, cleaned_tidy.
  - split.
    + intros E. rewrite <- E. apply cleaned_tidy.
    + apply cleaned_fixed.
Qed.

Lemma normalize_tidy (s : string) :
  tidy isWordChar " " (normalize s) = true.
Proof.
  unfold normalize, trim.
  set (s1 := replaceRuns (fun c => negb (isLowerAlnum c)) " " false (toLowerCase s)).
  assert (H1 : allChars isWordChar s1 = true).
  { apply allChars_weaken
      with (ok1 := fun c => negb (negb (isLowerAlnum c)) || Ascii.eqb c " ").
    - intros c. now rewrite negb_involutive.
    - apply replaceRuns_chars. }
  destruct (replaceRuns_noRepeat (fun c => negb (isLowerAlnum c)) " " eq_refl
              (toLowerCase s) false) as [N1 _].
  fold s1 in N1.
  unfold tidy.
  rewrite dropTrailing_chars by (apply dropLeading_chars, H1).
  rewrite (dropTrailing_keeps_head isSpace " ")
    by (apply (dropLeading_head isSpace " " eq_refl)).
  rewrite (dropTrailing_fenced isSpace " " eq_refl)
    by (apply dropLeading_noRepeat, N1).
  reflexivity.
Qed.

Lemma normalize_fixed (s : string) :
  tidy isWordChar " " s = true -> normalize s = s.
Proof.
  intros H. destruct (tidy_parts _ _ _ H) as (Ha & Hh & Hf).
  assert (Hs : allChars (fun c => negb (isSpace c) || Ascii.eqb c " ") s = true).
  { apply allChars_weaken with (ok1 := isWordChar); [| exact Ha].
    intros c Hc. exact (proj1 (word_space _ Hc)). }
  unfold normalize, trim, toLowerCase.
  rewrite (mapChars_fixed isWordChar lowerChar s lowerChar_fixed_word Ha).
  rewrite (replaceRuns_fixed (fun c => negb (isLowerAlnum c)) " ");
    [| apply allChars_weaken with (ok1 := isWordChar); [| exact Ha];
       intros c Hc; exact (proj2 (word_space _ Hc))
     | exact Hf | discriminate].
  rewrite (dropLeading_fixed isSpace " ") by assumption.
  now rewrite (dropTrailing_fixed isSpace " ").
Qed.

Lemma cleaned_idempotent_witness :
  cleaned "api_crm_companies_id" = "api_crm_companies_id".
Proof.
  apply (cleaned_idempotent "api_crm_companies_id"). reflexivity.
Defined.

(** X3.  A normalized text consists of lower-case letters, digits and
    spaces only; it neither starts nor ends with a space and has no two
    spaces in a row. *)
Theorem normalize_shape :
  forall s,
    allChars isWordChar (normalize s) = true
    /\ headIs " " (normalize s) = false
    /\ fenced " " (normalize s) = true.
Proof.
  intros s. apply tidy_parts, normalize_tidy.
Qed.

(** X4.  Normalizing is idempotent, and the texts it leaves unchanged are
    exactly those of that shape. *)
Theorem normalize_idempotent :
  forall s,
    normalize (normalize s) = normalize s
    /\ (normalize s = s <-> tidy isWordChar " " s = true).
Proof.
  intros s. split.
  - apply normalize_fixed, normalize_tidy.
  - split.
    + intros E. rewrite <- E. apply normalize_tidy.
    + apply normalize_fixed.
Qed.

Lemma normalize_idempotent_witness :
  normalize "create a company" = "create a company".
Proof.
  apply (normalize_idempotent "create a company"). reflexivity.
Defined.

End TextShapeFacts.

(* ------------------------------------------------------------------ *)
(** ** Path parameters and the method catalog *)

Module AiCatalogFacts.
Import JsString AiMethods AiCatalog TextShape CatalogExamples.

Lemma length_append (a b : string) :
  String.length (a ++ b) = String.length a + String.length b.
Proof.
  induction a as [|c a IH]; simpl; [reflexivity | now rewrite IH].
Qed.

Lemma allChars_append (ok : ascii -> bool) (a b : string) :
  allChars ok (a ++ b) = allChars ok a && allChars ok b.
Proof.
  induction a as [|c a IH]; simpl; [reflexivity |].
  now rewrite IH, andb_assoc.
Qed.

Lemma unbracket_lengths (s : string) :
  forall pending,
    String.length (unbracketFrom pending s)
    + 2 * List.length (pathParamsFrom pending s)
    = String.length s + pendingLength pending.
Proof.
  induction s as [|c r IH]; intros pending.
  - destruct pending; simpl; lia.
  - destruct pending as [buf|]; cbn [unbracketFrom pathParamsFrom].
    + destruct (Ascii.eqb c "]").
      * destruct buf as [|b buf].
        -- cbn [String.length List.length pendingLength].
           specialize (IH None). cbn [pendingLength] in IH. lia.
        -- rewrite length_append. cbn [List.length pendingLength].
           specialize (IH None). cbn [pendingLength] in IH.
           cbn [String.length]. lia.
      * rewrite IH. cbn [pendingLength String.length].
        rewrite length_append. cbn [String.length]. lia.
    + destruct (Ascii.eqb c "[").
      * rewrite IH. cbn [pendingLength String.length]. lia.
      * cbn [String.length pendingLength].
        specialize (IH None). cbn [pendingLength] in IH. lia.
Qed.

Lemma pathParams_wellformed (s : string) :
  forall pending x,
    match pending with
    | Some buf => allChars notClosing buf = true
    | None => True
    end ->
    In x (pathParamsFrom pending s) ->
    x <> EmptyString /\ allChars notClosing x = true.
Proof.
  induction s as [|c r IH]; intros pending x Hp Hin.
  - destruct Hin.
  - destruct pending as [buf|]; cbn [pathParamsFrom] in Hin.
    + destruct (Ascii.eqb c "]") eqn:Hc.
      * destruct buf as [|b buf].
        -- now apply (IH None).
        -- destruct Hin as [<- | Hin].
           ++ split; [discriminate | exact Hp].
           ++ now apply (IH None).
      * apply (IH (Some (buf ++ String c EmptyString))); [| exact Hin].
        rewrite allChars_append, Hp. simpl. unfold notClosing. now rewrite Hc.
    + destruct (Ascii.eqb c "[").
      * now apply (IH (Some EmptyString)).
      * now apply (IH None).
Qed.

Lemma pathParams_none (s : string) :
  allChars (fun c => negb (Ascii.eqb c "[")) s = true ->
  pathParamsFrom None s = [].
Proof.
  induction s as [|c r IH]; intros H; [reflexivity |].
  simpl in H. apply andb_true_iff in H. destruct H as [Hc Hr].
  simpl. apply negb_true_iff in Hc. rewrite Hc. now apply IH.
Qed.

(** X5.  Every path parameter extracted from a template is non-empty and
    holds no closing bracket; a template without opening bracket has no
    parameter; and taking the brackets off shortens the template by
    exactly two characters for each parameter. *)
Theorem extractPathParams_brackets :
  forall pathTemplate,
    (forall x, In x (extractPathParams pathTemplate) ->
               x <> EmptyString /\ allChars notClosing x = true)
    /\ (allChars (fun c => negb (Ascii.eqb c "[")) pathTemplate = true ->
        extractPathParams pathTemplate = [])
    /\ String.length (unbracket pathTemplate)
       + 2 * List.length (extractPathParams pathTemplate)
       = String.length pathTemplate.
Proof.
  intros pathTemplate. split; [| split].
  - intros x. now apply pathParams_wellformed.
  - apply pathParams_none.
  - unfold unbracket, extractPathParams.
    rewrite unbracket_lengths. simpl. lia.
Qed.

Lemma extractPathParams_brackets_witness :
  extractPathParams "/api/crm/companies" = []
  /\ String.length (unbracket "/api/crm/[companyId]/contacts/[id]")
     + 2 * List.length (extractPathParams "/api/crm/[companyId]/contacts/[id]")
     = String.length "/api/crm/[companyId]/contacts/[id]".
Proof.
  split.
  - apply (extractPathParams_brackets "/api/crm/companies"). reflexivity.
  - apply (extractPathParams_brackets "/api/crm/[companyId]/contacts/[id]").
Defined.

Lemma upperChar_idempotent (c : ascii) : upperChar (upperChar c) = upperChar c.
Proof.
  destruct c as [[] [] [] [] [] [] [] []]; reflexivity.
Qed.

Lemma toUpperCase_idempotent (s : string) :
  toUpperCase (toUpperCase s) = toUpperCase s.
Proof.
  unfold toUpperCase.
  induction s as [|c r IH]; simpl; [reflexivity |].
  now rewrite upperChar_idempotent, IH.
Qed.

Lemma insertByName_perm (x : MethodSpec) (l : list MethodSpec) :
  Permutation (x :: l) (insertByName x l).
Proof.
  induction l as [|y l IH]; simpl; [apply Permutation_refl |].
  destruct (String.ltb (name y) (name x)); [| apply Permutation_refl].
  eapply perm_trans; [apply perm_swap |]. now apply perm_skip.
Qed.

Lemma sortByName_perm (l : list MethodSpec) : Permutation l (sortByName l).
Proof.
  induction l as [|x l IH]; simpl; [apply perm_nil |].
  eapply perm_trans; [apply perm_skip, IH | apply insertByName_perm].
Qed.

Lemma ltb_false_leb (a b : string) :
  String.ltb b a = false -> String.leb a b = true.
Proof.
  unfold String.ltb, String.leb. rewrite (String.compare_antisym a b).
  destruct (String.compare b a); simpl; congruence.
Qed.

Lemma ltb_true_leb (a b : string) :
  String.ltb a b = true -> String.leb a b = true.
Proof.
  unfold String.ltb, String.leb.
  destruct (String.compare a b); simpl; congruence.
Qed.

Lemma insertByName_sorted (x : MethodSpec) (l : list MethodSpec) :
  Sorted nameLe l -> Sorted nameLe (insertByName x l).
Proof.
  induction l as [|y l IH]; intros Hs; simpl.
  - repeat constructor.
  - destruct (String.ltb (name y) (name x)) eqn:E.
    + inversion Hs as [|? ? Hl Hh]; subst. constructor; [now apply IH |].
      destruct l as [|z l]; simpl.
      * constructor. now apply ltb_true_leb.
      * destruct (String.ltb (name z) (name x)).
        -- constructor. now inversion Hh.
        -- constructor. now apply ltb_true_leb.
    + constructor; [exact Hs |]. constructor. now apply ltb_false_leb.
Qed.

Lemma sortByName_sorted (l : list MethodSpec) : Sorted nameLe (sortByName l).
Proof.
  induction l as [|x l IH]; simpl; [constructor |].
  now apply insertByName_sorted.
Qed.

Lemma specFor_entry (ep : Capability.CapabilityEndpoint) (v : string) (e : MethodSpec) :
  In e (specFor ep v) ->
  method e = toUpperCase v
  /\ method e <> EmptyString
  /\ readOnly e = String.eqb (method e) "GET"
  /\ name e = methodNameFor (pathTemplate e) (method e)
  /\ pathParams e = extractPathParams (pathTemplate e)
  /\ pathTemplate e = Capability.pathTemplate ep.
Proof.
  unfold specFor. cbv zeta.
  destruct (String.eqb_spec (toUpperCase v) "") as [E | N]; [intros [] |].
  intros [<- | []]. simpl. repeat split; auto.
Qed.

(** X6.  Every entry of the catalog stems from a verb of an endpoint of
    the file: its method is that verb in upper case and is not empty, it
    is read-only exactly when the method is GET, its name is the catalog
    name of its path template and method, and its path parameters are
    those of its template. *)
Theorem catalog_entries :
  forall caps e,
    In e (buildMethodCatalog caps) ->
    method e <> EmptyString
    /\ toUpperCase (method e) = method e
    /\ readOnly e = String.eqb (method e) "GET"
    /\ name e = methodNameFor (pathTemplate e) (method e)
    /\ pathParams e = extractPathParams (pathTemplate e)
    /\ exists eps ep v,
         Capability.endpoints caps = Some eps
         /\ In ep eps /\ In v (Capability.methods ep)
         /\ pathTemplate e = Capability.pathTemplate ep
         /\ method e = toUpperCase v.
Proof.
  intros caps e Hin. unfold buildMethodCatalog in Hin. cbv zeta in Hin.
  apply (Permutation_in _ (Permutation_sym (sortByName_perm _))) in Hin.
  unfold specsOf in Hin. apply in_flat_map in Hin. destruct Hin as (ep & Hep & Hin).
  apply in_flat_map in Hin. destruct Hin as (v & Hv & Hin).
  destruct (specFor_entry _ _ _ Hin) as (Hm & Hne & Hr & Hn & Hp & Ht).
  repeat split; auto.
  - rewrite Hm. apply toUpperCase_idempotent.
  - destruct (Capability.endpoints caps) as [eps|] eqn:E; [| destruct Hep].
    exists eps, ep, v. auto.
Qed.

Lemma catalog_entries_witness :
  readOnly deleteCompany = String.eqb (method deleteCompany) "GET"
  /\ name deleteCompany
     = methodNameFor (pathTemplate deleteCompany) (method deleteCompany).
Proof.
  assert (Hin : In deleteCompany (buildMethodCatalog crmCaps))
    by (vm_compute; repeat (first [left; reflexivity | right])).
  destruct (catalog_entries crmCaps deleteCompany Hin) as (_ & _ & Hr & Hn & _).
  split; [exact Hr | exact Hn].
Defined.

(** X7.  The catalog holds exactly the entries made for the verbs of the
    endpoints, each as often as it was made, in ascending order of their
    names. *)
Theorem catalog_sorted :
  forall caps,
    Permutation
      (specsOf match Capability.endpoints caps with
               | Some eps => eps
               | None => []
               end)
      (buildMethodCatalog caps)
    /\ Sorted nameLe (buildMethodCatalog caps).
Proof.
  intros caps. unfold buildMethodCatalog. cbv zeta.
  split; [apply sortByName_perm | apply sortByName_sorted].
Qed.

Lemma ascii_compare_refl (c : ascii) : Ascii.compare c c = Eq.
Proof.
  unfold Ascii.compare. apply N.compare_refl.
Qed.

Lemma string_leb_trans (a : string) :
  forall b c,
    String.leb a b = true -> String.leb b c = true -> String.leb a c = true.
Proof.
  unfold String.leb.
  induction a as [|x a IH]; intros b c Hab Hbc.
  - destruct c; reflexivity.
  - destruct b as [|y b]; [discriminate Hab |].
    destruct c as [|z c]; [discriminate Hbc |].
    simpl in *. unfold Ascii.compare in *.
    destruct (N.compare_spec (N_of_ascii x) (N_of_ascii y)) as [Exy | Lxy | Gxy];
      destruct (N.compare_spec (N_of_ascii y) (N_of_ascii z)) as [Eyz | Lyz | Gyz];
      destruct (N.compare_spec (N_of_ascii x) (N_of_ascii z)) as [Exz | Lxz | Gxz];
      try discriminate; try reflexivity; try lia.
    now apply (IH b c).
Qed.

Lemma nameLe_trans : Relations_1.Transitive nameLe.
Proof.
  intros a b c. unfold nameLe. apply string_leb_trans.
Qed.

Lemma same_name_same_entry (l : list MethodSpec) (x y : MethodSpec) :
  NoDup (map name l) -> In x l -> In y l -> name x = name y -> x = y.
Proof.
  induction l as [|z l IH]; intros Hnd Hx Hy E; [destruct Hx |].
  simpl in Hnd. inversion Hnd as [|? ? Hnot Hnd']; subst.
  destruct Hx as [-> | Hx], Hy as [-> | Hy].
  - reflexivity.
  - exfalso. apply Hnot. rewrite E. now apply in_map.
  - exfalso. apply Hnot. rewrite <- E. now apply in_map.
  - now apply IH.
Qed.

Lemma sorted_unique (l1 : list MethodSpec) :
  forall l2,
    StronglySorted nameLe l1 -> StronglySorted nameLe l2 ->
    Permutation l1 l2 -> NoDup (map name l1) -> l1 = l2.
Proof.
  induction l1 as [|x l1 IH]; intros l2 S1 S2 P Hnd.
  - apply Permutation_nil in P. now subst.
  - destruct l2 as [|y l2];
      [apply Permutation_sym, Permutation_nil in P; discriminate |].
    assert (E : x = y).
    { apply (same_name_same_entry (x :: l1)); auto.
      - now left.
      - apply (Permutation_in _ (Permutation_sym P)). now left.
      - apply String.leb_antisym.
        + assert (Hy : In y (x :: l1))
            by (apply (Permutation_in _ (Permutation_sym P)); now left).
          destruct Hy as [<- | Hy].
          * destruct (String.leb_total (name x) (name x)); assumption.
          * inversion S1 as [|? ? _ Hall]; subst.
            rewrite Forall_forall in Hall. exact (Hall _ Hy).
        + assert (Hx : In x (y :: l2))
            by (apply (Permutation_in _ P); now left).
          destruct Hx as [<- | Hx].
          * destruct (String.leb_total (name y) (name y)); assumption.
          * inversion S2 as [|? ? _ Hall]; subst.
            rewrite Forall_forall in Hall. exact (Hall _ Hx). }
    subst y. f_equal.
    apply IH.
    + now inversion S1.
    + now inversion S2.
    + now apply Permutation_cons_inv in P.
    + simpl in Hnd. now inversion Hnd.
Qed.

(** X8.  When no two entries made for the endpoints get the same name,
    the catalog does not depend on the order of the endpoints in the
    file. *)
Theorem catalog_order_independent :
  forall caps caps' eps eps',
    Capability.endpoints caps = Some eps ->
    Capability.endpoints caps' = Some eps' ->
    Permutation eps eps' ->
    NoDup (map name (specsOf eps)) ->
    buildMethodCatalog caps = buildMethodCatalog caps'.
Proof.
  intros caps caps' eps eps' E E' P Hnd.
  unfold buildMethodCatalog. cbv zeta. rewrite E, E'.
  assert (Pspecs : Permutation (specsOf eps) (specsOf eps'))
    by (unfold specsOf; now apply Permutation_flat_map).
  apply sorted_unique.
  - apply Sorted_StronglySorted; [exact nameLe_trans | apply sortByName_sorted].
  - apply Sorted_StronglySorted; [exact nameLe_trans | apply sortByName_sorted].
  - eapply perm_trans; [apply Permutation_sym, sortByName_perm |].
    eapply perm_trans; [exact Pspecs | apply sortByName_perm].
  - apply (Permutation_NoDup (l := map name (specsOf eps))); [| exact Hnd].
    apply Permutation_map, sortByName_perm.
Qed.

Lemma catalog_order_independent_witness :
  buildMethodCatalog crmCaps = buildMethodCatalog crmCapsSwapped.
Proof.
  apply (catalog_order_independent crmCaps crmCapsSwapped
           [companies; companyById] [companyById; companies]
           eq_refl eq_refl (perm_swap _ _ _)).
  vm_compute. repeat constructor; simpl; intuition discriminate.
Defined.

End AiCatalogFacts.

(* ------------------------------------------------------------------ *)
(** ** Ranking of candidates *)

Module RankingFacts.
Import Ranking.
Local Open Scope Z_scope.

Section Ranked.

Variable A : Type.
Variable score : A -> Z.

Local Abbreviation byScore := (@byScore A).
Local Abbreviation scored := (scored score).

Lemma insertScored_perm (x : A * Z) (l : list (A * Z)) :
  Permutation (x :: l) (insertScored x l).
Proof.
  induction l as [|y l IH]; simpl; [apply Permutation_refl |].
  destruct (snd y <=? snd x); [apply Permutation_refl |].
  eapply perm_trans; [apply perm_swap |]. now apply perm_skip.
Qed.

Lemma sortScored_perm (l : list (A * Z)) : Permutation l (sortScored l).
Proof.
  induction l as [|x l IH]; simpl; [apply perm_nil |].
  eapply perm_trans; [apply perm_skip, IH | apply insertScored_perm].
Qed.

Lemma insertScored_sorted (x : A * Z) (l : list (A * Z)) :
  Sorted byScore l -> Sorted byScore (insertScored x l).
Proof.
  induction l as [|y l IH]; intros Hs; simpl.
  - repeat constructor.
  - destruct (Z.leb_spec (snd y) (snd x)) as [Hle | Hgt].
    + constructor; [exact Hs |]. constructor. exact Hle.
    + inversion Hs as [|? ? Hl Hh]; subst. constructor; [now apply IH |].
      destruct l as [|z l]; simpl.
      * constructor. unfold Ranking.byScore. lia.
      * destruct (snd z <=? snd x).
        -- constructor. unfold Ranking.byScore. lia.
        -- constructor. now inversion Hh.
Qed.

Lemma sortScored_sorted (l : list (A * Z)) : Sorted byScore (sortScored l).
Proof.
  induction l as [|x l IH]; simpl; [constructor |].
  now apply insertScored_sorted.
Qed.

Lemma firstn_sorted {B : Type} (R : B -> B -> Prop) (n : nat) (l : list B) :
  Sorted R l -> Sorted R (firstn n l).
Proof.
  revert l. induction n as [|n IH]; intros l Hs; [constructor |].
  destruct l as [|x l]; [constructor |].
  inversion Hs as [|? ? Hl Hh]; subst. simpl.
  constructor; [now apply IH |].
  destruct n; [constructor |].
  destruct l as [|y l]; [constructor |].
  simpl. constructor. now inversion Hh.
Qed.

Lemma in_firstn {B : Type} (n : nat) (l : list B) (x : B) :
  In x (firstn n l) -> In x l.
Proof.
  intros H. rewrite <- (firstn_skipn n l). apply in_or_app. now left.
Qed.

Lemma scored_spec (items : list A) (x : A * Z) :
  In x (scored items) <-> In (fst x) items /\ snd x = score (fst x) /\ 0 < snd x.
Proof.
  unfold Ranking.scored. rewrite filter_In, in_map_iff. split.
  - intros [(a & <- & Ha) Hp]. simpl in *. apply Z.ltb_lt in Hp. auto.
  - intros (Ha & Hs & Hp). split.
    + exists (fst x). split; [| exact Ha]. destruct x; simpl in *. now subst.
    + now apply Z.ltb_lt.
Qed.

Lemma ranked_spec (items : list A) (limit : nat) (x : A * Z) :
  In x (firstn limit (sortScored (scored items))) ->
  In (fst x) items /\ snd x = score (fst x) /\ 0 < snd x.
Proof.
  intros H. apply scored_spec.
  apply (Permutation_in _ (Permutation_sym (sortScored_perm _))).
  eapply in_firstn. exact H.
Qed.

Lemma rankBy_in (items : list A) (limit : nat) (a : A) :
  In a (rankBy score items limit) -> In a items /\ 0 < score a.
Proof.
  unfold rankBy. rewrite in_map_iff. intros (x & <- & Hx).
  destruct (ranked_spec _ _ _ Hx) as (Hi & Hs & Hp).
  split; [exact Hi | now rewrite <- Hs].
Qed.

Lemma rankBy_length (items : list A) (limit : nat) :
  (List.length (rankBy score items limit) <= limit)%nat.
Proof.
  unfold rankBy. rewrite length_map. apply firstn_le_length.
Qed.

Lemma map_fst_sorted (l : list (A * Z)) :
  (forall x, In x l -> snd x = score (fst x)) ->
  Sorted byScore l -> Sorted (scoreGe score) (map fst l).
Proof.
  induction l as [|x l IH]; intros Hl Hs; [constructor |].
  inversion Hs as [|? ? Hs' Hh]; subst. simpl.
  constructor.
  - apply IH; [| exact Hs']. intros y Hy. apply Hl. now right.
  - destruct l as [|y l]; [constructor |].
    simpl. constructor. inversion Hh as [|? ? Hxy]; subst.
    unfold scoreGe, Ranking.byScore in *.
    rewrite <- (Hl x), <- (Hl y); [exact Hxy | right; now left | now left].
Qed.

Lemma rankBy_sorted (items : list A) (limit : nat) :
  Sorted (scoreGe score) (rankBy score items limit).
Proof.
  unfold rankBy. apply map_fst_sorted.
  - intros x Hx. now destruct (ranked_spec _ _ _ Hx) as (_ & Hs & _).
  - apply firstn_sorted, sortScored_sorted.
Qed.

Lemma rankBy_complete (items : list A) (limit : nat) (a : A) :
  (List.length (filter (fun a => (0 <? score a)%Z) items) <= limit)%nat ->
  In a items -> 0 < score a -> In a (rankBy score items limit).
Proof.
  intros Hlen Ha Hp. unfold rankBy.
  apply in_map_iff. exists (a, score a). split; [reflexivity |].
  rewrite firstn_all2.
  - apply (Permutation_in _ (sortScored_perm _)).
    apply scored_spec. simpl. auto.
  - rewrite <- (Permutation_length (sortScored_perm _)).
    assert (E : forall l,
               List.length (filter (fun x : A * Z => 0 <? snd x)
                                   (map (fun a => (a, score a)) l))
               = List.length (filter (fun a => 0 <? score a) l)).
    { induction l as [|b l IH]; simpl; [reflexivity |].
      destruct (0 <? score b); simpl; now rewrite IH. }
    now rewrite E.
Qed.

Lemma sortScored_level (k : Z) (l : list (A * Z)) :
  (forall x, In x l -> snd x = k) -> sortScored l = l.
Proof.
  induction l as [|x l IH]; intros Hl; [reflexivity |].
  simpl. rewrite IH by (intros y Hy; apply Hl; now right).
  destruct l as [|y l]; [reflexivity |].
  simpl. rewrite (Hl x), (Hl y) by (simpl; auto).
  now rewrite Z.leb_refl.
Qed.

Lemma rankBy_level (k : Z) (items : list A) (limit : nat) :
  0 < k -> (forall a, In a items -> score a = k) ->
  rankBy score items limit = firstn limit items.
Proof.
  intros Hk Hl. unfold rankBy.
  assert (E : filter (fun x : A * Z => 0 <? snd x)
                     (map (fun a => (a, score a)) items)
              = map (fun a => (a, score a)) items).
  { induction items as [|b items IH]; [reflexivity |].
    assert (Hb : (0 <? score b) = true)
      by (rewrite (Hl b) by (now left); now apply Z.ltb_lt).
    simpl. rewrite Hb. f_equal.
    apply IH. intros a Ha. apply Hl. now right. }
  rewrite E.
  rewrite (sortScored_level k).
  - rewrite <- firstn_map, map_map. simpl. now rewrite map_id.
  - intros x Hx. apply in_map_iff in Hx. destruct Hx as (a & <- & Ha).
    simpl. now apply Hl.
Qed.

End Ranked.

End RankingFacts.

(* ------------------------------------------------------------------ *)
(** ** Search handlers: scores and candidates *)

Module SearchFacts.
Import JsString SearchCommon Ranking RankingFacts MethodsSearchFacts SearchHandlerTs.
Local Open Scope Z_scope.

Lemma filtered_in (featurePack : MethodSpec -> option string)
      (packRaw : string) (methods : list MethodSpec) (m : MethodSpec) :
  In m (filtered featurePack packRaw methods)
  <-> In m methods /\ passes featurePack packRaw m = true.
Proof.
  unfold filtered, passes. destruct (packGiven packRaw); cbn [negb orb].
  - apply filter_In.
  - tauto.
Qed.

(** X9.  Whatever the scoring function, the candidates of the compiled
    method search are methods of the catalog with a positive score; there
    are at most [limit] of them; their scores go down from one to the
    next; and when no more than [limit] methods score above zero, every
    one of these is a candidate.  The TypeScript handler first keeps the
    methods of the pack it is asked for, if any: its candidates are
    methods of the catalog that pass the pack filter and have a positive
    score, at most [limit], scores going down, and all of those when no
    more than [limit] of the methods that pass the filter score above
    zero. *)
Theorem candidates_contract :
  forall (score : string -> MethodSpec -> Z) q methods limit,
    (forall m, In m (candidates score q methods limit) ->
               In m methods /\ 0 < score q m)
    /\ (List.length (candidates score q methods limit) <= limit)%nat
    /\ Sorted (scoreGe (score q)) (candidates score q methods limit)
    /\ ((List.length (filter (fun m => (0 <? score q m)%Z) methods) <= limit)%nat ->
        forall m, In m methods -> 0 < score q m ->
                  In m (candidates score q methods limit))
    /\ forall featurePack packRaw,
         (forall m, In m (packCandidates featurePack packRaw q methods limit) ->
                    In m methods
                    /\ passes featurePack packRaw m = true
                    /\ 0 < MethodsSearchTs.score q m)
         /\ (List.length (packCandidates featurePack packRaw q methods limit)
             <= limit)%nat
         /\ Sorted (scoreGe (MethodsSearchTs.score q))
                   (packCandidates featurePack packRaw q methods limit)
         /\ ((List.length
                (filter (fun m => (0 <? MethodsSearchTs.score q m)%Z)
                        (filtered featurePack packRaw methods)) <= limit)%nat ->
             forall m, In m methods ->
                       passes featurePack packRaw m = true ->
                       0 < MethodsSearchTs.score q m ->
                       In m (packCandidates featurePack packRaw q methods limit)).
Proof.
  intros score q methods limit.
  change (candidates score q methods limit)
    with (rankBy (score q) methods limit).
  split; [apply rankBy_in |].
  split; [apply rankBy_length |].
  split; [apply rankBy_sorted |].
  split; [intros Hlen m Hin Hpos; now apply rankBy_complete |].
  intros featurePack packRaw.
  change (packCandidates featurePack packRaw q methods limit)
    with (rankBy (MethodsSearchTs.score q)
                 (filtered featurePack packRaw methods) limit).
  split.
  { intros m Hin. apply rankBy_in in Hin. destruct Hin as [Hin Hpos].
    apply filtered_in in Hin. tauto. }
  split; [apply rankBy_length |].
  split; [apply rankBy_sorted |].
  intros Hlen m Hin Hp Hpos. apply rankBy_complete; [exact Hlen | | exact Hpos].
  apply filtered_in. auto.
Qed.

Lemma candidates_contract_witness :
  In SearchNotions.getContactsPlain
     (candidates MethodsSearch.score SearchNotions.contactQuery
        [SearchNotions.getContactsPlain; SearchNotions.getTasks] 12)
  /\ In SearchNotions.getContacts
        (packCandidates crmPack "crm" SearchNotions.contactQuery
           [SearchNotions.getContacts; SearchNotions.getTasks] 12).
Proof.
  destruct (candidates_contract MethodsSearch.score SearchNotions.contactQuery
              [SearchNotions.getContactsPlain; SearchNotions.getTasks] 12%nat)
    as (_ & _ & _ & H & _).
  destruct (candidates_contract MethodsSearch.score SearchNotions.contactQuery
              [SearchNotions.getContacts; SearchNotions.getTasks] 12%nat)
    as (_ & _ & _ & _ & Hts).
  destruct (Hts crmPack "crm") as (_ & _ & _ & Hc).
  split.
  - apply H.
    + vm_compute. lia.
    + now left.
    + vm_compute. reflexivity.
  - apply Hc.
    + vm_compute. lia.
    + now left.
    + vm_compute. reflexivity.
    + vm_compute. reflexivity.
Defined.

(** X10.  The compiled scorer never gives a negative score, and no more
    than the 30 of an exact match or three points for each counted term
    plus 50. *)
Theorem score_bounds :
  forall q m,
    0 <= MethodsSearch.score q m
    /\ MethodsSearch.score q m
       <= Z.max 30 (3 * countedTerms (hayOf m) q + 50).
Proof.
  intros q m. unfold MethodsSearch.score. cbv zeta.
  destruct (String.eqb (hayOf m) ""); [lia |].
  destruct (negb (String.eqb q "") && includes (hayOf m) q); [lia |].
  unfold MethodsSearch.partialScore. cbv zeta.
  rewrite termPoints_counted.
  pose proof (countedTerms_nonneg (hayOf m) q).
  pose proof (entityBoost_bounds q m).
  pose proof (intentAdjust_bounds q m
                (3 * countedTerms (hayOf m) q + MethodsSearch.entityBoost q m)).
  lia.
Qed.

Lemma empty_query_partial (m : MethodSpec) :
  MethodsSearch.partialScore "" m = 0 /\ MethodsSearchTs.partialScore "" m = 0.
Proof.
  split; lazy;
    match goal with
    | |- context [match ?b with true => _ | false => _ end] => now destruct b
    | |- _ => reflexivity
    end.
Qed.

Lemma rankBy_nothing {A : Type} (score : A -> Z) (items : list A) (limit : nat) :
  (forall a, score a = 0) -> rankBy score items limit = [].
Proof.
  intros H. unfold rankBy.
  assert (E : filter (fun x : A * Z => 0 <? snd x)
                     (map (fun a => (a, score a)) items) = []).
  { induction items as [|b items IH]; [reflexivity |].
    simpl. now rewrite H. }
  rewrite E. now destruct limit.
Qed.

(** X11.  An empty query gives every method the score 0 in both scorers,
    so that a search without query text returns no candidate. *)
Theorem empty_query_scores_nothing :
  forall m methods limit,
    MethodsSearch.score "" m = 0
    /\ MethodsSearchTs.score "" m = 0
    /\ candidates MethodsSearch.score "" methods limit = []
    /\ candidates MethodsSearchTs.score "" methods limit = [].
Proof.
  assert (H1 : forall m, MethodsSearch.score "" m = 0).
  { intros m. unfold MethodsSearch.score. cbv zeta.
    destruct (String.eqb (hayOf m) ""); [reflexivity |].
    cbn [String.eqb negb andb]. apply empty_query_partial. }
  assert (H2 : forall m, MethodsSearchTs.score "" m = 0).
  { intros m. unfold MethodsSearchTs.score. cbv zeta.
    destruct (String.eqb (hayOf m) ""); [reflexivity |].
    cbn [String.eqb negb andb]. apply empty_query_partial. }
  intros m methods limit.
  split; [apply H1 |]. split; [apply H2 |].
  split.
  - change (candidates MethodsSearch.score "" methods limit)
      with (rankBy (MethodsSearch.score "") methods limit).
    now apply rankBy_nothing.
  - change (candidates MethodsSearchTs.score "" methods limit)
      with (rankBy (MethodsSearchTs.score "") methods limit).
    now apply rankBy_nothing.
Qed.

End SearchFacts.

(* ------------------------------------------------------------------ *)
(** ** Endpoint search *)

Module EndpointsSearchFacts.
Import JsString AiEndpoints EndpointsSearch Ranking RankingFacts.
Local Open Scope Z_scope.

Lemma termStep_matched (hay : string) (score : Z) (term : string) :
  termStep hay score term
  = score + (if negb (String.eqb term "") && includes hay term then 2 else 0).
Proof.
  unfold termStep.
  destruct (String.eqb term ""); cbn [negb andb]; [lia |].
  destruct (includes hay term); lia.
Qed.

Lemma fold_termStep_matched (hay : string) (terms : list string) :
  forall score,
    fold_left (termStep hay) terms score
    = score
      + 2 * Z.of_nat
              (List.length
                 (filter (fun term => negb (String.eqb term "") && includes hay term)
                         terms)).
Proof.
  induction terms as [|t terms IH]; intros score; cbn [fold_left filter].
  - cbn [List.length]. lia.
  - rewrite IH, termStep_matched.
    destruct (negb (String.eqb t "") && includes hay t); cbn [List.length]; lia.
Qed.

Lemma includes_empty (s : string) : includes s "" = true.
Proof.
  destruct s; reflexivity.
Qed.

Lemma startsWith_split (p : string) :
  forall s, startsWith s p = true -> exists r, s = (p ++ r)%string.
Proof.
  unfold startsWith.
  induction p as [|c p IH]; intros s H.
  - now exists s.
  - destruct s as [|d s]; [discriminate H |].
    simpl in H. destruct (ascii_dec c d) as [<- |]; [| discriminate H].
    destruct (IH s H) as [r ->]. now exists r.
Qed.

Lemma dropTrailing_nonempty (cls : ascii -> bool) (c : ascii) (r : string) :
  cls c = false -> dropTrailing cls (String c r) <> EmptyString.
Proof.
  intros Hc. simpl. destruct (dropTrailing cls r); [| discriminate].
  rewrite Hc. discriminate.
Qed.

Lemma hay_of_api_path (ep : DiscoveredEndpoint) :
  startsWith (pathTemplate ep) "/api/" = true ->
  String.eqb (hayOf ep) "" = false.
Proof.
  intros H. destruct (startsWith_split _ _ H) as [r E].
  apply String.eqb_neq. unfold hayOf, SearchCommon.normalize, trim, join.
  rewrite E. cbn [String.concat String.append].
  unfold toLowerCase.
  cbn [mapChars replaceRuns dropLeading].
  change (lowerChar "/") with "/"%char.
  change (lowerChar "a") with "a"%char.
  change (lowerChar "p") with "p"%char.
  change (lowerChar "i") with "i"%char.
  change (negb (isLowerAlnum "/")) with true.
  change (negb (isLowerAlnum "a")) with false.
  change (negb (isLowerAlnum "p")) with false.
  change (negb (isLowerAlnum "i")) with false.
  cbn iota.
  change (isSpace " ") with true. change (isSpace "a") with false.
  cbn iota.
  now apply dropTrailing_nonempty.
Qed.

(** X12.  An endpoint never scores below zero.  When its searchable text
    is not empty, a query that occurs in it scores 10, any other query
    two points for each of its non-empty terms found in the text, and the
    empty query, which occurs in every text, scores 10. *)
Theorem scoreEndpoint_values :
  forall q ep,
    0 <= scoreEndpoint q ep
    /\ (String.eqb (hayOf ep) "" = false ->
        (includes (hayOf ep) q = true -> scoreEndpoint q ep = 10)
        /\ (includes (hayOf ep) q = false ->
            scoreEndpoint q ep = 2 * Z.of_nat (List.length (matched (hayOf ep) q)))
        /\ scoreEndpoint "" ep = 10).
Proof.
  intros q ep. unfold scoreEndpoint. cbv zeta. split.
  - destruct (String.eqb (hayOf ep) ""); [lia |].
    destruct (includes (hayOf ep) q); [lia |].
    rewrite fold_termStep_matched. lia.
  - intros Hh. rewrite Hh. repeat split.
    + intros Hi. now rewrite Hi.
    + intros Hi. rewrite Hi, fold_termStep_matched. reflexivity.
    + now rewrite includes_empty.
Qed.

(** X13.  For endpoints whose paths start with ['/api/'], as all
    discovered ones do, a search with an empty query returns the first
    [limit] endpoints in the order they were given. *)
Theorem empty_query_lists_endpoints :
  forall endpoints limit,
    (forall ep, In ep endpoints -> startsWith (pathTemplate ep) "/api/" = true) ->
    candidates "" endpoints limit = firstn limit endpoints.
Proof.
  intros endpoints limit H. unfold candidates.
  apply (rankBy_level _ _ 10); [lia |].
  intros ep Hep. unfold scoreEndpoint. cbv zeta.
  rewrite (hay_of_api_path ep (H ep Hep)). now rewrite includes_empty.
Qed.

Lemma scoreEndpoint_values_witness :
  scoreEndpoint "companies"
    {| pathTemplate := "/api/crm/companies"; methods := ["GET"; "POST"];
       summary := None; methodDocs := None |}
  = 10.
Proof.
  destruct (scoreEndpoint_values "companies"
              {| pathTemplate := "/api/crm/companies"; methods := ["GET"; "POST"];
                 summary := None; methodDocs := None |})
    as [_ H].
  destruct (H eq_refl) as [Hi _]. exact (Hi eq_refl).
Defined.

Lemma empty_query_lists_endpoints_witness :
  candidates "" DiscoveryNotions.crmEndpoints 1
  = firstn 1 DiscoveryNotions.crmEndpoints.
Proof.
  apply (empty_query_lists_endpoints DiscoveryNotions.crmEndpoints 1).
  intros ep [<- | [<- | []]]; reflexivity.
Defined.

End EndpointsSearchFacts.

(* ------------------------------------------------------------------ *)
(** ** The action broker: what else it guarantees *)

Module BrokerFacts.
Import JsString Js AiPolicy Execute BrokerNotions BulkNotions BatchGate ExecuteRoute.
Import BrokerExamples.
Local Open Scope Z_scope.

Section Guarantees.

Variable World : Type.
Variable fetch : World -> FetchCall -> World * option Response.
Variable buildUrl : string -> string -> list (string * string) -> string.
Variable stringify : value -> string.
Variable parseJson : string -> option value.

Local Abbreviation httpRequest := (httpRequest fetch buildUrl stringify parseJson).
Local Abbreviation forward := (forward fetch buildUrl stringify parseJson).
Local Abbreviation bulkLoop := (bulkLoop fetch buildUrl stringify parseJson).
Local Abbreviation bulkProceed := (bulkProceed fetch buildUrl stringify parseJson).
Local Abbreviation httpBulk := (httpBulk fetch buildUrl stringify parseJson).

(** What a forwarded call leaves behind. *)
Lemma forward_trace request method pathRaw input w log :
  (callsOf (forward request method pathRaw input w log) = log
   /\ fst (fst (forward request method pathRaw input w log)) = w
   /\ outcomeOf (forward request method pathRaw input w log) = None)
  \/ (exists params,
        searchParamsOf (queryOf input) = Some params
        /\ callsOf (forward request method pathRaw input w log)
           = (log ++ [ {| call_url := buildUrl (req_url request) pathRaw params;
                          call_init := initOf stringify request method input |} ])%list
        /\ forall r, outcomeOf (forward request method pathRaw input w log) = Some r ->
                     exists st resp, body r = ExecBody st (buildUrl (req_url request) pathRaw params)
                                                       method resp).
Proof.
  unfold Execute.forward, bind, lift, doFetch, callsOf, outcomeOf.
  destruct (searchParamsOf (queryOf input)) as [params|].
  - right. exists params. split; [reflexivity |]. unfold ret.
    destruct (fetch w _) as [w' [resp|]]; cbn [fst snd].
    + split; [reflexivity |]. intros r H. injection H as <-.
      now eexists _, _.
    + split; [reflexivity | discriminate].
  - left. unfold throw. cbn [fst snd]. auto.
Qed.

(** X14.  A call whose method is GET is never answered by a draft, and
    neither the approval flag nor the operator's switches change what the
    broker does with it. *)
Theorem get_call_ignores_approval :
  forall env env' request input approved w log,
    methodOf input = "GET" ->
    httpRequest env request input w log
    = httpRequest env' request (withApproved input approved) w log
    /\ (forall r, outcomeOf (httpRequest env request input w log) = Some r ->
                  isDraft r = false).
Proof.
  intros env env' request input approved w log Hm.
  assert (Hg : forall e i,
             methodOf i = "GET" ->
             httpRequest e request i w log
             = if negb (startsWith (pathOf i) "/api/")
               then (w, log, Some {| status := 400;
                                     body := ErrorBody "path must start with '/api/'" |})
               else if startsWith (pathOf i) "/api/ai/"
               then (w, log, Some {| status := 400;
                                     body := ErrorBody "Refusing to call /api/ai/* endpoints" |})
               else forward request "GET" (pathOf i) i w log).
  { intros e i Hi. unfold Execute.httpRequest. cbv zeta. rewrite Hi.
    cbn [String.eqb Ascii.eqb Bool.eqb negb andb].
    destruct (negb (startsWith (pathOf i) "/api/")); [reflexivity |].
    destruct (startsWith (pathOf i) "/api/ai/"); reflexivity. }
  split.
  - rewrite (Hg env input Hm), (Hg env' (withApproved input approved) Hm).
    reflexivity.
  - intros r. rewrite (Hg env input Hm).
    destruct (negb (startsWith (pathOf input) "/api/")).
    + intros H. injection H as <-. reflexivity.
    + destruct (startsWith (pathOf input) "/api/ai/").
      * intros H. injection H as <-. reflexivity.
      * intros H.
        destruct (forward_trace request "GET" (pathOf input) input w log)
          as [(_ & _ & Hn) | (params & _ & _ & Hb)]; [congruence |].
        destruct (Hb r H) as (st & resp & E). unfold isDraft. now rewrite E.
Qed.

(** X15.  A single call makes at most one network call, and only for a
    path that starts with ['/api/'] outside ['/api/ai/']: the log either
    stays as it is, or grows by the one call to the URL built from that
    path, with the normalized method and the headers of the request.  A
    call answered by a draft or a rejection leaves log and host
    untouched. *)
Theorem single_call_network :
  forall env request input w log,
    ((callsOf (httpRequest env request input w log) = log
      /\ fst (fst (httpRequest env request input w log)) = w)
     \/ (exists params,
           validPath input = true
           /\ searchParamsOf (queryOf input) = Some params
           /\ callsOf (httpRequest env request input w log)
              = (log ++ [ {| call_url :=
                               buildUrl (req_url request) (pathOf input) params;
                             call_init :=
                               initOf stringify request (methodOf input) input |} ])%list))
    /\ (forall r,
          outcomeOf (httpRequest env request input w log) = Some r ->
          isDraft r || isValidationError r = true ->
          callsOf (httpRequest env request input w log) = log
          /\ fst (fst (httpRequest env request input w log)) = w).
Proof.
  intros env request input w log.
  unfold Execute.httpRequest. cbv zeta. unfold validPath.
  destruct (startsWith (pathOf input) "/api/"); cbn [negb andb];
    [| split; [left |]; split; reflexivity].
  destruct (startsWith (pathOf input) "/api/ai/"); cbn [negb andb];
    [split; [left |]; split; reflexivity |].
  destruct (_ && _ && _); [split; [left |]; split; reflexivity |].
  destruct (forward_trace request (methodOf input) (pathOf input) input w log)
    as [(Hc & Hw & Hn) | (params & Hq & Hc & Hb)].
  - split; [left; auto |]. intros r Hr. congruence.
  - split.
    + right. exists params. auto.
    + intros r Hr Hd. exfalso.
      destruct (Hb r Hr) as (st & resp & E).
      unfold isDraft, isValidationError in Hd. rewrite E in Hd.
      rewrite andb_false_r in Hd. discriminate Hd.
Qed.

Lemma headersOf_spec :
  forall request k v,
    In (k, v) (headersOf request)
    <-> (k = "authorization" /\ req_authorization request = Some v /\ v <> "")
        \/ (k = "cookie" /\ req_cookie request = Some v /\ v <> "")
        \/ (k = "content-type" /\ v = "application/json").
Proof using.
  clear fetch buildUrl stringify parseJson.
  intros request k v. unfold headersOf. cbv zeta.
  destruct (req_authorization request) as [auth|];
    destruct (req_cookie request) as [cookie|];
    repeat match goal with
           | |- context [String.eqb ?s ""] =>
               destruct (String.eqb_spec s "")
           end;
    cbn [app In]; split;
    try (intros H;
         repeat match goal with
                | H : _ \/ _ |- _ => destruct H as [H | H]
                | H : (_, _) = (_, _) |- _ => injection H as <- <-
                | H : False |- _ => destruct H
                end;
         first [ left; repeat split; congruence
               | right; left; repeat split; congruence
               | right; right; repeat split; congruence ]);
    try (intros [(-> & H & N) | [(-> & H & N) | (-> & ->)]];
         try (injection H as ->); try discriminate H;
         first [ congruence | tauto | contradiction | auto ]).
Qed.

Lemma httpRequest_calls env request input w log :
  callsOf (httpRequest env request input w log) = log
  \/ exists params,
       callsOf (httpRequest env request input w log)
       = (log ++ [ {| call_url := buildUrl (req_url request) (pathOf input) params;
                      call_init := initOf stringify request (methodOf input) input |} ])%list.
Proof.
  unfold Execute.httpRequest. cbv zeta.
  destruct (startsWith (pathOf input) "/api/"); cbn [negb]; [| now left].
  destruct (startsWith (pathOf input) "/api/ai/"); [now left |].
  destruct (_ && _ && _); [now left |].
  destruct (forward_trace request (methodOf input) (pathOf input) input w log)
    as [(Hc & _) | (params & _ & Hc & _)]; [now left |].
  right. now exists params.
Qed.

(** X16.  Every network call a single call makes carries exactly these
    headers: the content type [application/json] and, unchanged, the
    authorization and the cookie of the incoming request when these are
    present and not empty; nothing else is sent and no credential is made
    up. *)
Theorem forwarded_headers :
  forall env request input w log,
    exists calls,
      callsOf (httpRequest env request input w log) = (log ++ calls)%list
      /\ forall c k v,
           In c calls ->
           (In (k, v) (init_headers (call_init c))
            <-> (k = "authorization" /\ req_authorization request = Some v /\ v <> "")
                \/ (k = "cookie" /\ req_cookie request = Some v /\ v <> "")
                \/ (k = "content-type" /\ v = "application/json")).
Proof.
  intros env request input w log.
  destruct (httpRequest_calls env request input w log) as [Hc | (params & Hc)].
  - exists []. rewrite app_nil_r. split; [exact Hc |]. intros c k v [].
  - eexists. split; [exact Hc |].
    intros c k v [<- | []]. cbn [call_init initOf init_headers].
    apply headersOf_spec.
Qed.

Lemma some_verbs (f : string -> bool) (reqs : list value) :
  verbsReadable reqs = true ->
  some (fun r => option_map f (entryVerb r)) reqs
  = Some (existsb (verbIs f) reqs).
Proof.
  unfold verbsReadable, verbIs.
  induction reqs as [|r reqs IH]; intros H; [reflexivity |].
  cbn [forallb] in H. apply andb_true_iff in H. destruct H as [Hr Hrest].
  cbn [some existsb]. destruct (entryVerb r) as [v|]; [| discriminate Hr].
  cbn [option_map]. destruct (f v); [reflexivity |].
  now rewrite (IH Hrest).
Qed.

Lemma bind_lift' {A B : Type} (o : option A) (k : A -> M World B) w log :
  bind (lift o) k w log
  = match o with
    | Some a => k a w log
    | None => (w, log, None)
    end.
Proof.
  destruct o; reflexivity.
Qed.

Lemma httpBulk_gate env request input reqs w log :
  in_requests input = Arr reqs ->
  (1 <= List.length reqs <= 50)%nat ->
  verbsReadable reqs = true ->
  httpBulk env request input w log
  = if bulkHeld env reqs (bulk_approved input)
    then (w, log, Some (bulkDraft reqs))
    else bind (bulkLoop env request reqs [] 0 0)
              (fun out =>
                 let '(results, ok, failed) := out in
                 ret {| status := 200;
                        body := BulkBody (if failed =? 0 then 200 else 207)
                                         ok failed results |}) w log.
Proof.
  intros Hin Hlen Hv.
  unfold Execute.httpBulk. cbv zeta. rewrite Hin.
  destruct (Nat.eqb_spec (List.length reqs) 0) as [H0 | _]; [lia |].
  destruct (Nat.ltb_spec 50 (List.length reqs)) as [H50 | _]; [lia |].
  unfold Execute.bulkProceed. cbv zeta.
  rewrite bind_lift', (some_verbs _ reqs Hv).
  rewrite bind_lift', (some_verbs _ reqs Hv).
  unfold bulkHeld, anyWrite, anyDelete.
  destruct (_ && _ && _); reflexivity.
Qed.

Lemma batch_gate_held env request input reqs w log :
  in_requests input = Arr reqs ->
  (1 <= List.length reqs <= 50)%nat ->
  verbsReadable reqs = true ->
  bulkHeld env reqs (bulk_approved input) = true ->
  httpBulk env request input w log = (w, log, Some (bulkDraft reqs)).
Proof.
  intros Hin Hlen Hv Hh. rewrite (httpBulk_gate _ _ _ reqs) by assumption.
  now rewrite Hh.
Qed.

(** X17.  A batch of 1 to 50 entries whose verbs have a string form is
    answered by the draft of the whole batch, with [approved: false] and
    without touching log or host, exactly when some entry is not a GET,
    the batch is not approved, and auto-approve-writes is off or an entry
    is a DELETE while auto-approve-delete is off; otherwise the entries
    are run and what is returned is an aggregate, never a draft. *)
Theorem batch_gate :
  forall env request input reqs w log,
    in_requests input = Arr reqs ->
    (1 <= List.length reqs <= 50)%nat ->
    verbsReadable reqs = true ->
    (bulkHeld env reqs (bulk_approved input) = true ->
     httpBulk env request input w log = (w, log, Some (bulkDraft reqs)))
    /\ (bulkHeld env reqs (bulk_approved input) = false ->
        forall r, outcomeOf (httpBulk env request input w log) = Some r ->
                  isBulkResult r = true).
Proof.
  intros env request input reqs w log Hin Hlen Hv.
  pose proof (httpBulk_gate env request input reqs w log Hin Hlen Hv) as E.
  rewrite E. split; intros Hh; rewrite Hh; [reflexivity |].
  intros r. unfold bind.
  destruct (bulkLoop env request reqs [] 0 0 w log)
    as [[w' log'] [[[results ok] failed]|]]; [| discriminate].
  unfold ret, outcomeOf. cbn [snd]. intros H. injection H as <-. reflexivity.
Qed.

Lemma entry_without_method (r : value) :
  truthy (optProp r "method") = false -> entryVerb r = Some EmptyString.
Proof.
  intros H. unfold entryVerb, or_. rewrite H. reflexivity.
Qed.

Lemma existsb_in {A : Type} (f : A -> bool) (l : list A) (x : A) :
  In x l -> f x = true -> existsb f l = true.
Proof.
  intros Hin Hf. apply existsb_exists. now exists x.
Qed.

(** X18.  A batch entry without a method (absent, empty or otherwise
    falsy) counts as a write in the approval test of the batch: a batch
    holding one, not approved, is answered by a draft when
    auto-approve-writes is off, although the entry run on its own is taken
    for a GET. *)
Theorem entry_without_method_holds_batch :
  forall env request input reqs r w log,
    in_requests input = Arr reqs ->
    (1 <= List.length reqs <= 50)%nat ->
    verbsReadable reqs = true ->
    In r reqs ->
    truthy (optProp r "method") = false ->
    truthy (bulk_approved input) = false ->
    autoApproveWritesEnabled env = false ->
    httpBulk env request input w log = (w, log, Some (bulkDraft reqs))
    /\ (forall single, entryInput r = Some single -> methodOf single = "GET").
Proof.
  intros env request input reqs r w log Hin Hlen Hv Hr Hm Ha Hw. split.
  - apply (batch_gate_held env request input reqs w log Hin Hlen Hv).
    unfold bulkHeld. rewrite Ha, Hw, orb_true_r, andb_true_r. cbn [negb].
    rewrite andb_true_r. unfold anyWrite.
    apply (existsb_in _ _ r Hr). unfold verbIs.
    now rewrite (entry_without_method r Hm).
  - intros single Hs. unfold entryInput in Hs.
    destruct (getProp r "method") as [m|] eqn:Em; [| discriminate Hs].
    destruct (getProp r "path"); [| discriminate Hs].
    destruct (getProp r "query"); [| discriminate Hs].
    destruct (getProp r "body"); [| discriminate Hs].
    injection Hs as <-. unfold methodOf. cbn [in_method].
    unfold optProp in Hm. rewrite Em in Hm.
    destruct m as [| | b | n | s | items | fields]; try reflexivity; try discriminate Hm.
    cbn [truthy] in Hm. apply negb_false_iff, String.eqb_eq in Hm. now subst.
Qed.

Lemma approved_call_settled env request input w log :
  truthy (in_approved input) = true ->
  (List.length (callsOf (httpRequest env request input w log))
   <= S (List.length log))%nat
  /\ forall r, outcomeOf (httpRequest env request input w log) = Some r ->
               settled (body r) = true.
Proof.
  intros Ha. unfold Execute.httpRequest. cbv zeta. rewrite Ha.
  cbn [negb]. rewrite andb_false_r. cbn [andb].
  destruct (negb (startsWith (pathOf input) "/api/")).
  { split; [cbn; lia |]. intros r H. injection H as <-. reflexivity. }
  destruct (startsWith (pathOf input) "/api/ai/").
  { split; [cbn; lia |]. intros r H. injection H as <-. reflexivity. }
  destruct (forward_trace request (methodOf input) (pathOf input) input w log)
    as [(Hc & _ & Hn) | (params & _ & Hc & Hb)].
  - rewrite Hc. split; [lia | congruence].
  - rewrite Hc, length_app. cbn [List.length]. split; [lia |].
    intros r Hr. destruct (Hb r Hr) as (st & resp & E). now rewrite E.
Qed.

Lemma entryInput_approved (r : value) (input : RequestInput) :
  entryInput r = Some input -> truthy (in_approved input) = true.
Proof.
  unfold entryInput.
  destruct (getProp r "method"); [| discriminate].
  destruct (getProp r "path"); [| discriminate].
  destruct (getProp r "query"); [| discriminate].
  destruct (getProp r "body"); [| discriminate].
  intros H. injection H as <-. reflexivity.
Qed.

Lemma bulkLoop_returns env request (reqs : list value) :
  forall results ok failed w log w' log' results' ok' failed',
    bulkLoop env request reqs results ok failed w log
    = (w', log', Some (results', ok', failed')) ->
    exists bodies,
      results' = (results ++ bodies)%list
      /\ List.length bodies = List.length reqs
      /\ ok' = ok + countOk bodies
      /\ failed' = failed + countFailed bodies
      /\ forallb settled bodies = true
      /\ (List.length log' <= List.length log + List.length reqs)%nat.
Proof.
  induction reqs as [|r rest IH];
    intros results ok failed w log w' log' results' ok' failed' H.
  - cbn [Execute.bulkLoop] in H. unfold ret in H. injection H as <- <- <- <- <-.
    exists []. rewrite app_nil_r.
    change (countOk []) with 0. change (countFailed []) with 0.
    cbn [List.length forallb]. repeat split; lia.
  - cbn [Execute.bulkLoop] in H. rewrite bind_lift' in H.
    destruct (entryInput r) as [input|] eqn:Ei; [| discriminate H].
    unfold bind at 1 in H.
    destruct (approved_call_settled env request input w log
                (entryInput_approved _ _ Ei)) as [Hlen Hset].
    destruct (httpRequest env request input w log) as [[w1 log1] [res|]] eqn:Eres;
      [| discriminate H].
    unfold callsOf in Hlen. cbn [fst snd] in Hlen.
    specialize (Hset res eq_refl).
    destruct (isOk (body res)) eqn:Eok.
    + destruct (IH _ _ _ _ _ _ _ _ _ _ H)
        as (bodies & -> & Hl & -> & -> & Hs & Hc).
      exists (body res :: bodies).
      rewrite <- app_assoc. cbn [app List.length forallb].
      rewrite (BulkFacts.countOk_cons (body res)),
        (BulkFacts.countFailed_cons (body res)), Eok, Hset, Hs.
      repeat split; lia.
    + destruct (IH _ _ _ _ _ _ _ _ _ _ H)
        as (bodies & -> & Hl & -> & -> & Hs & Hc).
      exists (body res :: bodies).
      rewrite <- app_assoc. cbn [app List.length forallb].
      rewrite (BulkFacts.countOk_cons (body res)),
        (BulkFacts.countFailed_cons (body res)), Eok, Hset, Hs.
      repeat split; lia.
Qed.

(** X19.  Whenever a batch returns an aggregate, it holds one result for
    each entry, none of them a draft; [ok] and [failed] are the numbers
    of results with and without a status from 200 to 299 and add up to the
    number of entries; the status is 200 when nothing failed and 207
    otherwise; and the batch made at most one network call for each
    entry. *)
Theorem batch_aggregate :
  forall env request input w log r st ok failed results,
    outcomeOf (httpBulk env request input w log) = Some r ->
    body r = BulkBody st ok failed results ->
    exists reqs,
      in_requests input = Arr reqs
      /\ List.length results = List.length reqs
      /\ ok = countOk results
      /\ failed = countFailed results
      /\ ok + failed = Z.of_nat (List.length reqs)
      /\ st = (if failed =? 0 then 200 else 207)
      /\ forallb settled results = true
      /\ (List.length (callsOf (httpBulk env request input w log))
          <= List.length log + List.length reqs)%nat.
Proof.
  intros env request input w log r st ok failed results.
  unfold Execute.httpBulk. cbv zeta.
  destruct (in_requests input) as [| | b | n | s | reqs | fields];
    try (unfold ret, outcomeOf; cbn [snd]; intros H; injection H as <-;
         discriminate).
  destruct (Nat.eqb (List.length reqs) 0);
    [unfold ret, outcomeOf; cbn [snd]; intros H; injection H as <-; discriminate |].
  destruct (Nat.ltb 50 (List.length reqs));
    [unfold ret, outcomeOf; cbn [snd]; intros H; injection H as <-; discriminate |].
  unfold Execute.bulkProceed. cbv zeta.
  rewrite bind_lift'. destruct (some _ reqs) as [anyW|]; [| discriminate].
  rewrite bind_lift'. destruct (some _ reqs) as [anyD|]; [| discriminate].
  destruct (_ && _ && _);
    [unfold ret, outcomeOf; cbn [snd]; intros H; injection H as <-; discriminate |].
  unfold bind.
  destruct (bulkLoop env request reqs [] 0 0 w log)
    as [[w' log'] [[[results' ok'] failed']|]] eqn:El; [| discriminate].
  unfold ret, outcomeOf, callsOf. cbn [fst snd].
  intros H Hb. injection H as <-. cbn [body] in Hb.
  injection Hb as <- <- <- <-.
  destruct (bulkLoop_returns _ _ _ _ _ _ _ _ _ _ _ _ _ El)
    as (bodies & -> & Hl & -> & -> & Hs & Hc).
  exists reqs. cbn [app]. rewrite !Z.add_0_l.
  repeat split; auto.
  rewrite BulkFacts.counts_total, Hl. reflexivity.
Qed.

(** X20.  The route handler answers a caller without identity with status
    401, whatever the body; and it touches the network only for a caller
    with an identity whose body names one of the two tools
    [http.request] and [http.bulk]. *)
Theorem route_requires_identity_and_tool :
  forall (User : Type) (user : option User) json env request w log,
    (user = None ->
     POST fetch buildUrl stringify parseJson user json env request w log
     = (w, log, Some {| status := 401; body := ErrorBody "Unauthorized" |}))
    /\ (callsOf (POST fetch buildUrl stringify parseJson user json env request w log)
        <> log ->
        user <> None
        /\ exists body tool,
             json = Some body
             /\ getProp body "toolName" = Some (Str tool)
             /\ (tool = "http.request" \/ tool = "http.bulk")).
Proof.
  intros User user json env request w log. split.
  - intros ->. reflexivity.
  - unfold POST. destruct user as [u|]; [| intros H; now elim H].
    destruct json as [body|]; [| intros H; now elim H].
    rewrite bind_lift'.
    destruct (getProp body "toolName") as [toolName|] eqn:Et;
      [| intros H; now elim H].
    rewrite bind_lift'.
    destruct (getProp body "input") as [rawInput|]; [| intros H; now elim H].
    cbv zeta.
    destruct (isTool toolName "http.request") eqn:E1.
    { intros _. split; [discriminate |].
      destruct toolName; try discriminate E1.
      apply String.eqb_eq in E1. subst. eexists _, _. eauto. }
    destruct (isTool toolName "http.bulk") eqn:E2.
    { intros _. split; [discriminate |].
      destruct toolName; try discriminate E2.
      apply String.eqb_eq in E2. subst. eexists _, _. eauto. }
    rewrite bind_lift'. destruct (toStr toolName); intros H; now elim H.
Qed.

End Guarantees.

Lemma get_call_ignores_approval_witness :
  Execute.httpRequest hostFetch hostUrl hostStringify hostParse production
    overlayRequest (call (Str "get") "/api/crm/companies" (Bool false)) 0%nat []
  = Execute.httpRequest hostFetch hostUrl hostStringify hostParse development
      overlayRequest
      (withApproved (call (Str "get") "/api/crm/companies" (Bool false)) (Bool true))
      0%nat [].
Proof.
  exact (proj1 (get_call_ignores_approval nat hostFetch hostUrl hostStringify
                  hostParse production development overlayRequest
                  (call (Str "get") "/api/crm/companies" (Bool false))
                  (Bool true) 0%nat [] eq_refl)).
Defined.

Lemma single_call_network_witness :
  callsOf
    (Execute.httpRequest hostFetch hostUrl hostStringify hostParse production
       overlayRequest (call (Str "POST") "/api/crm/companies" (Bool false)) 0%nat [])
  = []
  /\ fst (fst
       (Execute.httpRequest hostFetch hostUrl hostStringify hostParse production
          overlayRequest (call (Str "POST") "/api/crm/companies" (Bool false))
          0%nat []))
     = 0%nat.
Proof.
  destruct (single_call_network nat hostFetch hostUrl hostStringify hostParse
              production overlayRequest
              (call (Str "POST") "/api/crm/companies" (Bool false)) 0%nat [])
    as [_ H].
  exact (H (requestDraft "POST" "/api/crm/companies"
              (call (Str "POST") "/api/crm/companies" (Bool false)))
           eq_refl eq_refl).
Defined.

Lemma forwarded_headers_witness :
  exists calls,
    callsOf
      (Execute.httpRequest hostFetch hostUrl hostStringify hostParse production
         overlayRequest (call (Str "POST") "/api/crm/companies" (Bool true)) 0%nat [])
    = ([] ++ calls)%list
    /\ forall c, In c calls ->
                 In ("authorization", "Bearer token") (init_headers (call_init c)).
Proof.
  destruct (forwarded_headers nat hostFetch hostUrl hostStringify hostParse
              production overlayRequest
              (call (Str "POST") "/api/crm/companies" (Bool true)) 0%nat [])
    as (calls & Hc & Hh).
  exists calls. split; [exact Hc |].
  intros c Hin. apply (Hh c "authorization" "Bearer token" Hin).
  left. repeat split. discriminate.
Defined.

Lemma batch_gate_witness :
  Execute.httpBulk hostFetch hostUrl hostStringify hostParse production
    overlayRequest (batch [entry "POST" "/api/crm/companies"] (Bool false)) 0%nat []
  = (0%nat, [], Some (bulkDraft [entry "POST" "/api/crm/companies"])).
Proof.
  assert (Hlen : (1 <= List.length [entry "POST" "/api/crm/companies"] <= 50)%nat)
    by (simpl; lia).
  destruct (batch_gate nat hostFetch hostUrl hostStringify hostParse production
              overlayRequest (batch [entry "POST" "/api/crm/companies"] (Bool false))
              [entry "POST" "/api/crm/companies"] 0%nat [] eq_refl Hlen eq_refl)
    as [H _].
  exact (H eq_refl).
Defined.

Lemma entry_without_method_holds_batch_witness :
  Execute.httpBulk hostFetch hostUrl hostStringify hostParse production
    overlayRequest (batch [bareEntry] (Bool false)) 0%nat []
  = (0%nat, [], Some (bulkDraft [bareEntry])).
Proof.
  assert (Hlen : (1 <= List.length [bareEntry] <= 50)%nat) by (simpl; lia).
  exact (proj1 (entry_without_method_holds_batch nat hostFetch hostUrl
                  hostStringify hostParse production overlayRequest
                  (batch [bareEntry] (Bool false)) [bareEntry] bareEntry 0%nat []
                  eq_refl Hlen eq_refl (or_introl eq_refl) eq_refl eq_refl eq_refl)).
Defined.

Lemma batch_aggregate_witness :
  exists reqs,
    in_requests (batch threeCalls (Bool true)) = Arr reqs
    /\ List.length threeResults = List.length reqs
    /\ forallb settled threeResults = true.
Proof.
  assert (Ho : outcomeOf
                 (Execute.httpBulk steadyFetch hostUrl hostStringify hostParse
                    production overlayRequest (batch threeCalls (Bool true)) 0%nat [])
               = Some {| status := 200; body := BulkBody 207 2 1 threeResults |})
    by (vm_compute; reflexivity).
  destruct (batch_aggregate nat steadyFetch hostUrl hostStringify hostParse
              production overlayRequest (batch threeCalls (Bool true)) 0%nat []
              _ 207 2 1 threeResults Ho eq_refl)
    as (reqs & H1 & H2 & _ & _ & _ & _ & H7 & _).
  exists reqs. auto.
Defined.

Lemma route_requires_identity_and_tool_witness :
  POST hostFetch hostUrl hostStringify hostParse nobody
    (Some (Obj [ ("toolName", Str "http.request");
                 ("input", Obj [ ("path", Str "/api/crm/companies") ]) ]))
    development overlayRequest 0%nat []
  = (0%nat, [], Some {| status := 401; body := ErrorBody "Unauthorized" |}).
Proof.
  exact (proj1 (route_requires_identity_and_tool nat hostFetch hostUrl
                  hostStringify hostParse unit nobody _ development
                  overlayRequest 0%nat [])
               eq_refl).
Defined.

End BrokerFacts.

(* ------------------------------------------------------------------ *)
(** ** Discovery: what the scan finds *)

Module RouteFilesFacts.
Import JsString AiEndpoints DiscoveryNotions RouteFiles.

Lemma walk_dir (dir : list string) (entries : list (string * FsNode)) :
  walk dir (Dir entries) = flat_map (walkEntry dir) entries.
Proof.
  induction entries as [|[entryName e] rest IH]; [reflexivity |].
  cbn [flat_map]. rewrite <- IH. unfold walkEntry. cbn [fst snd].
  destruct e; reflexivity.
Qed.

Lemma FileAt_path (node : FsNode) (path : list string) (text : option string) :
  FileAt node path text -> path <> [].
Proof.
  intros H. destruct H; discriminate.
Qed.

Lemma walk_sound (node : FsNode) :
  forall pre dir text,
    In (dir, text) (walk pre node) ->
    exists rel, dir = (pre ++ rel)%list
                /\ FileAt node (rel ++ ["route.ts"])%list text.
Proof.
  induction node as [t | | entries IH] using FsNode_induction;
    intros pre dir text Hin; try (destruct Hin).
  rewrite walk_dir in Hin. apply in_flat_map in Hin.
  destruct Hin as ([entryName e] & He & Hin).
  rewrite Forall_forall in IH. specialize (IH _ He). cbn [snd] in IH.
  unfold walkEntry in Hin. cbn [fst snd] in Hin.
  destruct e as [t | sub |].
  - destruct (String.eqb_spec entryName "route.ts") as [-> | _]; [| destruct Hin].
    destruct Hin as [E | []]. injection E as <- <-.
    exists []. rewrite app_nil_r. split; [reflexivity |].
    now apply FileHere.
  - destruct (IH _ _ _ Hin) as (rel & -> & Hf).
    exists (entryName :: rel). rewrite <- app_assoc. split; [reflexivity |].
    now apply FileBelow with (sub := sub).
  - destruct Hin.
Qed.

Lemma walk_complete (node : FsNode) (path : list string) (text : option string) :
  FileAt node path text ->
  forall pre rel, path = (rel ++ ["route.ts"])%list ->
                  In (pre ++ rel, text)%list (walk pre node).
Proof.
  induction 1 as [entries entryName text Hin
                 | entries entryName sub path text Hin Hf IH];
    intros pre rel E; rewrite walk_dir; apply in_flat_map.
  - destruct rel as [|x rel].
    + injection E as ->. exists ("route.ts", File text). split; [exact Hin |].
      unfold walkEntry. cbn [fst snd].
      rewrite app_nil_r. rewrite String.eqb_refl. now left.
    + exfalso. injection E as _ E. now destruct rel.
  - destruct rel as [|x rel].
    + exfalso. injection E as _ E. subst path.
      now apply FileAt_path in Hf.
    + injection E as <- E.
      exists (entryName, Dir sub). split; [exact Hin |].
      unfold walkEntry. cbn [fst snd].
      replace (pre ++ entryName :: rel)%list
        with ((pre ++ [entryName]) ++ rel)%list
        by (now rewrite <- app_assoc).
      now apply IH.
Qed.

Lemma walk_finds_route_files_iff (node : FsNode) (dir : list string) (text : option string) :
  In (dir, text) (walk [] node)
  <-> FileAt node (dir ++ ["route.ts"])%list text.
Proof.
  split.
  - intros H. destruct (walk_sound _ _ _ _ H) as (rel & -> & Hf). exact Hf.
  - intros H. exact (walk_complete _ _ _ H [] dir eq_refl).
Qed.

(** X21.  The walk from the API root finds exactly the files named
    [route.ts] that lie below it through directories, each with the names
    of the directories that lead to it. *)
Theorem walk_finds_route_files :
  forall node dir text,
    In (dir, text) (walk [] node)
    <-> FileAt node (dir ++ ["route.ts"])%list text.
Proof.
  intros node dir text. apply walk_finds_route_files_iff.
Qed.

Section Scan.

Variable FileSystem : Type.
Variable apiRootOf : FileSystem -> string -> option FsNode.
Variable extractMethods : string -> list string.
Variable extractDocs : string -> option string * option (list (string * string)).
Variable sortByPath : list DiscoveredEndpoint -> list DiscoveredEndpoint.

Local Abbreviation collect := (collect extractMethods extractDocs).
Local Abbreviation scanOf := (scanOf apiRootOf extractMethods extractDocs sortByPath).

Lemma collect_spec (files : list RouteFile) (ep : DiscoveredEndpoint) :
  In ep (collect files)
  <-> exists dir text,
        In (dir, Some text) files
        /\ extractMethods text <> []
        /\ ep = {| pathTemplate := routePathOf dir;
                   methods := extractMethods text;
                   summary := fst (extractDocs text);
                   methodDocs := snd (extractDocs text) |}.
Proof.
  induction files as [|[dir content] rest IH]; cbn [AiEndpoints.collect].
  - split; [intros [] | intros (dir & text & [] & _)].
  - destruct content as [text|].
    + destruct (extractMethods text) as [|m ms] eqn:Em; cbn [List.length Nat.eqb].
      * rewrite IH. split.
        -- intros (d & t & Hin & H). exists d, t. split; [now right | exact H].
        -- intros (d & t & [E | Hin] & Hne & H).
           ++ injection E as <- <-. congruence.
           ++ exists d, t. auto.
      * cbn [In]. rewrite IH. split.
        -- intros [<- | (d & t & Hin & H)].
           ++ exists dir, text. rewrite Em. repeat split; [now left | discriminate].
           ++ exists d, t. split; [now right | exact H].
        -- intros (d & t & [E | Hin] & Hne & H).
           ++ injection E as <- <-. left. rewrite H, Em. reflexivity.
           ++ right. exists d, t. auto.
    + rewrite IH. split.
      * intros (d & t & Hin & H). exists d, t. split; [now right | exact H].
      * intros (d & t & [E | Hin] & H); [discriminate E |].
        exists d, t. auto.
Qed.

(** X22.  When sorting only reorders the endpoints, a completed scan
    returns exactly one kind of endpoint: for a readable [route.ts] below
    the API root whose text declares at least one verb, the path ['/api/']
    followed by the directories that lead to the file, with these verbs
    and the documentation taken from that text; files that cannot be read
    or declare no verb give no endpoint. *)
Theorem scan_endpoints :
  forall fs projectRoot eps ep,
    (forall l, Permutation l (sortByPath l)) ->
    scanOf fs projectRoot = Some eps ->
    (In ep eps
     <-> exists node dir text,
           apiRootOf fs projectRoot = Some node
           /\ FileAt node (dir ++ ["route.ts"])%list (Some text)
           /\ extractMethods text <> []
           /\ ep = {| pathTemplate := ("/api/" ++ join "/" dir)%string;
                      methods := extractMethods text;
                      summary := fst (extractDocs text);
                      methodDocs := snd (extractDocs text) |}).
Proof.
  intros fs projectRoot eps ep Hsort. unfold DiscoveryNotions.scanOf.
  destruct (apiRootOf fs projectRoot) as [[t | entries |]|]; try discriminate.
  - intros H. injection H as <-. split.
    + intros Hin.
      apply (Permutation_in _ (Permutation_sym (Hsort _))) in Hin.
      apply collect_spec in Hin. destruct Hin as (dir & text & Hw & Hne & ->).
      exists (Dir entries), dir, text.
      pose proof (proj1 (walk_finds_route_files_iff (Dir entries) dir (Some text)) Hw).
      auto.
    + intros (node & dir & text & E & Hf & Hne & ->). injection E as <-.
      apply (Permutation_in _ (Hsort _)).
      apply collect_spec. exists dir, text.
      pose proof (proj2 (walk_finds_route_files_iff (Dir entries) dir (Some text)) Hf).
      auto.
  - intros H. injection H as <-. split; [intros [] |].
    intros (node & dir & text & E & _). discriminate E.
Qed.

End Scan.

Lemma walk_finds_route_files_witness :
  In (["health"], Some "export async function GET() {}")
     (walk [] (Dir [ ("health",
                      Dir [ ("route.ts",
                             File (Some "export async function GET() {}")) ]) ])).
Proof.
  apply (walk_finds_route_files
           (Dir [ ("health",
                   Dir [ ("route.ts",
                          File (Some "export async function GET() {}")) ]) ])
           ["health"] (Some "export async function GET() {}")).
  apply FileBelow
    with (sub := [ ("route.ts", File (Some "export async function GET() {}")) ]).
  - now left.
  - apply FileHere. now left.
Defined.

Lemma scan_endpoints_witness :
  exists node dir text,
    appRoot crmApp "/srv/app" = Some node
    /\ FileAt node (dir ++ ["route.ts"])%list (Some text)
    /\ verbsIn text <> [].
Proof.
  destruct (scan_endpoints (option FsNode) appRoot verbsIn noDocs keepOrder
              crmApp "/srv/app" crmEndpoints
              {| pathTemplate := "/api/health"; methods := ["GET"];
                 summary := None; methodDocs := None |}
              (fun l => Permutation_refl l) eq_refl)
    as [H _].
  destruct (H (or_intror (or_introl eq_refl)))
    as (node & dir & text & E & Hf & Hne & _).
  exists node, dir, text. auto.
Defined.

End RouteFilesFacts.

(* ------------------------------------------------------------------ *)
(** ** The caller's identity *)

Module AuthFacts.
Import JsString Js Auth TextShape AuthExamples.
Local Open Scope Z_scope.

Lemma length_mapChars (f : ascii -> ascii) (s : string) :
  String.length (mapChars f s) = String.length s.
Proof.
  induction s as [|c r IH]; simpl; [reflexivity | now rewrite IH].
Qed.

Lemma length_repeatChar (c : ascii) (n : nat) :
  String.length (repeatChar c n) = n.
Proof.
  induction n as [|n IH]; simpl; [reflexivity | now rewrite IH].
Qed.

Lemma length_app_string (a b : string) :
  String.length (a ++ b) = (String.length a + String.length b)%nat.
Proof.
  induction a as [|c a IH]; simpl; [reflexivity | now rewrite IH].
Qed.

Lemma allChars_app_string (ok : ascii -> bool) (a b : string) :
  allChars ok (a ++ b) = allChars ok a && allChars ok b.
Proof.
  induction a as [|c a IH]; simpl; [reflexivity |].
  now rewrite IH, andb_assoc.
Qed.

Lemma allChars_repeatChar (ok : ascii -> bool) (c : ascii) (n : nat) :
  ok c = true -> allChars ok (repeatChar c n) = true.
Proof.
  intros Hc. induction n as [|n IH]; simpl; [reflexivity | now rewrite Hc, IH].
Qed.

Lemma swapped_chars (s : string) :
  allChars (fun c => negb (Ascii.eqb c "-") && negb (Ascii.eqb c "_"))
           (mapChars (swapChar "_" "/") (mapChars (swapChar "-" "+") s)) = true.
Proof.
  induction s as [|c r IH]; simpl; [reflexivity |].
  rewrite IH, andb_true_r. unfold swapChar.
  destruct (Ascii.eqb_spec c "-") as [-> | N1]; [reflexivity |].
  destruct (Ascii.eqb_spec c "_") as [-> | N2]; [reflexivity |].
  apply Ascii.eqb_neq in N1, N2. now rewrite N1, N2.
Qed.

(** X23.  The text handed to the base64 decoder has a length that is a
    multiple of four, holds neither ['-'] nor ['_'], and is the payload
    part lengthened by at most three characters. *)
Theorem padBase64_shape :
  forall input,
    (String.length (padBase64 input) mod 4 = 0)%nat
    /\ allChars (fun c => negb (Ascii.eqb c "-") && negb (Ascii.eqb c "_"))
                (padBase64 input) = true
    /\ (String.length input <= String.length (padBase64 input)
        < String.length input + 4)%nat.
Proof.
  intros input. unfold padBase64. cbv zeta.
  set (b64 := mapChars (swapChar "_" "/") (mapChars (swapChar "-" "+") input)).
  assert (Hl : String.length b64 = String.length input)
    by (unfold b64; now rewrite !length_mapChars).
  assert (Hc : allChars (fun c => negb (Ascii.eqb c "-") && negb (Ascii.eqb c "_"))
                        b64 = true) by apply swapped_chars.
  pose proof (Nat.div_mod_eq (String.length b64) 4) as Hd.
  pose proof (Nat.mod_upper_bound (String.length b64) 4 ltac:(discriminate)) as Hu.
  destruct (Nat.eqb_spec (String.length b64 mod 4) 0) as [E | N].
  - repeat split; [exact E | exact Hc | lia | lia].
  - rewrite length_app_string, length_repeatChar, allChars_app_string, Hc.
    rewrite allChars_repeatChar by reflexivity.
    repeat split; try lia.
    replace (String.length b64 + (4 - String.length b64 mod 4))%nat
      with ((String.length b64 / 4 + 1) * 4)%nat by lia.
    apply Nat.Div0.mod_mul.
Qed.

Lemma splitOn_free (sep : ascii) (s : string) :
  free sep s = true -> splitOn sep s = [s].
Proof.
  unfold free. induction s as [|c r IH]; intros H; [reflexivity |].
  simpl in H. apply andb_true_iff in H. destruct H as [Hc Hr].
  apply negb_true_iff in Hc. simpl. rewrite Hc, (IH Hr). reflexivity.
Qed.

Lemma splitOn_app (sep : ascii) (a b : string) :
  free sep a = true ->
  splitOn sep (a ++ String sep b) = a :: splitOn sep b.
Proof.
  unfold free. induction a as [|c r IH]; intros H.
  - simpl. now rewrite Ascii.eqb_refl.
  - simpl in H. apply andb_true_iff in H. destruct H as [Hc Hr].
    apply negb_true_iff in Hc. simpl. rewrite Hc, (IH Hr). reflexivity.
Qed.

Lemma token_parts (h p s : string) :
  free "." h = true -> free "." p = true -> free "." s = true ->
  splitOn "." (h ++ "." ++ p ++ "." ++ s) = [h; p; s]
  /\ String.eqb (h ++ "." ++ p ++ "." ++ s) "" = false.
Proof.
  intros Hh Hp Hs. split.
  - change (h ++ "." ++ p ++ "." ++ s)%string
      with (h ++ String "." (p ++ String "." s))%string.
    now rewrite (splitOn_app _ _ _ Hh), (splitOn_app _ _ _ Hp), (splitOn_free _ _ Hs).
  - destruct h; reflexivity.
Qed.

Section Identity.

Variable decodeBase64 : string -> string.
Variable parseJson : string -> option value.
Variable builtinSubText : string.

Local Abbreviation userOfPayload := (userOfPayload builtinSubText).
Local Abbreviation userOfToken := (userOfToken decodeBase64 parseJson builtinSubText).
Local Abbreviation extractUserFromRequest :=
  (extractUserFromRequest decodeBase64 parseJson builtinSubText).

(** X24.  The identity read from a token of three parts depends on its
    middle part alone: the header and the signature are never looked
    at. *)
Theorem token_signature_ignored :
  forall now h p s h' s',
    free "." h = true -> free "." p = true -> free "." s = true ->
    free "." h' = true -> free "." s' = true ->
    userOfToken now (h ++ "." ++ p ++ "." ++ s)
    = userOfToken now (h' ++ "." ++ p ++ "." ++ s')
    /\ userOfToken now (h ++ "." ++ p ++ "." ++ s)
       = match parseJson (decodeBase64 (padBase64 p)) with
         | Some payload => userOfPayload now payload
         | None => None
         end.
Proof.
  intros now h p s h' s' Hh Hp Hs Hh' Hs'.
  destruct (token_parts h p s Hh Hp Hs) as [E1 N1].
  destruct (token_parts h' p s' Hh' Hp Hs') as [E2 N2].
  unfold Auth.userOfToken. rewrite N1, N2, E1, E2. split; reflexivity.
Qed.

(** X25.  A payload whose [exp] is a number other than zero is refused
    once a thousand times that number lies before the time of the call;
    and an identity accepted at one time is accepted, unchanged, at every
    earlier time. *)
Theorem token_expiry :
  forall now payload,
    (forall n, valueOfClaim (claimOf payload "exp") = Number n ->
               n <> 0 -> n * 1000 < now ->
               userOfPayload now payload = None)
    /\ (forall u earlier,
          userOfPayload now payload = Some u -> earlier <= now ->
          userOfPayload earlier payload = Some u).
Proof.
  intros now payload. split.
  - intros n He Hn Hlt. unfold Auth.userOfPayload. cbv zeta. rewrite He.
    cbn [truthy]. destruct (Z.eqb_spec n 0) as [-> | _]; [now elim Hn |].
    destruct (Z.ltb_spec (n * 1000) now); [reflexivity | lia].
  - intros u earlier. unfold Auth.userOfPayload. cbv zeta.
    destruct (valueOfClaim (claimOf payload "exp")) as [| | b | n | s | l | f];
      cbn [truthy andb]; rewrite ?andb_false_r; auto.
    destruct (negb (n =? 0)); cbn [andb]; auto.
    destruct (Z.ltb_spec (n * 1000) now) as [| Hge]; [discriminate |].
    intros Hu Hle.
    destruct (Z.ltb_spec (n * 1000) earlier) as [Hlt |]; [lia | exact Hu].
Qed.

Lemma sameValueZero_eq (a b : value) : sameValueZero a b = true -> a = b.
Proof.
  destruct a, b; simpl; try discriminate; try reflexivity; intros H.
  - apply Bool.eqb_prop in H. now subst.
  - apply Z.eqb_eq in H. now subst.
  - apply String.eqb_eq in H. now subst.
Qed.

Lemma normalizeRoles_keeps (role : value) (roleList : list value) (v : value) :
  In v roleList \/ (truthy role = true /\ v = role) ->
  In v (normalizeRoles role roleList).
Proof.
  unfold normalizeRoles. intros H.
  destruct (truthy role) eqn:Ht; cbn [andb].
  - destruct (existsb (sameValueZero role) roleList) eqn:Ex; cbn [negb].
    + apply existsb_exists in Ex. destruct Ex as (x & Hx & Hs).
      apply sameValueZero_eq in Hs. subst x.
      destruct H as [H | [_ ->]].
      * destruct roleList; [destruct H | exact H].
      * destruct roleList; [destruct Hx | exact Hx].
    + destruct H as [H | [_ ->]]; [now right | now left].
  - destruct H as [H | [H _]]; [| discriminate H].
    destruct roleList; [destruct H | exact H].
Qed.

Lemma mapToStr_in (items : list value) (texts : list string) (v : value) :
  mapToStr items = Some texts -> In v items ->
  exists s, toStr v = Some s /\ In s texts.
Proof.
  revert texts. induction items as [|x items IH]; intros texts H Hin; [destruct Hin |].
  cbn [mapToStr] in H.
  destruct (toStr x) as [sx|] eqn:Ex; [| discriminate H].
  destruct (mapToStr items) as [ss|]; [| discriminate H].
  injection H as <-. destruct Hin as [<- | Hin].
  - exists sx. split; [exact Ex | now left].
  - destruct (IH ss eq_refl Hin) as (s & Hs & Hi). exists s. split; [exact Hs | now right].
Qed.

Lemma orClaim_truthy (a b : claim) : truthyClaim a = true -> orClaim a b = a.
Proof.
  intros H. unfold orClaim. now rewrite H.
Qed.

(** X26.  An identity is only returned for a payload with a [sub] or an
    [email] that is not empty; a [sub] that is a non-empty string becomes
    the user id and an [email] that is one becomes the email; and the
    roles returned hold, as strings, the [role] of the payload when it has
    one and every entry of its [roles] list. *)
Theorem identity_claims :
  forall now payload u,
    userOfPayload now payload = Some u ->
    (truthyClaim (claimOf payload "sub") = true
     \/ truthyClaim (claimOf payload "email") = true)
    /\ (forall s, claimOf payload "sub" = Claim (Str s) -> s <> "" -> userId u = s)
    /\ (forall e, claimOf payload "email" = Claim (Str e) -> e <> "" -> email u = e)
    /\ (forall role,
          valueOfClaim (claimOf payload "role") = role -> truthy role = true ->
          exists s, toStr role = Some s /\ In s (roles u))
    /\ (forall items v,
          valueOfClaim (claimOf payload "roles") = Arr items -> In v items ->
          exists s, toStr v = Some s /\ In s (roles u)).
Proof.
  intros now payload u. unfold Auth.userOfPayload. cbv zeta.
  destruct (_ && _); [discriminate |].
  set (sub := claimOf payload "sub").
  set (mail := claimOf payload "email").
  set (uid := claimOf payload "user_id").
  set (role := valueOfClaim (claimOf payload "role")).
  set (roleList := match valueOfClaim (claimOf payload "roles") with
                   | Arr items => items
                   | _ => []
                   end).
  destruct (negb (truthyClaim (orClaim (orClaim sub uid) mail))
            || negb (truthyClaim (orClaim mail sub))) eqn:Hn; [discriminate |].
  apply orb_false_iff in Hn. destruct Hn as [Hu He].
  apply negb_false_iff in Hu, He.
  destruct (claimText builtinSubText (orClaim (orClaim sub uid) mail)) as [tu|] eqn:Eu;
    [| discriminate].
  destruct (claimText builtinSubText (orClaim mail sub)) as [te|] eqn:Ee;
    [| discriminate].
  destruct (mapToStr (normalizeRoles role roleList)) as [rs|] eqn:Er;
    [| discriminate].
  intros H. injection H as <-. cbn [userId email roles].
  split; [| split; [| split; [| split]]].
  - unfold orClaim in He. destruct (truthyClaim mail) eqn:Hm; auto.
  - intros s Hs Hne. apply String.eqb_neq in Hne.
    assert (Ht : truthyClaim sub = true).
    { rewrite Hs. cbn [truthyClaim truthy]. now rewrite Hne. }
    rewrite (orClaim_truthy sub uid Ht), (orClaim_truthy sub mail Ht) in Eu.
    rewrite Hs in Eu. cbn [claimText toStr] in Eu.
    congruence.
  - intros e Hs Hne. apply String.eqb_neq in Hne.
    assert (Ht : truthyClaim mail = true).
    { rewrite Hs. cbn [truthyClaim truthy]. now rewrite Hne. }
    rewrite (orClaim_truthy mail sub Ht) in Ee.
    rewrite Hs in Ee. cbn [claimText toStr] in Ee.
    congruence.
  - intros r <- Ht. apply (mapToStr_in _ _ _ Er).
    apply normalizeRoles_keeps. right. auto.
  - intros items v Hi Hv. apply (mapToStr_in _ _ _ Er).
    apply normalizeRoles_keeps. left. unfold roleList. now rewrite Hi.
Qed.

(** X27.  When the authorization header starts with ['Bearer '], the
    token is what follows, trimmed, and the cookies play no part: two
    requests with that header give the same identity whatever their
    cookies are. *)
Theorem bearer_header_wins :
  forall now request request' authHeader,
    authorization request = Some authHeader ->
    startsWith authHeader "Bearer " = true ->
    authorization request' = Some authHeader ->
    getTokenFromRequest request = Some (trim (drop 7 authHeader))
    /\ extractUserFromRequest now request = extractUserFromRequest now request'.
Proof.
  intros now request request' authHeader Ha Hb Ha'.
  assert (E : forall r, authorization r = Some authHeader ->
                        getTokenFromRequest r = Some (trim (drop 7 authHeader))).
  { intros r Hr. unfold getTokenFromRequest. now rewrite Hr, Hb. }
  split; [now apply E |].
  unfold Auth.extractUserFromRequest. now rewrite (E _ Ha), (E _ Ha').
Qed.

End Identity.

Lemma token_signature_ignored_witness :
  userOfToken demoDecode demoParse demoSubText 1000 "aaa.eyJzdWIiOiJ1MSJ9.sig"
  = userOfToken demoDecode demoParse demoSubText 1000 "bbb.eyJzdWIiOiJ1MSJ9.forged".
Proof.
  exact (proj1 (token_signature_ignored demoDecode demoParse demoSubText 1000
                  "aaa" "eyJzdWIiOiJ1MSJ9" "sig" "bbb" "forged"
                  eq_refl eq_refl eq_refl eq_refl eq_refl)).
Defined.

Lemma token_expiry_witness :
  userOfPayload demoSubText 3000001 demoPayload = None
  /\ userOfPayload demoSubText 5 demoPayload = Some ann.
Proof.
  destruct (token_expiry demoSubText 3000000 demoPayload) as [_ Hearlier].
  destruct (token_expiry demoSubText 3000001 demoPayload) as [Hexp _].
  split.
  - apply (Hexp 3000); [reflexivity | discriminate | reflexivity].
  - apply (Hearlier ann 5); [reflexivity | discriminate].
Defined.

Lemma identity_claims_witness :
  userId ann = "u1" /\ email ann = "ann@example.com".
Proof.
  destruct (identity_claims demoSubText 1000 demoPayload ann eq_refl)
    as (_ & Hs & He & _).
  split.
  - apply (Hs "u1"); [reflexivity | discriminate].
  - apply (He "ann@example.com"); [reflexivity | discriminate].
Defined.

Lemma bearer_header_wins_witness :
  extractUserFromRequest demoDecode demoParse demoSubText 1000 bearerRequest
  = extractUserFromRequest demoDecode demoParse demoSubText 1000 bearerAndCookieRequest.
Proof.
  exact (proj2 (bearer_header_wins demoDecode demoParse demoSubText 1000
                  bearerRequest bearerAndCookieRequest
                  "Bearer aaa.eyJzdWIiOiJ1MSJ9.sig" eq_refl eq_refl eq_refl)).
Defined.

End AuthFacts.

(* ------------------------------------------------------------------ *)
(** ** From a draft to its execution *)

Module ApprovalFacts.
Import JsString Js AiPolicy Execute BrokerNotions ExecuteRoute Approval.
Local Open Scope Z_scope.

Section Approve.

Variable World : Type.
Variable fetch : World -> FetchCall -> World * option Response.
Variable buildUrl : string -> string -> list (string * string) -> string.
Variable stringify : value -> string.
Variable parseJson : string -> option value.

Local Abbreviation httpRequest := (httpRequest fetch buildUrl stringify parseJson).
Local Abbreviation forward := (forward fetch buildUrl stringify parseJson).
Local Abbreviation POST := (POST fetch buildUrl stringify parseJson).

Lemma verb_upper (v : string) : In v VERBS -> toUpperCase v = v.
Proof.
  intros [<- | [<- | [<- | [<- | [<- | []]]]]]; reflexivity.
Qed.

Lemma verb_known (v : string) :
  In v VERBS -> existsb (String.eqb v) VERBS = true.
Proof.
  intros [<- | [<- | [<- | [<- | [<- | []]]]]]; reflexivity.
Qed.

Lemma methodOf_known (input : RequestInput) : In (methodOf input) VERBS.
Proof.
  unfold methodOf.
  destruct (existsb _ VERBS) eqn:E.
  - apply existsb_exists in E. destruct E as (v & Hin & Hv).
    apply String.eqb_eq in Hv. now rewrite Hv.
  - simpl. auto.
Qed.

Lemma query_coalesced (q : value) :
  (if truthy (coalesce q Null) then entriesOf (coalesce q Null) else [])
  = (if truthy q then entriesOf q else []).
Proof.
  destruct q; reflexivity.
Qed.

Lemma body_coalesced (b : value) :
  coalesce (coalesce b Null) (Obj []) = coalesce b (Obj []).
Proof.
  destruct b; reflexivity.
Qed.

Lemma resent_method (input : RequestInput) :
  methodOf (singleInput (Obj (approveFields (draftFields input)))) = methodOf input.
Proof.
  pose proof (methodOf_known input) as Hm.
  change (methodOf (singleInput (Obj (approveFields (draftFields input)))))
    with (if existsb (String.eqb (toUpperCase (methodOf input))) VERBS
          then toUpperCase (methodOf input) else "GET"%string).
  now rewrite (verb_upper _ Hm), (verb_known _ Hm).
Qed.

Lemma resent_forward request method pathRaw (input : RequestInput) w log :
  forward request method pathRaw
    (singleInput (Obj (approveFields (draftFields input)))) w log
  = forward request method pathRaw input w log.
Proof.
  unfold Execute.forward, queryOf, initOf.
  change (in_query (singleInput (Obj (approveFields (draftFields input)))))
    with (coalesce (in_query input) Null).
  change (in_body (singleInput (Obj (approveFields (draftFields input)))))
    with (coalesce (in_body input) Null).
  now rewrite query_coalesced, body_coalesced.
Qed.

(** X28.  The draft of a call with a valid path, sent back by the overlay
    with [approved: true], is forwarded as the call that was held: with
    its method, its path, its query and its body, whatever the operator's
    switches are. *)
Theorem approved_draft_is_forwarded :
  forall (User : Type) (user : User) env request input w log,
    validPath input = true ->
    body (requestDraft (methodOf input) (pathOf input) input)
    = DraftBody "http.request" (Obj (draftFields input))
    /\ POST (Some user) (Some (resubmission "http.request" (draftFields input)))
            env request w log
       = forward request (methodOf input) (pathOf input) input w log.
Proof.
  intros User user env request input w log Hp.
  split; [reflexivity |].
  destruct (ExecuteFacts.validPath_tests _ Hp) as [H1 H2].
  change (POST (Some user)
            (Some (resubmission "http.request" (draftFields input)))
            env request w log)
    with (httpRequest env request
            (singleInput (Obj (approveFields (draftFields input)))) w log).
  unfold Execute.httpRequest. cbv zeta.
  rewrite resent_method.
  change (pathOf (singleInput (Obj (approveFields (draftFields input)))))
    with (pathOf input).
  change (truthy (in_approved (singleInput (Obj (approveFields (draftFields input))))))
    with true.
  rewrite H1, H2. cbn [negb andb]. rewrite andb_false_r.
  apply resent_forward.
Qed.

End Approve.

Lemma approved_draft_is_forwarded_witness :
  ExecuteRoute.POST hostFetch hostUrl hostStringify hostParse (Some tt)
    (Some (resubmission "http.request"
             (draftFields (call (Str "delete") "/api/crm/companies/7" (Bool false)))))
    production overlayRequest 0%nat []
  = Execute.forward hostFetch hostUrl hostStringify hostParse overlayRequest
      "DELETE" "/api/crm/companies/7"
      (call (Str "delete") "/api/crm/companies/7" (Bool false)) 0%nat [].
Proof.
  exact (proj2 (approved_draft_is_forwarded nat hostFetch hostUrl hostStringify
                  hostParse unit tt production overlayRequest
                  (call (Str "delete") "/api/crm/companies/7" (Bool false))
                  0%nat [] eq_refl)).
Defined.

End ApprovalFacts.

(* ------------------------------------------------------------------ *)
(** ** Reading the token from the cookie header *)

Module CookieHeaderFacts.
Import JsString TextShape Auth CookieHeader.

Lemma allChars_app (ok : ascii -> bool) (a b : string) :
  allChars ok (a ++ b) = allChars ok a && allChars ok b.
Proof.
  induction a as [|c r IH]; [reflexivity |].
  simpl. now rewrite IH, andb_assoc.
Qed.

Lemma allChars_imp (p q : ascii -> bool) (s : string) :
  (forall c, p c = true -> q c = true) ->
  allChars p s = true -> allChars q s = true.
Proof.
  intros Hpq. induction s as [|c r IH]; [reflexivity |].
  simpl. intros H. apply andb_true_iff in H. destruct H as [Hc Hr].
  now rewrite (Hpq _ Hc), (IH Hr).
Qed.

Lemma dropTrailing_none (cls : ascii -> bool) (s : string) :
  allChars (fun c => negb (cls c)) s = true -> dropTrailing cls s = s.
Proof.
  induction s as [|c r IH]; [reflexivity |].
  simpl. intros H. apply andb_true_iff in H. destruct H as [Hc Hr].
  apply negb_true_iff in Hc. rewrite (IH Hr), Hc. now destruct r.
Qed.

Lemma dropLeading_none (cls : ascii -> bool) (s : string) :
  allChars (fun c => negb (cls c)) s = true -> dropLeading cls s = s.
Proof.
  destruct s as [|c r]; [reflexivity |].
  simpl. intros H. apply andb_true_iff in H. destruct H as [Hc _].
  apply negb_true_iff in Hc. now rewrite Hc.
Qed.

Lemma cutAt_app (x : ascii) (a b : string) :
  free x a = true -> cutAt x (a ++ String x b) = Some (a, b).
Proof.
  unfold free. induction a as [|c r IH]; intros H.
  - simpl. now rewrite Ascii.eqb_refl.
  - simpl in H. apply andb_true_iff in H. destruct H as [Hc Hr].
    apply negb_true_iff in Hc. simpl. now rewrite Hc, (IH Hr).
Qed.

Lemma plain_parts (c : string * string) :
  plainCookie c = true ->
  fst c <> ""%string
  /\ free "=" (fst c) = true
  /\ free ";" (renderCookie c) = true
  /\ allChars (fun d => negb (isSpace d)) (renderCookie c) = true.
Proof.
  unfold plainCookie, renderCookie. intros H.
  repeat (apply andb_true_iff in H; destruct H as [H ?]).
  apply negb_true_iff in H.
  assert (Hs : forall d, isCookieChar d = true -> negb (Ascii.eqb d ";") = true).
  { intros d Hd. unfold isCookieChar in Hd. now apply andb_true_iff in Hd. }
  assert (Hw : forall d, isCookieChar d = true -> negb (isSpace d) = true).
  { intros d Hd. unfold isCookieChar in Hd. apply andb_true_iff in Hd.
    destruct Hd as [Hd _]. revert Hd.
    destruct d as [[] [] [] [] [] [] [] []]; try reflexivity; discriminate. }
  repeat split.
  - intros E. rewrite E in H. discriminate.
  - assumption.
  - unfold free. rewrite !allChars_app.
    rewrite (allChars_imp _ _ _ Hs H2), (allChars_imp _ _ _ Hs H0). reflexivity.
  - rewrite !allChars_app.
    rewrite (allChars_imp _ _ _ Hw H2), (allChars_imp _ _ _ Hw H0). reflexivity.
Qed.

Lemma trim_plain (c : string * string) :
  plainCookie c = true ->
  trim (renderCookie c) = renderCookie c
  /\ trim (String " " (renderCookie c)) = renderCookie c.
Proof.
  intros H. destruct (plain_parts _ H) as (_ & _ & _ & Hw).
  assert (E : dropLeading isSpace (String " " (renderCookie c))
              = dropLeading isSpace (renderCookie c)) by reflexivity.
  unfold trim. rewrite E, (dropLeading_none _ _ Hw), (dropTrailing_none _ _ Hw).
  split; reflexivity.
Qed.

(** The pieces of the header, trimmed, are the rendered pairs. *)
Lemma header_pieces (c : string * string) (rest : list (string * string)) :
  forallb plainCookie (c :: rest) = true ->
  splitOn ";" (cookieHeaderOf (c :: rest))
  = renderCookie c :: map (fun d => String " " (renderCookie d)) rest.
Proof.
  revert c. induction rest as [|d rest IH]; intros c H.
  - simpl in H. rewrite andb_true_r in H.
    destruct (plain_parts _ H) as (_ & _ & Hf & _).
    unfold cookieHeaderOf, join. simpl. now apply AuthFacts.splitOn_free.
  - cbn [forallb] in H. apply andb_true_iff in H. destruct H as [Hc Hr].
    destruct (plain_parts _ Hc) as (_ & _ & Hf & _).
    specialize (IH d Hr).
    change (cookieHeaderOf (c :: d :: rest))
      with (renderCookie c ++ String ";" (String " " (cookieHeaderOf (d :: rest))))%string.
    rewrite (AuthFacts.splitOn_app _ _ _ Hf).
    cbn [splitOn Ascii.eqb Bool.eqb]. rewrite IH. reflexivity.
Qed.

Lemma trimmed_pieces (cookies : list (string * string)) :
  forallb plainCookie cookies = true ->
  cookies <> [] ->
  map trim (splitOn ";" (cookieHeaderOf cookies)) = map renderCookie cookies.
Proof.
  destruct cookies as [|c rest]; [congruence |]. intros H _.
  rewrite (header_pieces _ _ H).
  cbn [forallb] in H. apply andb_true_iff in H. destruct H as [Hc Hr].
  cbn [map]. rewrite (proj1 (trim_plain _ Hc)). f_equal.
  rewrite map_map. apply map_ext_in. intros d Hd.
  rewrite forallb_forall in Hr. exact (proj2 (trim_plain _ (Hr _ Hd))).
Qed.

Lemma tokenOfCookies_rendered (cookies : list (string * string)) :
  forallb plainCookie cookies = true ->
  tokenOfCookies (map renderCookie cookies) = hitToken cookies.
Proof.
  unfold hitToken. induction cookies as [|c rest IH]; [reflexivity |].
  cbn [forallb]. intros H. apply andb_true_iff in H. destruct H as [Hc Hr].
  destruct (plain_parts _ Hc) as (Hn & He & _ & _).
  cbn [map tokenOfCookies find].
  unfold renderCookie at 1.
  change (fst c ++ "=" ++ snd c)%string with (fst c ++ String "=" (snd c))%string.
  rewrite (cutAt_app _ _ _ He).
  destruct (String.eqb_spec (fst c) "") as [E | _]; [contradiction |].
  destruct (String.eqb (fst c) "hit_token" && negb (String.eqb (snd c) ""));
    [reflexivity | exact (IH Hr)].
Qed.

Lemma header_present (c : string * string) (rest : list (string * string)) :
  plainCookie c = true ->
  present (Some (cookieHeaderOf (c :: rest))) = Some (cookieHeaderOf (c :: rest)).
Proof.
  intros H. destruct (plain_parts _ H) as (Hn & _).
  unfold present.
  destruct (String.eqb_spec (cookieHeaderOf (c :: rest)) "") as [E | _];
    [| reflexivity].
  exfalso. apply Hn.
  unfold cookieHeaderOf, join, renderCookie in E. cbn [map String.concat] in E.
  destruct (fst c); [reflexivity |].
  destruct rest; discriminate.
Qed.

(** X29.  When the request carries no bearer header and no parsed
    [hit_token] cookie, the token read from a cookie header made of
    well-formed pairs is the value of the first pair named [hit_token]
    whose value is not empty, and there is none when no pair is. *)
Theorem token_from_cookie_header :
  forall cookies : list (string * string),
    forallb plainCookie cookies = true ->
    getTokenFromRequest
      {| authorization := None; hitTokenCookie := None;
         cookie := Some (cookieHeaderOf cookies) |}
    = hitToken cookies.
Proof.
  intros cookies H.
  destruct cookies as [|c rest]; [reflexivity |].
  assert (Hc : plainCookie c = true).
  { cbn [forallb] in H. now apply andb_true_iff in H. }
  unfold getTokenFromRequest, tokenFromCookies.
  cbn [authorization hitTokenCookie cookie].
  change (present None) with (@None string). cbv iota.
  rewrite (header_present _ _ Hc).
  rewrite (trimmed_pieces _ H) by discriminate.
  now apply tokenOfCookies_rendered.
Qed.

Lemma token_from_cookie_header_witness :
  getTokenFromRequest
    {| authorization := None; hitTokenCookie := None;
       cookie := Some "theme=dark; hit_token=; hit_token=a.b.c; hit_token=x.y.z" |}
  = Some "a.b.c"%string.
Proof.
  exact (token_from_cookie_header
           [ ("theme", "dark"); ("hit_token", ""); ("hit_token", "a.b.c");
             ("hit_token", "x.y.z") ]%string eq_refl).
Defined.

End CookieHeaderFacts.

(* ------------------------------------------------------------------ *)
(** ** The handlers a route file declares *)

Module RouteTextFacts.
Import JsString TextShape RouteText.

Lemma after_spec (lit s r : string) :
  after lit s = Some r <-> s = lit ++ r.
Proof.
  revert s. induction lit as [|a lit IH]; intros s; cbn [after String.append].
  - split; [intros E; now injection E | intros ->; reflexivity].
  - destruct s as [|b s]; [split; discriminate |].
    destruct (Ascii.eqb_spec a b) as [-> | N].
    + rewrite IH. split; [intros ->; reflexivity | intros E; now injection E].
    + split; [discriminate | intros E; injection E as E1 E2; congruence].
Qed.

Lemma dropLeading_split (cls : ascii -> bool) (s : string) :
  exists g, allChars cls g = true
            /\ s = g ++ dropLeading cls s
            /\ headIn cls (dropLeading cls s) = false.
Proof.
  induction s as [|c r (g & Hg & Hs & Hh)].
  - exists "". auto.
  - cbn [dropLeading]. destruct (cls c) eqn:E.
    + exists (String c g). cbn [allChars String.append]. rewrite E, Hg.
      repeat split; [f_equal; exact Hs | exact Hh].
    + exists "". cbn [allChars String.append headIn]. auto.
Qed.

Lemma dropLeading_app (cls : ascii -> bool) (g r : string) :
  allChars cls g = true -> headIn cls r = false ->
  dropLeading cls (g ++ r) = r.
Proof.
  intros Hg Hr. induction g as [|c g IH]; cbn [String.append].
  - destruct r as [|d r]; [reflexivity |].
    cbn [headIn] in Hr. cbn [dropLeading]. now rewrite Hr.
  - cbn [allChars] in Hg. apply andb_true_iff in Hg. destruct Hg as [Hc Hg].
    cbn [dropLeading]. rewrite Hc. now apply IH.
Qed.

Lemma afterBlanks_spec (s r : string) :
  afterBlanks s = Some r
  <-> exists g, blanks g = true /\ s = g ++ r /\ headIn isBlank r = false.
Proof.
  split.
  - destruct s as [|c s]; [discriminate |]. cbn [afterBlanks].
    destruct (isBlank c) eqn:E; [| discriminate].
    intros H. injection H as <-.
    destruct (dropLeading_split isBlank s) as (g & Hg & Hs & Hh).
    exists (String c g). unfold blanks. cbn [String.eqb negb allChars andb String.append].
    rewrite E, Hg. repeat split; [f_equal; exact Hs | exact Hh].
  - intros (g & Hg & -> & Hh). destruct g as [|c g]; [discriminate Hg |].
    unfold blanks in Hg. cbn [String.eqb negb allChars andb] in Hg.
    apply andb_true_iff in Hg. destruct Hg as [Hc Hg].
    cbn [String.append afterBlanks]. rewrite Hc. f_equal.
    now apply dropLeading_app.
Qed.

Lemma after_app (lit r : string) : after lit (lit ++ r) = Some r.
Proof.
  now apply after_spec.
Qed.

Lemma afterBlanks_app (g r : string) :
  blanks g = true -> headIn isBlank r = false -> afterBlanks (g ++ r) = Some r.
Proof.
  intros Hg Hr. apply afterBlanks_spec. exists g. auto.
Qed.

Lemma headIn_app (cls : ascii -> bool) (m r : string) :
  m <> "" -> headIn cls (m ++ r) = headIn cls m.
Proof.
  destruct m; [congruence | reflexivity].
Qed.

Lemma declaresAt_spec (m s : string) :
  m <> "" -> headIn isBlank m = false ->
  declaresAt m s = true
  <-> exists g1 g2 g3 rest,
        s = "export" ++ g1 ++ "async" ++ g2 ++ "function" ++ g3 ++ m ++ rest
        /\ blanks g1 = true /\ blanks g2 = true /\ blanks g3 = true
        /\ atBoundary rest = true.
Proof.
  intros Hm Hh. unfold declaresAt, matchAt. split.
  - destruct (after "export" s) as [s1|] eqn:E1; [| discriminate].
    cbn [andThen].
    destruct (afterBlanks s1) as [s2|] eqn:E2; [| discriminate].
    cbn [andThen].
    destruct (after "async" s2) as [s3|] eqn:E3; [| discriminate].
    cbn [andThen].
    destruct (afterBlanks s3) as [s4|] eqn:E4; [| discriminate].
    cbn [andThen].
    destruct (after "function" s4) as [s5|] eqn:E5; [| discriminate].
    cbn [andThen].
    destruct (afterBlanks s5) as [s6|] eqn:E6; [| discriminate].
    cbn [andThen].
    destruct (after m s6) as [rest|] eqn:E7; [| discriminate].
    intros Hb.
    apply after_spec in E1, E3, E5, E7.
    apply afterBlanks_spec in E2, E4, E6.
    destruct E2 as (g1 & Hg1 & E2 & _).
    destruct E4 as (g2 & Hg2 & E4 & _).
    destruct E6 as (g3 & Hg3 & E6 & _).
    exists g1, g2, g3, rest. subst. auto.
  - intros (g1 & g2 & g3 & rest & -> & Hg1 & Hg2 & Hg3 & Hb).
    assert (Hr : headIn isBlank (m ++ rest) = false)
      by (now rewrite headIn_app).
    rewrite (after_app "export"). cbn [andThen].
    rewrite (afterBlanks_app g1 ("async" ++ g2 ++ "function" ++ g3 ++ m ++ rest)
               Hg1 eq_refl).
    cbn [andThen]. rewrite (after_app "async"). cbn [andThen].
    rewrite (afterBlanks_app g2 ("function" ++ g3 ++ m ++ rest) Hg2 eq_refl).
    cbn [andThen]. rewrite (after_app "function"). cbn [andThen].
    rewrite (afterBlanks_app g3 (m ++ rest) Hg3 Hr).
    cbn [andThen]. rewrite (after_app m). exact Hb.
Qed.

Lemma declares_spec (m s : string) :
  declares m s = true
  <-> exists pre suffix, s = pre ++ suffix /\ declaresAt m suffix = true.
Proof.
  induction s as [|c r IH]; cbn [declares].
  - rewrite orb_false_r. split.
    + intros H. exists "", "". auto.
    + intros (pre & suffix & E & H).
      destruct pre; [| discriminate E]. cbn [String.append] in E. now subst.
  - rewrite orb_true_iff, IH. split.
    + intros [H | (pre & suffix & -> & H)].
      * exists "", (String c r). auto.
      * exists (String c pre), suffix. auto.
    + intros (pre & suffix & E & H). destruct pre as [|d pre].
      * cbn [String.append] in E. subst. now left.
      * cbn [String.append] in E. injection E as -> ->. right.
        exists pre, suffix. auto.
Qed.

Lemma handler_shape (m : string) :
  In m HANDLERS -> m <> "" /\ headIn isBlank m = false.
Proof.
  intros [<- | [<- | [<- | [<- | [<- | []]]]]]; split;
    first [discriminate | reflexivity].
Qed.

(** X30.  The handlers read from the text of a route file are, among
    GET, POST, PUT, PATCH and DELETE, exactly the names that the text
    declares as an exported asynchronous function: the words [export],
    [async] and [function] and the name, each separated from the next by
    white space, and the name not going on with a letter, a digit or an
    underscore. *)
Theorem extractMethods_declared :
  forall text m,
    In m (extractMethods text) <-> In m HANDLERS /\ Declared m text.
Proof.
  intros text m. unfold extractMethods, Declared.
  rewrite filter_In, declares_spec. split.
  - intros (Hin & pre & suffix & -> & H).
    destruct (handler_shape _ Hin) as [Hm Hh].
    apply (declaresAt_spec _ _ Hm Hh) in H.
    destruct H as (g1 & g2 & g3 & rest & -> & H).
    split; [exact Hin |]. exists pre, g1, g2, g3, rest. auto.
  - intros (Hin & pre & g1 & g2 & g3 & rest & -> & H).
    destruct (handler_shape _ Hin) as [Hm Hh].
    split; [exact Hin |].
    exists pre, ("export" ++ g1 ++ "async" ++ g2 ++ "function" ++ g3 ++ m ++ rest).
    split; [reflexivity |].
    apply (declaresAt_spec _ _ Hm Hh). exists g1, g2, g3, rest. auto.
Qed.

End RouteTextFacts.

(* ------------------------------------------------------------------ *)
(** ** The control plane behind a dot segment *)

Module ControlPlaneFacts.
Import JsString Js AiPolicy Execute BrokerNotions UrlResolution.
Local Open Scope Z_scope.

(** C7.  The broker tests the text of the path, and the URL parser then
    resolves the dot segments of that text: the path
    ['/api/../api/ai/execute'] starts with ['/api/'] and not with
    ['/api/ai/'], so that it passes both tests, and the call is sent to
    ['/api/ai/execute'], inside the control plane that the second test is
    there to keep out of reach. *)
Theorem control_plane_reached :
  validPath (call (Str "GET") "/api/../api/ai/execute" (Bool false)) = true
  /\ pathnameOf "/api/../api/ai/execute" = "/api/ai/execute"
  /\ startsWith (pathnameOf "/api/../api/ai/execute") "/api/ai/" = true
  /\ Execute.httpRequest hostFetch resolvedUrl hostStringify hostParse production
       overlayRequest (call (Str "GET") "/api/../api/ai/execute" (Bool false))
       0%nat []
     = (1%nat,
        [ {| call_url := "http://localhost:3000/api/ai/execute";
             call_init := {| init_method := "GET";
                             init_headers := [ ("authorization", "Bearer token");
                                               ("content-type", "application/json") ];
                             init_body := None |} |} ],
        Some {| status := 200;
                body := ExecBody 200 "http://localhost:3000/api/ai/execute"
                                 "GET" (Obj []) |}).
Proof.
  repeat split; reflexivity.
Qed.

End ControlPlaneFacts.
